(** * MDC block-component bracket matching

    A shallow embedding of [find-matching-brackets.ts]: the position
    classifier [detectBracketAtPosition], the document scanner
    [scanAllBrackets], the stack matcher [findMatchingBracket], the range
    builder [createBracketRange] and the entry point [findMatchingBrackets],
    together with the properties of the specification that concern them.

    Strings are sequences of UTF-16 code units, numbers that the source
    uses as line, column and length are integers, and a call of the document
    accessor either returns a line or throws. *)

From Stdlib Require Import String Ascii.
From Stdlib Require Import List ZArith NArith Bool Lia Arith.
Import ListNotations.

Local Open Scope Z_scope.

(* ================================================================== *)
(** ** Strings of code units *)

Definition codeunit := N.
Definition jsstring := list codeunit.

(** An ASCII literal as a string of code units. *)
Definition js (s : string) : jsstring :=
  map N_of_ascii (list_ascii_of_string s).

(** [s.length] *)
Definition len (s : jsstring) : Z := Z.of_nat (length s).

Local Open Scope N_scope.

Definition inRange (lo hi c : codeunit) : bool :=
  (lo <=? c) && (c <=? hi).

(** The class [\s], which is also the set that [String.prototype.trim]
    strips: white space and line terminators. *)
Definition isWhiteSpace (c : codeunit) : bool :=
  inRange 9 13 c || (c =? 32) || (c =? 160) || (c =? 5760)
  || inRange 8192 8202 c || (c =? 8232) || (c =? 8233) || (c =? 8239)
  || (c =? 8287) || (c =? 12288) || (c =? 65279).

(** [:] *)
Definition isColon (c : codeunit) : bool := c =? 58.

(** The class [[\w-]]: letters, digits, underscore, hyphen. *)
Definition isWordOrHyphen (c : codeunit) : bool :=
  inRange 65 90 c || inRange 97 122 c || inRange 48 57 c
  || (c =? 95) || (c =? 45).

(** The backtick and the tilde of a code fence. *)
Definition isBacktick (c : codeunit) : bool := c =? 96.
Definition isTilde (c : codeunit) : bool := c =? 126.

Local Close Scope N_scope.

Fixpoint takeWhile {A} (p : A -> bool) (l : list A) : list A :=
  match l with
  | [] => []
  | x :: l' => if p x then x :: takeWhile p l' else []
  end.

Fixpoint dropWhile {A} (p : A -> bool) (l : list A) : list A :=
  match l with
  | [] => []
  | x :: l' => if p x then dropWhile p l' else l
  end.

(** [s.trim()] *)
Definition trim (s : jsstring) : jsstring :=
  rev (dropWhile isWhiteSpace (rev (dropWhile isWhiteSpace s))).

Fixpoint isPrefix (pat s : jsstring) : bool :=
  match pat, s with
  | [], _ => true
  | _ :: _, [] => false
  | p :: pat', c :: s' => (N.eqb p c && isPrefix pat' s')%bool
  end.

Fixpoint indexOfFrom (s pat : jsstring) (i : Z) : Z :=
  if isPrefix pat s then i
  else match s with
       | [] => -1
       | _ :: s' => indexOfFrom s' pat (i + 1)
       end.

(** [s.indexOf(pat)]: the first position at which [pat] occurs, or -1. *)
Definition indexOf (s pat : jsstring) : Z := indexOfFrom s pat 0.

Fixpoint lastIndexOfFrom (s pat : jsstring) (i best : Z) : Z :=
  let best' := if isPrefix pat s then i else best in
  match s with
  | [] => best'
  | _ :: s' => lastIndexOfFrom s' pat (i + 1) best'
  end.

(** [s.lastIndexOf(pat)]: the last position at which [pat] occurs, or -1. *)
Definition lastIndexOf (s pat : jsstring) : Z := lastIndexOfFrom s pat 0 (-1).

(* ================================================================== *)
(** ** The regular expressions of the source

    The patterns of the source use anchors, greedy repetitions [X{n,}] of a
    character class, sequencing, one alternation and capture groups.  The
    matcher below is the backtracking matcher of the language restricted to
    that fragment: a repetition first takes as many characters as it can and
    gives them back one at a time while the rest of the pattern fails. *)

Module Regex.

Inductive regex : Type :=
| Bol                                           (* ^ *)
| Eol                                           (* $ *)
| Rep (cls : codeunit -> bool) (min : nat)      (* X{min,} *)
| Seq (r1 r2 : regex)
| Alt (r1 r2 : regex)                           (* r1|r2 *)
| Grp (i : nat) (r : regex).                    (* the i-th capture group *)

(** Capture groups, as (start, end) positions, the latest first. *)
Definition captures := list (nat * (nat * nat)).

Section Matcher.
Variable s : jsstring.
Variable A : Type.

  (** Try the continuation at [base + n], then [base + n - 1], down to
      [base + min]. *)
Fixpoint tryDown (k : nat -> option A) (base min n : nat) : option A :=
    if (n <? min)%nat then None
    else match k (base + n)%nat with
         | Some x => Some x
         | None => match n with
                   | O => None
                   | S n' => tryDown k base min n'
                   end
         end.

Fixpoint run (r : regex) (pos : nat) (caps : captures)
           (k : nat -> captures -> option A) : option A :=
    match r with
    | Bol => if (pos =? 0)%nat then k pos caps else None
    | Eol => if (pos =? length s)%nat then k pos caps else None
    | Rep cls min =>
        tryDown (fun e => k e caps) pos min
                (length (takeWhile cls (skipn pos s)))
    | Seq r1 r2 => run r1 pos caps (fun e c => run r2 e c k)
    | Alt r1 r2 =>
        match run r1 pos caps k with
        | Some x => Some x
        | None => run r2 pos caps k
        end
    | Grp i r' => run r' pos caps (fun e c => k e ((i, (pos, e)) :: c))
    end.
End Matcher.

(** The result of a successful match: where it starts and ends in the
    input, and the capture groups. *)
Record matchResult : Type := MatchResult {
  input : jsstring;
  index : nat;
  lastIndex : nat;
  caps : captures
}.

Definition matchAt (r : regex) (s : jsstring) (start : nat) : option matchResult :=
  run s matchResult r start [] (fun e c => Some (MatchResult s start e c)).

Fixpoint searchFrom (r : regex) (s : jsstring) (start fuel : nat) : option matchResult :=
  match matchAt r s start with
  | Some x => Some x
  | None => match fuel with
            | O => None
            | S fuel' => searchFrom r s (S start) fuel'
            end
  end.

(** [s.match(r)] for a pattern without the global flag: the leftmost match,
    trying the start positions 0, 1, ..., [s.length]. *)
Definition exec (r : regex) (s : jsstring) : option matchResult :=
  searchFrom r s 0 (length s).

(** [r.test(s)] *)
Definition test (r : regex) (s : jsstring) : bool :=
  match exec r s with Some _ => true | None => false end.

Definition substring (s : jsstring) (a b : nat) : jsstring :=
  firstn (b - a) (skipn a s).

(** [m[0]] *)
Definition whole (m : matchResult) : jsstring :=
  substring (input m) (index m) (lastIndex m).

Fixpoint lookup (i : nat) (c : captures) : option (nat * nat) :=
  match c with
  | [] => None
  | (j, ab) :: c' => if (i =? j)%nat then Some ab else lookup i c'
  end.

(** [m[i]]; every group of the patterns used here takes part in every
    match, so the case of an undefined group does not arise. *)
Definition group (m : matchResult) (i : nat) : jsstring :=
  match lookup i (caps m) with
  | Some (a, b) => substring (input m) a b
  | None => []
  end.

End Regex.

Import Regex.

(* ================================================================== *)
(** ** The data model *)

(** What a call that may throw produces. *)
Inductive outcome (A : Type) : Type :=
| Ret (a : A)
| Throw.
Arguments Ret {A} a.
Arguments Throw {A}.

Definition bind {A B} (m : outcome A) (f : A -> outcome B) : outcome B :=
  match m with
  | Ret a => f a
  | Throw => Throw
  end.

Notation "x <- m ;; k" := (bind m (fun x => k))
  (at level 61, m at next level, right associativity).

(** [try { body } catch { handler }] *)
Definition tryCatch {A} (body : outcome A) (handler : outcome A) : outcome A :=
  match body with
  | Ret a => Ret a
  | Throw => handler
  end.

(** The document accessor: the text of a line, and the number of lines. *)
Record TextDocument : Type := {
  getLine : Z -> outcome jsstring;
  lineCount : Z
}.

Record Position : Type := { line : Z; column : Z }.

Record Range : Type := {
  startLine : Z;
  startColumn : Z;
  endLine : Z;
  endColumn : Z
}.

Record BracketMatch : Type := {
  opening : Range;
  closing : Range;
  colonCount : Z
}.

Module BracketBlock.
Record t : Type := mk {
    line : Z;
    colonCount : Z;
    isOpening : bool;
    tagName : option jsstring
  }.
End BracketBlock.

Abbreviation BracketBlock := BracketBlock.t.

(* ================================================================== *)
(** ** detectBracketAtPosition *)

(** [/^\s*(:{2,})([\w-]+)/] *)
Definition reCursorOpening : regex :=
  Seq Bol (Seq (Rep isWhiteSpace 0)
          (Seq (Grp 1 (Rep isColon 2)) (Grp 2 (Rep isWordOrHyphen 1)))).

(** [/^\s*(:{2,})\s*$/] *)
Definition reCursorClosing : regex :=
  Seq Bol (Seq (Rep isWhiteSpace 0)
          (Seq (Grp 1 (Rep isColon 2)) (Seq (Rep isWhiteSpace 0) Eol))).

(** The colon count of the delimiter the cursor is on, if any. *)
Definition detectBracketAtPosition (lineContent : jsstring) (column : Z) : option Z :=
  let atOpening :=
    match exec reCursorOpening lineContent with
    | Some openingMatch =>
        let colonCount := len (group openingMatch 1) in
        let colonStart :=
          Z.of_nat (index openingMatch)
          + indexOf (whole openingMatch) (group openingMatch 1) in
        let componentNameEnd :=
          colonStart + len (group openingMatch 1) + len (group openingMatch 2) in
        if (column >=? colonStart) && (column <=? componentNameEnd)
        then Some colonCount else None
    | None => None
    end in
  match atOpening with
  | Some r => Some r
  | None =>
      match exec reCursorClosing lineContent with
      | Some closingMatch =>
          let colonCount := len (group closingMatch 1) in
          let colonStart :=
            Z.of_nat (index closingMatch)
            + indexOf (whole closingMatch) (group closingMatch 1) in
          let colonEnd := colonStart + colonCount in
          if (column >=? colonStart) && (column <=? colonEnd)
          then Some colonCount else None
      | None => None
      end
  end.

(* ================================================================== *)
(** ** scanAllBrackets *)

(** [/^\s*(?:`{3,}|~{3,})/] *)
Definition reFence : regex :=
  Seq Bol (Seq (Rep isWhiteSpace 0) (Alt (Rep isBacktick 3) (Rep isTilde 3))).

(** [/^(:{2,})([\w-]+)/] *)
Definition reScanOpening : regex :=
  Seq Bol (Seq (Grp 1 (Rep isColon 2)) (Grp 2 (Rep isWordOrHyphen 1))).

(** [/^(:{2,})$/] *)
Definition reScanClosing : regex :=
  Seq Bol (Seq (Grp 1 (Rep isColon 2)) Eol).

(** The state of the scan: the [brackets] pushed so far, in the order of
    the pushes, and [insideCodeBlock]. *)
Definition scanState : Type := (list BracketBlock * bool)%type.

(** The body of the loop of the scanner, for the line [lineNumber] whose
    text is [lineContent]. *)
Definition scanLine (lineNumber : Z) (lineContent : jsstring) (st : scanState) : scanState :=
  let '(brackets, insideCodeBlock) := st in
  let trimmed := trim lineContent in
  if test reFence trimmed then (brackets, negb insideCodeBlock)
  else if insideCodeBlock then (brackets, insideCodeBlock)
  else
    match exec reScanOpening trimmed with
    | Some openingMatch =>
        (brackets ++ [BracketBlock.mk lineNumber (len (group openingMatch 1))
                                      true (Some (group openingMatch 2))],
         insideCodeBlock)
    | None =>
        match exec reScanClosing trimmed with
        | Some closingMatch =>
            (brackets ++ [BracketBlock.mk lineNumber (len (group closingMatch 1))
                                          false None],
             insideCodeBlock)
        | None => (brackets, insideCodeBlock)
        end
    end.

(** [count] iterations of the loop, from the line [lineNumber] on. *)
Fixpoint scanLoop (document : TextDocument) (count : nat) (lineNumber : Z)
         (st : scanState) : outcome scanState :=
  match count with
  | O => Ret st
  | S count' =>
      lineContent <- getLine document lineNumber ;;
      scanLoop document count' (lineNumber + 1) (scanLine lineNumber lineContent st)
  end.

(** The loop runs for the lines [0 .. lineCount - 1]. *)
Definition scanAllBrackets (document : TextDocument) : outcome (list BracketBlock) :=
  st <- scanLoop document (Z.to_nat (lineCount document)) 0 ([], false) ;;
  Ret (fst st).

(* ================================================================== *)
(** ** findMatchingBracket *)

(** The stack of the matcher is a list whose head is the top of the stack:
    [push] is a cons and [pop] removes the head. *)

(** The forward loop over the brackets after the current one. *)
Fixpoint forwardLoop (rest stack : list BracketBlock) : option BracketBlock :=
  match rest with
  | [] => None
  | bracket :: rest' =>
      if BracketBlock.isOpening bracket then forwardLoop rest' (bracket :: stack)
      else
        match stack with
        | lastOpening :: stack' =>
            if BracketBlock.colonCount lastOpening =? BracketBlock.colonCount bracket
            then match stack' with
                 | [] => Some bracket
                 | _ :: _ => forwardLoop rest' stack'
                 end
            else forwardLoop rest' stack
        | [] => forwardLoop rest' stack
        end
  end.

(** The backward loop over the brackets before the current one, the
    nearest first. *)
Fixpoint backwardLoop (rest stack : list BracketBlock) : option BracketBlock :=
  match rest with
  | [] => None
  | bracket :: rest' =>
      if negb (BracketBlock.isOpening bracket) then backwardLoop rest' (bracket :: stack)
      else
        match stack with
        | lastClosing :: stack' =>
            if BracketBlock.colonCount lastClosing =? BracketBlock.colonCount bracket
            then match stack' with
                 | [] => Some bracket
                 | _ :: _ => backwardLoop rest' stack'
                 end
            else backwardLoop rest' stack
        | [] => backwardLoop rest' stack
        end
  end.

(** Reading [isOpening] of [brackets[currentIndex]] throws when the index is
    out of range. *)
Definition findMatchingBracket (brackets : list BracketBlock) (currentIndex : nat)
  : outcome (option BracketBlock) :=
  match nth_error brackets currentIndex with
  | None => Throw
  | Some currentBracket =>
      if BracketBlock.isOpening currentBracket
      then Ret (forwardLoop (skipn (S currentIndex) brackets) [currentBracket])
      else Ret (backwardLoop (rev (firstn currentIndex brackets)) [currentBracket])
  end.

(* ================================================================== *)
(** ** createBracketRange *)

(** [/(:{2,})([\w-]+)/] *)
Definition reRangeOpening : regex :=
  Seq (Grp 1 (Rep isColon 2)) (Grp 2 (Rep isWordOrHyphen 1)).

(** [/(:{2,})$/] *)
Definition reRangeClosing : regex :=
  Seq (Grp 1 (Rep isColon 2)) Eol.

Definition createBracketRange (document : TextDocument) (bracket : BracketBlock)
  : outcome Range :=
  let lineNumber := BracketBlock.line bracket in
  lineContent <- getLine document lineNumber ;;
  let fallback :=
    {| startLine := lineNumber; startColumn := 0;
       endLine := lineNumber; endColumn := len lineContent |} in
  if BracketBlock.isOpening bracket then
    match exec reRangeOpening lineContent with
    | Some m =>
        let startColumn := indexOf lineContent (whole m) in
        let endColumn := startColumn + len (whole m) in
        Ret {| startLine := lineNumber; startColumn := startColumn;
               endLine := lineNumber; endColumn := endColumn |}
    | None => Ret fallback
    end
  else
    match exec reRangeClosing lineContent with
    | Some m =>
        let startColumn := lastIndexOf lineContent (whole m) in
        let endColumn := startColumn + len (whole m) in
        Ret {| startLine := lineNumber; startColumn := startColumn;
               endLine := lineNumber; endColumn := endColumn |}
    | None => Ret fallback
    end.

(* ================================================================== *)
(** ** findMatchingBrackets *)

(** [brackets.findIndex(pred)], with [None] for -1. *)
Fixpoint findIndex {A} (pred : A -> bool) (l : list A) : option nat :=
  match l with
  | [] => None
  | x :: l' => if pred x then Some O else option_map S (findIndex pred l')
  end.

(** The body of the [try] block. *)
Definition findMatchingBracketsBody (document : TextDocument) (position : Position)
  : outcome (option BracketMatch) :=
  lineContent <- getLine document (line position) ;;
  match detectBracketAtPosition lineContent (column position) with
  | None => Ret None
  | Some _ =>
      brackets <- scanAllBrackets document ;;
      if (length brackets =? 0)%nat then Ret None
      else
        match findIndex (fun b => BracketBlock.line b =? line position) brackets with
        | None => Ret None
        | Some currentBracketIndex =>
            match nth_error brackets currentBracketIndex with
            | None => Throw
            | Some currentBracket =>
                matching <- findMatchingBracket brackets currentBracketIndex ;;
                match matching with
                | None => Ret None
                | Some matchingBracket =>
                    o <- createBracketRange document
                           (if BracketBlock.isOpening currentBracket
                            then currentBracket else matchingBracket) ;;
                    c <- createBracketRange document
                           (if BracketBlock.isOpening currentBracket
                            then matchingBracket else currentBracket) ;;
                    Ret (Some {| opening := o; closing := c;
                                 colonCount := BracketBlock.colonCount currentBracket |})
                end
            end
        end
  end.

(** The [catch] clause logs a warning and returns [null]. *)
Definition findMatchingBrackets (document : TextDocument) (position : Position)
  : outcome (option BracketMatch) :=
  tryCatch (findMatchingBracketsBody document position) (Ret None).

(* ================================================================== *)
(** ** Documents of the test suite *)

(** [createDocument] of the tests, from the lines of the content:
    [getLine] is [lines[lineNumber] || ''] and never throws. *)
Definition createDocument (lines : list jsstring) : TextDocument :=
  {| getLine := fun lineNumber =>
       Ret (if lineNumber <? 0 then []
            else nth (Z.to_nat lineNumber) lines []);
     lineCount := Z.of_nat (length lines) |}.

(* ================================================================== *)
(** ** Notions used to state the properties *)

(** The cursor of [position] is on a delimiter of its line, for the
    classifier. *)
Definition onDelimiter (document : TextDocument) (position : Position) : bool :=
  match getLine document (line position) with
  | Ret lineContent =>
      match detectBracketAtPosition lineContent (column position) with
      | Some _ => true
      | None => false
      end
  | Throw => false
  end.

(** What the [try] block does once the classifier has answered: it
    depends on the position through its line only. *)
Definition pairOfLine (document : TextDocument) (lineNumber : Z)
  : outcome (option BracketMatch) :=
  brackets <- scanAllBrackets document ;;
  if (length brackets =? 0)%nat then Ret None
  else
    match findIndex (fun b => BracketBlock.line b =? lineNumber) brackets with
    | None => Ret None
    | Some currentBracketIndex =>
        match nth_error brackets currentBracketIndex with
        | None => Throw
        | Some currentBracket =>
            matching <- findMatchingBracket brackets currentBracketIndex ;;
            match matching with
            | None => Ret None
            | Some matchingBracket =>
                o <- createBracketRange document
                       (if BracketBlock.isOpening currentBracket
                        then currentBracket else matchingBracket) ;;
                c <- createBracketRange document
                       (if BracketBlock.isOpening currentBracket
                        then matchingBracket else currentBracket) ;;
                Ret (Some {| opening := o; closing := c;
                             colonCount := BracketBlock.colonCount currentBracket |})
            end
        end
    end.

(** The number of colons that the text of a line starts with, once
    trimmed. *)
Definition colonRun (lineContent : jsstring) : Z :=
  len (takeWhile isColon (trim lineContent)).

(** The lines of the brackets increase with the index. *)
Definition ascending (brackets : list BracketBlock) : Prop :=
  forall i j a b, (i < j)%nat ->
    nth_error brackets i = Some a -> nth_error brackets j = Some b ->
    BracketBlock.line a < BracketBlock.line b.

(** What holds of the brackets that the scanner has pushed when it reaches
    the line [bound]: their lines increase and lie below [bound], and each
    one records the colon run of its line. *)
Definition scannedBelow (document : TextDocument) (bound : Z)
           (brackets : list BracketBlock) : Prop :=
  ascending brackets
  /\ Forall (fun b =>
              0 <= BracketBlock.line b < bound
              /\ 2 <= BracketBlock.colonCount b
              /\ exists lineContent,
                   getLine document (BracketBlock.line b) = Ret lineContent
                   /\ BracketBlock.colonCount b = colonRun lineContent)
            brackets.

(** Both loops of the matcher are the same search, which pushes the
    brackets of the role [pushed] and pops on the others. *)
Fixpoint searchLoop (pushed : bool) (rest stack : list BracketBlock) : option BracketBlock :=
  match rest with
  | [] => None
  | bracket :: rest' =>
      if Bool.eqb (BracketBlock.isOpening bracket) pushed
      then searchLoop pushed rest' (bracket :: stack)
      else
        match stack with
        | top :: stack' =>
            if BracketBlock.colonCount top =? BracketBlock.colonCount bracket
            then match stack' with
                 | [] => Some bracket
                 | _ :: _ => searchLoop pushed rest' stack'
                 end
            else searchLoop pushed rest' stack
        | [] => searchLoop pushed rest' stack
        end
  end.

(** The stack after the search has gone through [rest] without returning;
    [None] when it returns inside [rest]. *)
Fixpoint searchRun (pushed : bool) (rest stack : list BracketBlock)
  : option (list BracketBlock) :=
  match rest with
  | [] => Some stack
  | bracket :: rest' =>
      if Bool.eqb (BracketBlock.isOpening bracket) pushed
      then searchRun pushed rest' (bracket :: stack)
      else
        match stack with
        | top :: stack' =>
            if BracketBlock.colonCount top =? BracketBlock.colonCount bracket
            then match stack' with
                 | [] => None
                 | _ :: _ => searchRun pushed rest' stack'
                 end
            else searchRun pushed rest' stack
        | [] => searchRun pushed rest' stack
        end
  end.

(** Pushes minus pops, when every bracket that is not pushed pops. *)
Fixpoint balance (pushed : bool) (l : list BracketBlock) : Z :=
  match l with
  | [] => 0
  | b :: l' =>
      (if Bool.eqb (BracketBlock.isOpening b) pushed then 1 else -1)
      + balance pushed l'
  end.

(** A stretch of brackets is well nested when it is made of pairs, each an
    opening bracket and a later closing bracket of the same colon count,
    with a well-nested stretch between the two and a well-nested stretch
    after them. *)
Inductive wellNested : list BracketBlock -> Prop :=
| wellNested_nil : wellNested []
| wellNested_pair (a : BracketBlock) (inner : list BracketBlock)
                  (b : BracketBlock) (rest : list BracketBlock) :
    BracketBlock.isOpening a = true ->
    BracketBlock.isOpening b = false ->
    BracketBlock.colonCount a = BracketBlock.colonCount b ->
    wellNested inner -> wellNested rest ->
    wellNested (a :: inner ++ b :: rest).

(** The stretch [l] closes the opening brackets [pending], the first of
    them first, each by a closing bracket of its colon count, and is well
    nested between these closing brackets and after the last one. *)
Fixpoint closesStack (pending l : list BracketBlock) : Prop :=
  match pending with
  | [] => wellNested l
  | top :: pending' =>
      exists inner b rest,
        l = inner ++ b :: rest
        /\ wellNested inner
        /\ BracketBlock.isOpening b = false
        /\ BracketBlock.colonCount top = BracketBlock.colonCount b
        /\ closesStack pending' rest
  end.

(** The brackets of the scanner on the lines strictly between the two
    delimiters of a result. *)
Definition between (r : BracketMatch) (brackets : list BracketBlock)
  : list BracketBlock :=
  filter (fun b => (startLine (opening r) <? BracketBlock.line b)
                   && (BracketBlock.line b <? startLine (closing r)))
         brackets.

(** The documents of the scenarios. *)
Definition docNested : TextDocument :=
  createDocument (map js ["::outer"; "::inner"; "content"; "::"; "::"]%string).

Definition docFenced : TextDocument :=
  createDocument (map js ["::component"; "```"; "::fake"; "::"; "```"; "::"]%string).

Definition docMissingClosing : TextDocument :=
  createDocument (map js ["::outer"; "::inner"; "::"]%string).

Definition docStrayClosing : TextDocument :=
  createDocument (map js ["::component"; ":::"; "Content"; "::"]%string).

Definition docTrailingSpace : TextDocument :=
  createDocument (map js ["::component"; "Content"; "  ::  "]%string).

(** A document whose accessor throws for every line. *)
Definition docThrowing : TextDocument :=
  {| getLine := fun _ => Throw; lineCount := 1 |}.

(** The line is a marker of a code fence for the scanner. *)
Definition isFenceLine (lineContent : jsstring) : bool :=
  test reFence (trim lineContent).

(** The line [n] is inside a code block: the number of fence markers among
    the lines [0 .. n - 1] is odd. *)
Fixpoint insideFence (document : TextDocument) (n : nat) : bool :=
  match n with
  | O => false
  | S k =>
      xorb (insideFence document k)
           (match getLine document (Z.of_nat k) with
            | Ret lineContent => isFenceLine lineContent
            | Throw => false
            end)
  end.

(** The loop of the scanner over lines given as a list, the first of
    which has the number [lineNumber]. *)
Fixpoint scanLines (lineNumber : Z) (lines : list jsstring) (st : scanState)
  : scanState :=
  match lines with
  | [] => st
  | lineContent :: lines' =>
      scanLines (lineNumber + 1) lines' (scanLine lineNumber lineContent st)
  end.

(** The line is a delimiter for the scanner: its trimmed text matches the
    opening pattern or the closing pattern of [scanAllBrackets]. *)
Definition isDelimiterLine (lineContent : jsstring) : bool :=
  match exec reScanOpening (trim lineContent) with
  | Some _ => true
  | None =>
      match exec reScanClosing (trim lineContent) with
      | Some _ => true
      | None => false
      end
  end.

(** A line of text for the scanner: neither a fence marker nor a
    delimiter. *)
Definition isPlainLine (lineContent : jsstring) : Prop :=
  isFenceLine lineContent = false /\ isDelimiterLine lineContent = false.

(* ================================================================== *)
(** ** The editor side: [bracket-matcher.ts]

    The editor is known through the calls that [registerBracketMatcher]
    makes to it. Positions and ranges of the editor count lines and columns
    from 1. *)

Module Monaco.
Record Position : Type := { lineNumber : Z; column : Z }.

Record IRange : Type := {
  startLineNumber : Z;
  startColumn : Z;
  endLineNumber : Z;
  endColumn : Z
}.

Record IModelDecorationOptions : Type := {
  className : jsstring;
  inlineClassName : jsstring;
  stickiness : Z
}.

Record IModelDeltaDecoration : Type := {
  range : IRange;
  options : IModelDecorationOptions
}.

(** The two reading methods of a text model that the code calls. *)
Record ITextModel : Type := {
  getLineContent : Z -> outcome jsstring;
  getLineCount : Z
}.
End Monaco.

(** The options of the bracket matcher, once the defaults are filled in. *)
Record BracketMatcherOptions : Type := {
  className : jsstring;
  inlineClassName : jsstring;
  injectStyles : bool;
  maxLineCount : Z
}.

Definition DEFAULT_OPTIONS : BracketMatcherOptions :=
  {| className := js "mdc-bracket-match";
     inlineClassName := js "mdc-bracket-match-inline";
     injectStyles := true;
     maxLineCount := 5000 |}.

Definition createTextDocument (model : Monaco.ITextModel) : TextDocument :=
  {| getLine := fun lineNumber => Monaco.getLineContent model (lineNumber + 1);
     lineCount := Monaco.getLineCount model |}.

Definition createPosition (position : Monaco.Position) : Position :=
  {| line := Monaco.lineNumber position - 1;
     column := Monaco.column position - 1 |}.

(** What [updateBracketDecorations] does with the decorations of the
    editor: it returns before touching them (no model), it replaces them
    through [model.deltaDecorations(decorations, newDecorations)], or, in
    its [catch] clause, it clears them when there are any. *)
Inductive decorationUpdate : Type :=
| Untouched
| Replace (newDecorations : list Monaco.IModelDeltaDecoration)
| ClearIfAny.

(** The [try] block of [updateBracketDecorations] and its [catch] clause,
    for the model that [monacoEditor.getModel()] returns; the methods of the
    editor themselves are taken not to throw. *)
Definition updateBracketDecorations (opts : BracketMatcherOptions)
           (model : option Monaco.ITextModel) (position : Monaco.Position)
  : decorationUpdate :=
  match model with
  | None => Untouched
  | Some model =>
      if (maxLineCount opts >? 0) && (Monaco.getLineCount model >? maxLineCount opts)
      then Replace []
      else
        let document := createTextDocument model in
        let pos := createPosition position in
        match findMatchingBrackets document pos with
        | Throw => ClearIfAny
        | Ret None => Replace []
        | Ret (Some found) =>
            let decorationOptions :=
              {| Monaco.className := className opts;
                 Monaco.inlineClassName := inlineClassName opts;
                 Monaco.stickiness := 1 |} in
            Replace
              [ {| Monaco.range :=
                     {| Monaco.startLineNumber := startLine (opening found) + 1;
                        Monaco.startColumn := startColumn (opening found) + 1;
                        Monaco.endLineNumber := endLine (opening found) + 1;
                        Monaco.endColumn := endColumn (opening found) + 1 |};
                   Monaco.options := decorationOptions |};
                {| Monaco.range :=
                     {| Monaco.startLineNumber := startLine (closing found) + 1;
                        Monaco.startColumn := startColumn (closing found) + 1;
                        Monaco.endLineNumber := endLine (closing found) + 1;
                        Monaco.endColumn := endColumn (closing found) + 1 |};
                   Monaco.options := decorationOptions |} ]
        end
  end.

(* ================================================================== *)
(** * Properties *)

(** ** Lists and strings *)

Lemma takeWhile_app_stop {A} (p : A -> bool) (a b : list A) :
  Forall (fun x => p x = true) a ->
  match b with [] => True | x :: _ => p x = false end ->
  takeWhile p (a ++ b) = a.
Proof.
  intros Ha Hb. induction Ha as [|x a Hx Ha IH]; simpl.
  - destruct b as [|y b]; simpl; [reflexivity|]. now rewrite Hb.
  - rewrite Hx. now rewrite IH.
Qed.

Lemma takeWhile_length_le {A} (p : A -> bool) (l : list A) :
  (length (takeWhile p l) <= length l)%nat.
Proof.
  induction l as [|x l IH]; simpl; [lia|].
  destruct (p x); simpl; lia.
Qed.

Lemma takeWhile_Forall {A} (p : A -> bool) (l : list A) :
  Forall (fun x => p x = true) (takeWhile p l).
Proof.
  induction l as [|x l IH]; simpl; [constructor|].
  destruct (p x) eqn:E; [constructor; assumption|constructor].
Qed.

Lemma takeWhile_repeat_ge {A} (p : A -> bool) (c : A) (n : nat) (rest : list A) :
  p c = true -> (n <= length (takeWhile p (repeat c n ++ rest)))%nat.
Proof.
  intros Hc. induction n as [|n IH]; simpl; [lia|].
  rewrite Hc. simpl. lia.
Qed.

Lemma skipn_app_exact {A} (a b : list A) : skipn (length a) (a ++ b) = b.
Proof.
  induction a as [|x a IH]; simpl; [reflexivity|assumption].
Qed.

Lemma skipn_app_plus {A} (a b : list A) (n : nat) :
  skipn (length a + n) (a ++ b) = skipn n b.
Proof.
  induction a as [|x a IH]; simpl; [reflexivity|assumption].
Qed.

(** ** The matcher of regular expressions *)

Section TryDown.
Variable A : Type.
Variable k : nat -> option A.

Lemma tryDown_top (base min n : nat) (x : A) :
    (min <= n)%nat -> k (base + n)%nat = Some x ->
    tryDown A k base min n = Some x.
  Proof.
    intros Hle Hk. destruct n as [|n]; simpl.
    - destruct min; [|lia]. simpl. now rewrite Hk.
    - destruct (Nat.ltb_spec (S n) min) as [H|H]; [lia|]. now rewrite Hk.
  Qed.

Lemma tryDown_inv (base min n : nat) (x : A) :
    tryDown A k base min n = Some x ->
    exists j, (min <= j <= n)%nat /\ k (base + j)%nat = Some x.
  Proof.
    induction n as [|n IH]; simpl.
    - destruct (Nat.ltb_spec 0 min) as [H|H]; [discriminate|].
      destruct (k (base + 0)%nat) eqn:E; [|discriminate].
      intros [= <-]. exists 0%nat. split; [lia|assumption].
    - destruct (Nat.ltb_spec (S n) min) as [H|H]; [discriminate|].
      destruct (k (base + S n)%nat) eqn:E.
      + intros [= <-]. exists (S n). split; [lia|assumption].
      + intros Hrec. destruct (IH Hrec) as (j & Hj & Hkj).
        exists j. split; [lia|assumption].
  Qed.

Lemma tryDown_none (base min n : nat) :
    (forall j, (min <= j <= n)%nat -> k (base + j)%nat = None) ->
    tryDown A k base min n = None.
  Proof.
    intros Hall. destruct (tryDown A k base min n) eqn:E; [|reflexivity].
    destruct (tryDown_inv _ _ _ _ E) as (j & Hj & Hkj).
    rewrite (Hall j Hj) in Hkj. discriminate.
  Qed.
End TryDown.

Section RunRep.
Variable s : jsstring.
Variable A : Type.

  (** A repetition that can keep all the characters it took. *)
Lemma run_Rep_greedy cls min pos c (k : nat -> captures -> option A) x :
    (min <= length (takeWhile cls (skipn pos s)))%nat ->
    k (pos + length (takeWhile cls (skipn pos s)))%nat c = Some x ->
    run s A (Rep cls min) pos c k = Some x.
  Proof.
    intros Hmin Hk. cbn [run].
    now apply (tryDown_top A (fun e => k e c)).
  Qed.

Lemma run_Rep_inv cls min pos c (k : nat -> captures -> option A) x :
    run s A (Rep cls min) pos c k = Some x ->
    exists j, (min <= j <= length (takeWhile cls (skipn pos s)))%nat
              /\ k (pos + j)%nat c = Some x.
  Proof.
    cbn [run]. intros H.
    exact (tryDown_inv A (fun e => k e c) _ _ _ _ H).
  Qed.

Lemma run_Rep_none cls min pos c (k : nat -> captures -> option A) :
    (forall j, (min <= j <= length (takeWhile cls (skipn pos s)))%nat ->
               k (pos + j)%nat c = None) ->
    run s A (Rep cls min) pos c k = None.
  Proof.
    intros H. cbn [run].
    now apply (tryDown_none A (fun e => k e c)).
  Qed.

Lemma run_Alt r1 r2 pos c (k : nat -> captures -> option A) :
    run s A (Alt r1 r2) pos c k
    = match run s A r1 pos c k with
      | Some x => Some x
      | None => run s A r2 pos c k
      end.
  Proof. reflexivity. Qed.

Lemma run_Seq r1 r2 pos c (k : nat -> captures -> option A) :
    run s A (Seq r1 r2) pos c k
    = run s A r1 pos c (fun e c' => run s A r2 e c' k).
  Proof. reflexivity. Qed.

Lemma run_Grp i r pos c (k : nat -> captures -> option A) :
    run s A (Grp i r) pos c k
    = run s A r pos c (fun e c' => k e ((i, (pos, e)) :: c')).
  Proof. reflexivity. Qed.

Lemma run_Bol pos c (k : nat -> captures -> option A) :
    run s A Bol pos c k = if (pos =? 0)%nat then k pos c else None.
  Proof. reflexivity. Qed.

Lemma run_Eol pos c (k : nat -> captures -> option A) :
    run s A Eol pos c k = if (pos =? length s)%nat then k pos c else None.
  Proof. reflexivity. Qed.
End RunRep.

Lemma searchFrom_first (r : regex) (s : jsstring) (start fuel : nat) (x : matchResult) :
  matchAt r s start = Some x -> searchFrom r s start fuel = Some x.
Proof.
  intros H. destruct fuel; simpl; now rewrite H.
Qed.

Lemma exec_first (r : regex) (s : jsstring) (x : matchResult) :
  matchAt r s 0 = Some x -> exec r s = Some x.
Proof. apply searchFrom_first. Qed.

(** A pattern that starts with [^] matches at the position 0 or nowhere. *)
Lemma matchAt_Bol_later (r : regex) (s : jsstring) (start : nat) :
  matchAt (Seq Bol r) s (S start) = None.
Proof. reflexivity. Qed.

Lemma searchFrom_Bol_later (r : regex) (s : jsstring) (fuel start : nat) :
  searchFrom (Seq Bol r) s (S start) fuel = None.
Proof.
  revert start. induction fuel as [|fuel IH]; intros start; simpl.
  - reflexivity.
  - apply IH.
Qed.

Lemma exec_Bol (r : regex) (s : jsstring) :
  exec (Seq Bol r) s = matchAt (Seq Bol r) s 0.
Proof.
  unfold exec. destruct (length s) as [|fuel]; simpl.
  - now destruct (matchAt (Seq Bol r) s 0).
  - destruct (matchAt (Seq Bol r) s 0); [reflexivity|].
    apply searchFrom_Bol_later.
Qed.

(** ** The fence markers *)

Lemma fence_not_space (c : codeunit) :
  c = 96%N \/ c = 126%N -> isWhiteSpace c = false.
Proof. intros [-> | ->]; reflexivity. Qed.

Lemma test_reFence_run (c : codeunit) (n : nat) (rest : jsstring) :
  c = 96%N \/ c = 126%N -> (3 <= n)%nat ->
  test reFence (repeat c n ++ rest) = true.
Proof.
  intros Hc Hn. unfold test, reFence. rewrite exec_Bol.
  remember (repeat c n ++ rest) as s eqn:Es.
  assert (Hws : takeWhile isWhiteSpace s = []).
  { subst s. destruct n as [|n]; [lia|]. simpl.
    now rewrite (fence_not_space c Hc). }
  assert (Halt : exists x,
    run s matchResult (Alt (Rep isBacktick 3) (Rep isTilde 3)) 0 []
        (fun e c => Some (MatchResult s 0 e c)) = Some x).
  { rewrite run_Alt.
    destruct Hc as [-> | ->].
    - erewrite run_Rep_greedy; [eexists; reflexivity| |reflexivity].
      subst s. simpl skipn.
      pose proof (takeWhile_repeat_ge isBacktick 96%N n rest eq_refl). lia.
    - destruct (run s matchResult (Rep isBacktick 3) 0 [] _) as [x|];
        [eexists; reflexivity|].
      erewrite run_Rep_greedy; [eexists; reflexivity| |reflexivity].
      subst s. simpl skipn.
      pose proof (takeWhile_repeat_ge isTilde 126%N n rest eq_refl). lia. }
  destruct Halt as (x & Hx).
  unfold matchAt. rewrite run_Seq, run_Bol, run_Seq. cbn [Nat.eqb].
  erewrite run_Rep_greedy; [reflexivity|lia|].
  simpl skipn. rewrite Hws. simpl. exact Hx.
Qed.

(** C10. A line whose trimmed text begins with three or more backticks, or
    three or more tildes, whatever follows them on the line (a language tag
    for instance), makes the scanner flip [insideCodeBlock] and push no
    bracket for that line. *)
Theorem scanLine_fence_with_suffix
  (lineNumber : Z) (lineContent : jsstring)
  (brackets : list BracketBlock) (insideCodeBlock : bool)
  (c : codeunit) (n : nat) (rest : jsstring) :
  c = 96%N \/ c = 126%N -> (3 <= n)%nat ->
  trim lineContent = repeat c n ++ rest ->
  scanLine lineNumber lineContent (brackets, insideCodeBlock)
  = (brackets, negb insideCodeBlock).
Proof.
  intros Hc Hn Htrim. unfold scanLine. rewrite Htrim.
  now rewrite (test_reFence_run c n rest Hc Hn).
Qed.

(** The line [```js] inside a scan. *)
Lemma scanLine_fence_with_suffix_witness :
  (96%N = 96%N \/ 96%N = 126%N) /\ (3 <= 3)%nat
  /\ trim (js "  ```js") = repeat 96%N 3 ++ js "js"
  /\ scanLine 4 (js "  ```js") ([], false) = ([], negb false).
Proof.
  split; [left; reflexivity|]. split; [lia|]. split; [reflexivity|].
  apply (scanLine_fence_with_suffix 4 (js "  ```js") [] false 96%N 3 (js "js")).
  - left; reflexivity.
  - lia.
  - reflexivity.
Defined.

(** ** The character classes are disjoint *)

Ltac class_facts :=
  unfold isWhiteSpace, isWordOrHyphen, isColon, isBacktick, isTilde, inRange in *;
  repeat match goal with
         | H : _ = true |- _ =>
             first [ rewrite orb_true_iff in H | rewrite andb_true_iff in H
                   | rewrite N.leb_le in H | rewrite N.eqb_eq in H ]
         | H : _ \/ _ |- _ => destruct H
         | H : _ /\ _ |- _ => destruct H
         end.

Lemma isColon_eq (c : codeunit) : isColon c = true -> c = 58%N.
Proof. intros H. class_facts. assumption. Qed.

Lemma space_not_colon (c : codeunit) : isWhiteSpace c = true -> isColon c = false.
Proof.
  intros H. destruct (isColon c) eqn:E; [|reflexivity].
  apply isColon_eq in E. subst c. discriminate H.
Qed.

Lemma word_not_colon (c : codeunit) : isWordOrHyphen c = true -> isColon c = false.
Proof.
  intros H. destruct (isColon c) eqn:E; [|reflexivity].
  apply isColon_eq in E. subst c. discriminate H.
Qed.

Lemma word_not_space (c : codeunit) : isWordOrHyphen c = true -> isWhiteSpace c = false.
Proof.
  intros H. destruct (isWhiteSpace c) eqn:E; [|reflexivity].
  exfalso. class_facts; subst; lia.
Qed.

Lemma colon_not_space (c : codeunit) : isColon c = true -> isWhiteSpace c = false.
Proof. intros H. apply isColon_eq in H. now subst c. Qed.

Lemma colon_not_word (c : codeunit) : isColon c = true -> isWordOrHyphen c = false.
Proof. intros H. apply isColon_eq in H. now subst c. Qed.

Lemma Forall_colon_repeat (n : nat) :
  Forall (fun x => isColon x = true) (repeat 58%N n).
Proof. induction n; simpl; constructor; [reflexivity|assumption]. Qed.

(** ** Prefixes, [indexOf] and [lastIndexOf] *)

Lemma firstn_app_exact {A} (a b : list A) : firstn (length a) (a ++ b) = a.
Proof. induction a as [|x a IH]; simpl; [reflexivity|now rewrite IH]. Qed.

Lemma skipn_app_len {A} (n : nat) (a b : list A) :
  n = length a -> skipn n (a ++ b) = b.
Proof. intros ->. apply skipn_app_exact. Qed.

Lemma firstn_app_len {A} (n : nat) (a b : list A) :
  n = length a -> firstn n (a ++ b) = a.
Proof. intros ->. apply firstn_app_exact. Qed.

Lemma In_skipn {A} (x : A) (n : nat) (l : list A) : In x (skipn n l) -> In x l.
Proof.
  revert l. induction n as [|n IH]; intros l H; [exact H|].
  destruct l as [|y l]; [exact H|]. right. now apply IH.
Qed.

Lemma In_firstn {A} (x : A) (n : nat) (l : list A) : In x (firstn n l) -> In x l.
Proof.
  revert l. induction n as [|n IH]; intros l H; [contradiction|].
  destruct l as [|y l]; [exact H|].
  destruct H as [H|H]; [now left|right; now apply IH].
Qed.

Lemma isPrefix_app (pat b : jsstring) : isPrefix pat (pat ++ b) = true.
Proof.
  induction pat as [|p pat IH]; simpl; [reflexivity|].
  now rewrite N.eqb_refl, IH.
Qed.

Lemma indexOfFrom_skip (a pat b : jsstring) (c : codeunit) (pat' : jsstring) (i : Z) :
  pat = c :: pat' ->
  Forall (fun x => x <> c) a ->
  indexOfFrom (a ++ pat ++ b) pat i = i + len a.
Proof.
  intros Hpat Ha. revert i.
  induction Ha as [|x a Hx Ha IH]; intros i.
  - simpl app. unfold len. simpl length.
    destruct (pat ++ b) eqn:E; simpl;
      pose proof (isPrefix_app pat b) as Hp; rewrite E in Hp; rewrite Hp; lia.
  - simpl app. cbn [indexOfFrom].
    replace (isPrefix pat (x :: a ++ pat ++ b)) with false.
    + rewrite IH. unfold len. simpl length. lia.
    + subst pat. simpl. destruct (N.eqb_spec c x); [congruence|reflexivity].
Qed.

Lemma indexOf_skip (a pat b : jsstring) (c : codeunit) (pat' : jsstring) :
  pat = c :: pat' ->
  Forall (fun x => x <> c) a ->
  indexOf (a ++ pat ++ b) pat = len a.
Proof.
  intros Hpat Ha. unfold indexOf.
  rewrite (indexOfFrom_skip a pat b c pat' 0 Hpat Ha). lia.
Qed.

Lemma Forall_space_not_colon (ws : jsstring) :
  Forall (fun x => isWhiteSpace x = true) ws -> Forall (fun x => x <> 58%N) ws.
Proof.
  intros H. eapply Forall_impl; [|exact H].
  intros x Hx ->. discriminate Hx.
Qed.

(** ** The classifier on a line that starts with an opening delimiter *)

Section OpeningLine.
Variables (ws : jsstring) (n : nat) (name rest : jsstring).
Hypothesis Hws : Forall (fun x => isWhiteSpace x = true) ws.
Hypothesis Hn : (2 <= n)%nat.
Hypothesis Hname : name <> [].
Hypothesis Hword : Forall (fun x => isWordOrHyphen x = true) name.
Hypothesis Hrest : match rest with [] => True | x :: _ => isWordOrHyphen x = false end.

Let s : jsstring := ws ++ repeat 58%N n ++ name ++ rest.

Lemma opening_takeWhile_space : takeWhile isWhiteSpace s = ws.
  Proof.
    apply takeWhile_app_stop; [exact Hws|].
    destruct n as [|n']; [lia|]. reflexivity.
  Qed.

Lemma opening_takeWhile_colon :
    takeWhile isColon (repeat 58%N n ++ name ++ rest) = repeat 58%N n.
  Proof.
    apply takeWhile_app_stop; [apply Forall_colon_repeat|].
    destruct name as [|x name']; [congruence|]. simpl.
    apply word_not_colon. now inversion Hword.
  Qed.

Lemma opening_takeWhile_word : takeWhile isWordOrHyphen (name ++ rest) = name.
  Proof. now apply takeWhile_app_stop. Qed.

Lemma opening_skip_ws : skipn (length ws) s = repeat 58%N n ++ name ++ rest.
  Proof. apply skipn_app_exact. Qed.

Lemma opening_skip_colons : skipn (length ws + n) s = name ++ rest.
  Proof.
    unfold s. rewrite skipn_app_plus. apply skipn_app_len.
    now rewrite repeat_length.
  Qed.

Lemma exec_reCursorOpening_shape :
    exec reCursorOpening s
    = Some (MatchResult s 0 (length ws + n + length name)
              [(2, (length ws + n, length ws + n + length name));
               (1, (length ws, length ws + n))]%nat).
  Proof.
    unfold reCursorOpening. apply exec_first. unfold matchAt.
    rewrite run_Seq, run_Bol, run_Seq. cbn [Nat.eqb].
    apply run_Rep_greedy; [lia|].
    simpl skipn. rewrite opening_takeWhile_space. simpl Nat.add.
    rewrite run_Seq, run_Grp.
    apply run_Rep_greedy;
      rewrite opening_skip_ws, opening_takeWhile_colon, repeat_length; [exact Hn|].
    rewrite run_Grp.
    apply run_Rep_greedy;
      rewrite opening_skip_colons, opening_takeWhile_word.
    - destruct name; [congruence|simpl; lia].
    - reflexivity.
  Qed.

Lemma opening_group1 :
    substring s (length ws) (length ws + n) = repeat 58%N n.
  Proof.
    unfold substring. rewrite opening_skip_ws.
    replace (length ws + n - length ws)%nat with n by lia.
    apply firstn_app_len. now rewrite repeat_length.
  Qed.

Lemma opening_group2 :
    substring s (length ws + n) (length ws + n + length name) = name.
  Proof.
    unfold substring. rewrite opening_skip_colons.
    replace (length ws + n + length name - (length ws + n))%nat
      with (length name) by lia.
    apply firstn_app_exact.
  Qed.

Lemma opening_whole :
    substring s 0 (length ws + n + length name) = ws ++ repeat 58%N n ++ name.
  Proof.
    unfold substring, s. simpl skipn. rewrite Nat.sub_0_r.
    replace (ws ++ repeat 58%N n ++ name ++ rest)
      with ((ws ++ repeat 58%N n ++ name) ++ rest)
      by now rewrite <- !app_assoc.
    apply firstn_app_len. rewrite !length_app, repeat_length. now rewrite Nat.add_assoc.
  Qed.

Lemma opening_colonStart :
    indexOf (ws ++ repeat 58%N n ++ name) (repeat 58%N n) = len ws.
  Proof.
    destruct n as [|n'] eqn:En; [lia|].
    apply (indexOf_skip ws (repeat 58%N (S n')) name 58%N (repeat 58%N n')).
    - reflexivity.
    - now apply Forall_space_not_colon.
  Qed.

  (** The closing pattern of the classifier does not match such a line. *)
Lemma exec_reCursorClosing_opening_line : exec reCursorClosing s = None.
  Proof.
    unfold reCursorClosing. rewrite exec_Bol. unfold matchAt.
    rewrite run_Seq, run_Bol, run_Seq. cbn [Nat.eqb].
    apply run_Rep_none. simpl skipn. rewrite opening_takeWhile_space.
    intros j Hj. simpl Nat.add. rewrite run_Seq, run_Grp.
    apply run_Rep_none. intros j2 Hj2.
    assert (j = length ws /\ (j2 <= n)%nat) as [-> Hj2n].
    { destruct (Nat.eq_dec j (length ws)) as [->|Hne].
      - split; [reflexivity|].
        rewrite opening_skip_ws, opening_takeWhile_colon, repeat_length in Hj2. lia.
      - exfalso.
        assert (Hlt : (j < length ws)%nat) by lia.
        unfold s in Hj2. rewrite skipn_app in Hj2.
        destruct (skipn j ws) as [|x t] eqn:Esk.
        + apply (f_equal (@length _)) in Esk. rewrite length_skipn in Esk.
          simpl in Esk. lia.
        + assert (Hx : isWhiteSpace x = true).
          { assert (Hin : In x (skipn j ws)) by (rewrite Esk; now left).
            apply In_skipn in Hin. rewrite Forall_forall in Hws. now apply Hws. }
          simpl in Hj2. rewrite (space_not_colon x Hx) in Hj2. simpl in Hj2. lia. }
    rewrite run_Seq. apply run_Rep_none. intros j3 Hj3.
    rewrite run_Eol.
    assert (Hlen : (length ws + j2 + j3 < length s)%nat).
    { assert (j3 = 0%nat) as ->.
      { unfold s in Hj3. rewrite skipn_app_plus in Hj3.
        replace (repeat 58%N n) with (repeat 58%N j2 ++ repeat 58%N (n - j2)) in Hj3
          by (rewrite <- repeat_app; f_equal; lia).
        rewrite <- app_assoc in Hj3.
        rewrite skipn_app_len in Hj3 by now rewrite repeat_length.
        destruct (n - j2)%nat as [|d].
        - simpl in Hj3. destruct name as [|x name']; [congruence|].
          simpl in Hj3. inversion Hword as [|? ? Hx ?]; subst.
          rewrite (word_not_space x Hx) in Hj3. simpl in Hj3. lia.
        - simpl in Hj3. lia. }
      unfold s. rewrite !length_app, repeat_length.
      destruct name; [congruence|simpl; lia]. }
    destruct (Nat.eqb_spec (length ws + j2 + j3) (length s)); [lia|reflexivity].
  Qed.

  (** What the classifier answers on such a line. *)
Lemma detect_opening_line (column : Z) :
    detectBracketAtPosition s column
    = if (len ws <=? column) && (column <=? len ws + Z.of_nat n + len name)
      then Some (Z.of_nat n) else None.
  Proof.
    unfold detectBracketAtPosition.
    rewrite exec_reCursorOpening_shape, exec_reCursorClosing_opening_line.
    unfold group, whole. cbn [caps lookup Nat.eqb input index lastIndex].
    rewrite opening_group1, opening_group2, opening_whole, opening_colonStart.
    replace (len (repeat 58%N n)) with (Z.of_nat n)
      by (unfold len; now rewrite repeat_length).
    change (Z.of_nat 0) with 0. rewrite Z.add_0_l.
    rewrite Z.geb_leb.
    now destruct ((len ws <=? column) && (column <=? len ws + Z.of_nat n + len name)).
  Qed.
End OpeningLine.

(** C3, as the code has it. On a line made of white space [ws], [n >= 2]
    colons, a name of word characters and hyphens, and a rest that does not
    continue the name, the classifier answers the colon count exactly for
    the columns from the index of the first colon, [len ws], to the index
    just after the last character of the name, [len ws + n + len name],
    both included, and nothing for any other column. *)
Theorem detect_opening_span
  (ws : jsstring) (n : nat) (name rest : jsstring) (column : Z) :
  Forall (fun x => isWhiteSpace x = true) ws ->
  (2 <= n)%nat ->
  name <> [] ->
  Forall (fun x => isWordOrHyphen x = true) name ->
  match rest with [] => True | x :: _ => isWordOrHyphen x = false end ->
  let lineContent := ws ++ repeat 58%N n ++ name ++ rest in
  let firstColon := len ws in
  let afterName := len ws + Z.of_nat n + len name in
  (firstColon <= column <= afterName ->
   detectBracketAtPosition lineContent column = Some (Z.of_nat n))
  /\ (column < firstColon \/ afterName < column ->
      detectBracketAtPosition lineContent column = None).
Proof.
  intros Hws Hn Hname Hword Hrest lineContent firstColon afterName.
  unfold lineContent, firstColon, afterName.
  rewrite (detect_opening_line ws n name rest Hws Hn Hname Hword Hrest column).
  split; intros H.
  - destruct (Z.leb_spec (len ws) column); [|lia].
    destruct (Z.leb_spec column (len ws + Z.of_nat n + len name)); [|lia].
    reflexivity.
  - destruct (Z.leb_spec (len ws) column); [|reflexivity].
    destruct (Z.leb_spec column (len ws + Z.of_nat n + len name)); [lia|].
    reflexivity.
Qed.

(** The line [  ::card{}], at the column just after the name and at the
    next one. *)
Lemma detect_opening_span_witness :
  Forall (fun x => isWhiteSpace x = true) (js "  ")
  /\ (2 <= 2)%nat
  /\ js "card" <> []
  /\ Forall (fun x => isWordOrHyphen x = true) (js "card")
  /\ isWordOrHyphen 123%N = false
  /\ detectBracketAtPosition (js "  ::card{}") 8 = Some 2
  /\ detectBracketAtPosition (js "  ::card{}") 9 = None.
Proof.
  assert (Hws : Forall (fun x => isWhiteSpace x = true) (js "  "))
    by (repeat constructor).
  assert (Hword : Forall (fun x => isWordOrHyphen x = true) (js "card"))
    by (repeat constructor).
  assert (Hname : js "card" <> []) by discriminate.
  split; [exact Hws|]. split; [lia|]. split; [exact Hname|].
  split; [exact Hword|]. split; [reflexivity|].
  destruct (detect_opening_span (js "  ") 2 (js "card") (js "{}") 8
              Hws (le_n 2) Hname Hword eq_refl) as [Hin _].
  destruct (detect_opening_span (js "  ") 2 (js "card") (js "{}") 9
              Hws (le_n 2) Hname Hword eq_refl) as [_ Hout].
  split.
  - apply Hin. vm_compute. split; discriminate.
  - apply Hout. right. vm_compute. reflexivity.
Defined.

(** C3, as the specification states it, fails on the line [::component]:
    the last character of the name has the index 10, and the classifier
    still answers at the column 11. *)
Lemma detect_opening_after_name_counterexample :
  js "::component" = [] ++ repeat 58%N 2 ++ js "component" ++ []
  /\ len [] + 2 + len (js "component") - 1 = 10
  /\ ~ (0 <= 11 <= 10)
  /\ detectBracketAtPosition (js "::component") 11 = Some 2.
Proof.
  split; [reflexivity|]. split; [reflexivity|]. split; [lia|].
  vm_compute. reflexivity.
Qed.

(* ================================================================== *)
(** ** The entry point *)

Lemma body_gate (document : TextDocument) (position : Position) :
  findMatchingBracketsBody document position
  = (lineContent <- getLine document (line position) ;;
     match detectBracketAtPosition lineContent (column position) with
     | None => Ret None
     | Some _ => pairOfLine document (line position)
     end).
Proof. reflexivity. Qed.

Lemma fmb_onDelimiter (document : TextDocument) (position : Position) :
  onDelimiter document position = true ->
  findMatchingBrackets document position
  = tryCatch (pairOfLine document (line position)) (Ret None).
Proof.
  unfold onDelimiter, findMatchingBrackets. rewrite body_gate.
  destruct (getLine document (line position)) as [lc|]; [|discriminate].
  simpl. destruct (detectBracketAtPosition lc (column position)); [|discriminate].
  reflexivity.
Qed.

Lemma fmb_not_onDelimiter (document : TextDocument) (position : Position) :
  onDelimiter document position = false ->
  findMatchingBrackets document position = Ret None.
Proof.
  unfold onDelimiter, findMatchingBrackets. rewrite body_gate.
  destruct (getLine document (line position)) as [lc|]; [|reflexivity].
  simpl. destruct (detectBracketAtPosition lc (column position)); [discriminate|].
  reflexivity.
Qed.

(** ** The scenarios *)

(** C4. In the document [::outer / ::inner / content / :: / ::], a cursor
    on the delimiter of the line 1 gives the pair of the lines 1 and 3, and
    a cursor on the delimiter of the line 0 gives the pair of the lines 0
    and 4. *)
Theorem nested_scenario (c : Z) :
  (onDelimiter docNested {| line := 1; column := c |} = true ->
   exists m, findMatchingBrackets docNested {| line := 1; column := c |} = Ret (Some m)
             /\ startLine (opening m) = 1 /\ startLine (closing m) = 3)
  /\ (onDelimiter docNested {| line := 0; column := c |} = true ->
      exists m, findMatchingBrackets docNested {| line := 0; column := c |} = Ret (Some m)
                /\ startLine (opening m) = 0 /\ startLine (closing m) = 4).
Proof.
  split; intros H; rewrite (fmb_onDelimiter _ _ H); cbn [line];
    eexists; (split; [vm_compute; reflexivity|split; reflexivity]).
Qed.

Lemma nested_scenario_witness :
  onDelimiter docNested {| line := 1; column := 3 |} = true
  /\ onDelimiter docNested {| line := 0; column := 3 |} = true
  /\ (exists m, findMatchingBrackets docNested {| line := 1; column := 3 |} = Ret (Some m)
                /\ startLine (opening m) = 1 /\ startLine (closing m) = 3)
  /\ (exists m, findMatchingBrackets docNested {| line := 0; column := 3 |} = Ret (Some m)
                /\ startLine (opening m) = 0 /\ startLine (closing m) = 4).
Proof.
  split; [reflexivity|]. split; [reflexivity|].
  destruct (nested_scenario 3) as [H1 H0].
  split; [apply H1; reflexivity|apply H0; reflexivity].
Defined.

(** C5. In the document [::component / ``` / ::fake / :: / ``` / ::], a
    cursor on the delimiter of the line 0 gives the pair of the lines 0 and
    5; the scanner produces the brackets of the lines 0 and 5 only, the
    lines 2 and 3 being inside the fence. *)
Theorem fenced_scenario (c : Z) :
  scanAllBrackets docFenced
  = Ret [BracketBlock.mk 0 2 true (Some (js "component"));
         BracketBlock.mk 5 2 false None]
  /\ (onDelimiter docFenced {| line := 0; column := c |} = true ->
      exists m, findMatchingBrackets docFenced {| line := 0; column := c |} = Ret (Some m)
                /\ startLine (opening m) = 0 /\ startLine (closing m) = 5).
Proof.
  split; [vm_compute; reflexivity|].
  intros H; rewrite (fmb_onDelimiter _ _ H); cbn [line].
  eexists; (split; [vm_compute; reflexivity|split; reflexivity]).
Qed.

Lemma fenced_scenario_witness :
  onDelimiter docFenced {| line := 0; column := 11 |} = true
  /\ exists m, findMatchingBrackets docFenced {| line := 0; column := 11 |} = Ret (Some m)
               /\ startLine (opening m) = 0 /\ startLine (closing m) = 5.
Proof.
  split; [reflexivity|].
  destruct (fenced_scenario 11) as [_ H]. apply H. reflexivity.
Defined.

(** C6. In the document [::outer / ::inner / ::], no cursor of the line 0
    gives a pair, although the column 0 is on the delimiter: the only
    closing delimiter is the partner of [::inner], from either end. *)
Theorem missing_closing_scenario (c : Z) :
  onDelimiter docMissingClosing {| line := 0; column := 0 |} = true
  /\ findMatchingBrackets docMissingClosing {| line := 0; column := c |} = Ret None
  /\ (exists m, findMatchingBrackets docMissingClosing {| line := 1; column := 0 |}
                = Ret (Some m)
                /\ startLine (opening m) = 1 /\ startLine (closing m) = 2)
  /\ (exists m, findMatchingBrackets docMissingClosing {| line := 2; column := 0 |}
                = Ret (Some m)
                /\ startLine (opening m) = 1 /\ startLine (closing m) = 2).
Proof.
  split; [reflexivity|]. split.
  - destruct (onDelimiter docMissingClosing {| line := 0; column := c |}) eqn:H.
    + rewrite (fmb_onDelimiter _ _ H). vm_compute. reflexivity.
    + now apply fmb_not_onDelimiter.
  - split; eexists; (split; [vm_compute; reflexivity|split; reflexivity]).
Qed.

(** ** Faults of the document accessor *)

Lemma scanLoop_throw (document : TextDocument) (n : Z) :
  getLine document n = Throw ->
  forall (count : nat) (lineNumber : Z) (st : scanState),
    lineNumber <= n < lineNumber + Z.of_nat count ->
    scanLoop document count lineNumber st = Throw.
Proof.
  intros Hn. induction count as [|count IH]; intros lineNumber st Hr.
  - lia.
  - cbn [scanLoop].
    destruct (Z.eq_dec lineNumber n) as [->|Hne].
    + now rewrite Hn.
    + destruct (getLine document lineNumber); [|reflexivity].
      simpl. apply IH. lia.
Qed.

Lemma scanAllBrackets_throw (document : TextDocument) (n : Z) :
  0 <= n < lineCount document ->
  getLine document n = Throw ->
  scanAllBrackets document = Throw.
Proof.
  intros Hr Hn. unfold scanAllBrackets.
  rewrite (scanLoop_throw document n Hn); [reflexivity|lia].
Qed.

(** C9. When the body of [findMatchingBrackets] throws, and in particular
    when the accessor throws for the line of the cursor or for a line of the
    document, [findMatchingBrackets] returns [null]: it does not throw. *)
Theorem fault_gives_none (document : TextDocument) (position : Position) :
  findMatchingBracketsBody document position = Throw
  \/ getLine document (line position) = Throw
  \/ (exists n, 0 <= n < lineCount document /\ getLine document n = Throw) ->
  findMatchingBrackets document position = Ret None.
Proof.
  unfold findMatchingBrackets. intros [H | [H | (n & Hr & Hn)]].
  - now rewrite H.
  - rewrite body_gate, H. reflexivity.
  - rewrite body_gate.
    destruct (getLine document (line position)) as [lc|]; [|reflexivity].
    simpl. destruct (detectBracketAtPosition lc (column position)); [|reflexivity].
    unfold pairOfLine. now rewrite (scanAllBrackets_throw document n Hr Hn).
Qed.

(** The document of the test suite whose accessor always throws. *)
Lemma fault_gives_none_witness :
  (findMatchingBracketsBody docThrowing {| line := 0; column := 0 |} = Throw
   \/ getLine docThrowing 0 = Throw
   \/ (exists n, 0 <= n < lineCount docThrowing /\ getLine docThrowing n = Throw))
  /\ findMatchingBrackets docThrowing {| line := 0; column := 0 |} = Ret None.
Proof.
  assert (H : findMatchingBracketsBody docThrowing {| line := 0; column := 0 |} = Throw
              \/ getLine docThrowing (line {| line := 0; column := 0 |}) = Throw
              \/ (exists n, 0 <= n < lineCount docThrowing
                            /\ getLine docThrowing n = Throw)).
  { right. left. reflexivity. }
  split; [exact H|].
  exact (fault_gives_none docThrowing {| line := 0; column := 0 |} H).
Defined.

(** ** The range of a closing delimiter followed by white space *)

(** C2 fails in the code. The line [  ::  ] gives a closing bracket to the
    scanner, and the range builder, whose pattern wants the colons at the
    very end of the line, falls back to the whole line, columns 0 to 6,
    where the colons are at the columns 2 to 4. *)
Theorem closing_range_trailing_space :
  scanAllBrackets docTrailingSpace
  = Ret [BracketBlock.mk 0 2 true (Some (js "component"));
         BracketBlock.mk 2 2 false None]
  /\ getLine docTrailingSpace 2 = Ret (js "  ::  ")
  /\ createBracketRange docTrailingSpace (BracketBlock.mk 2 2 false None)
     = Ret {| startLine := 2; startColumn := 0; endLine := 2; endColumn := 6 |}
  /\ findMatchingBrackets docTrailingSpace {| line := 2; column := 2 |}
     = Ret (Some {| opening := {| startLine := 0; startColumn := 0;
                                  endLine := 0; endColumn := 11 |};
                    closing := {| startLine := 2; startColumn := 0;
                                  endLine := 2; endColumn := 6 |};
                    colonCount := 2 |}).
Proof.
  repeat split; vm_compute; reflexivity.
Qed.

(** ** The patterns of the scanner *)

Lemma skipn_takeWhile_head {A} (p : A -> bool) (l : list A) (j : nat) :
  (j < length (takeWhile p l))%nat ->
  exists x t, skipn j l = x :: t /\ p x = true.
Proof.
  revert j. induction l as [|y l IH]; intros j Hj; simpl in Hj; [lia|].
  destruct (p y) eqn:Ey; simpl in Hj; [|lia].
  destruct j as [|j].
  - exists y, l. now split.
  - simpl. apply IH. lia.
Qed.

Lemma substring_prefix_length (s : jsstring) (j : nat) :
  (j <= length s)%nat -> length (substring s 0 j) = j.
Proof.
  intros H. unfold substring. simpl skipn. rewrite Nat.sub_0_r.
  rewrite length_firstn. lia.
Qed.

(** The first group of the opening pattern of the scanner is the whole
    colon run at the start of the text. *)
Lemma exec_reScanOpening_inv (s : jsstring) (m : matchResult) :
  exec reScanOpening s = Some m ->
  len (group m 1) = len (takeWhile isColon s) /\ 2 <= len (group m 1).
Proof.
  unfold reScanOpening. rewrite exec_Bol. unfold matchAt.
  rewrite run_Seq, run_Bol, run_Seq, run_Grp. cbn [Nat.eqb].
  intros H. apply run_Rep_inv in H. destruct H as (j & Hj & H).
  rewrite run_Grp in H. apply run_Rep_inv in H. destruct H as (j2 & Hj2 & H).
  injection H as <-. simpl skipn in Hj. simpl Nat.add in Hj2.
  assert (Hjeq : j = length (takeWhile isColon s)).
  { destruct (Nat.eq_dec j (length (takeWhile isColon s))) as [|Hne]; [assumption|].
    exfalso.
    destruct (skipn_takeWhile_head isColon s j) as (x & t & Hsk & Hx); [lia|].
    rewrite Hsk in Hj2. simpl in Hj2.
    rewrite (colon_not_word x Hx) in Hj2. simpl in Hj2. lia. }
  unfold group. cbn [caps lookup Nat.eqb input]. unfold len.
  pose proof (takeWhile_length_le isColon s) as Hle.
  rewrite substring_prefix_length by lia.
  split; [now rewrite Hjeq|lia].
Qed.

(** The first group of the closing pattern of the scanner is the whole
    text. *)
Lemma exec_reScanClosing_inv (s : jsstring) (m : matchResult) :
  exec reScanClosing s = Some m ->
  len (group m 1) = len (takeWhile isColon s) /\ 2 <= len (group m 1).
Proof.
  unfold reScanClosing. rewrite exec_Bol. unfold matchAt.
  rewrite run_Seq, run_Bol, run_Seq, run_Grp. cbn [Nat.eqb].
  intros H. apply run_Rep_inv in H. destruct H as (j & Hj & H).
  rewrite run_Eol in H. simpl skipn in Hj. simpl Nat.add in H.
  destruct (Nat.eqb_spec j (length s)) as [Hjs|]; [|discriminate].
  injection H as <-.
  pose proof (takeWhile_length_le isColon s) as Hle.
  unfold group. cbn [caps lookup Nat.eqb input]. unfold len.
  rewrite substring_prefix_length by lia.
  split; lia.
Qed.

(** ** The brackets of the scanner *)

(** A line leaves the brackets as they are or adds one bracket, of that
    line, which records the colon run of the line. *)
Lemma scanLine_brackets (lineNumber : Z) (lineContent : jsstring) (st : scanState) :
  fst (scanLine lineNumber lineContent st) = fst st
  \/ exists b,
       fst (scanLine lineNumber lineContent st) = fst st ++ [b]
       /\ BracketBlock.line b = lineNumber
       /\ BracketBlock.colonCount b = colonRun lineContent
       /\ 2 <= BracketBlock.colonCount b.
Proof.
  destruct st as [brackets inside]. unfold scanLine.
  destruct (test reFence (trim lineContent)); [now left|].
  destruct inside; [now left|].
  destruct (exec reScanOpening (trim lineContent)) as [m|] eqn:Eo.
  - right. destruct (exec_reScanOpening_inv _ _ Eo) as [H1 H2].
    eexists. split; [reflexivity|]. cbn. unfold colonRun. now repeat split.
  - destruct (exec reScanClosing (trim lineContent)) as [m|] eqn:Ec; [|now left].
    right. destruct (exec_reScanClosing_inv _ _ Ec) as [H1 H2].
    eexists. split; [reflexivity|]. cbn. unfold colonRun. now repeat split.
Qed.

Lemma ascending_snoc (l : list BracketBlock) (b : BracketBlock) :
  ascending l ->
  Forall (fun a => BracketBlock.line a < BracketBlock.line b) l ->
  ascending (l ++ [b]).
Proof.
  intros Hl Hb i j x y Hij Hi Hj.
  destruct (Nat.lt_ge_cases j (length l)) as [Hjl|Hjl].
  - rewrite nth_error_app1 in Hi by lia. rewrite nth_error_app1 in Hj by lia.
    exact (Hl i j x y Hij Hi Hj).
  - rewrite nth_error_app2 in Hj by lia.
    destruct (j - length l)%nat as [|d] eqn:Ed.
    + simpl in Hj. injection Hj as <-.
      rewrite nth_error_app1 in Hi by lia.
      rewrite Forall_forall in Hb. apply Hb. eapply nth_error_In; eassumption.
    + simpl in Hj. destruct d; discriminate.
Qed.

Lemma scannedBelow_step (document : TextDocument) (lineNumber : Z)
      (lineContent : jsstring) (st : scanState) :
  0 <= lineNumber ->
  getLine document lineNumber = Ret lineContent ->
  scannedBelow document lineNumber (fst st) ->
  scannedBelow document (lineNumber + 1) (fst (scanLine lineNumber lineContent st)).
Proof.
  intros Hpos Hget [Hasc Hall].
  assert (Hall' : Forall (fun b =>
              0 <= BracketBlock.line b < lineNumber + 1
              /\ 2 <= BracketBlock.colonCount b
              /\ exists lc, getLine document (BracketBlock.line b) = Ret lc
                            /\ BracketBlock.colonCount b = colonRun lc) (fst st)).
  { eapply Forall_impl; [|exact Hall]. intros b (Hl & Hc & Hs).
    split; [lia|]. now split. }
  destruct (scanLine_brackets lineNumber lineContent st)
    as [-> | (b & -> & Hline & Hcount & Htwo)].
  - now split.
  - split.
    + apply ascending_snoc; [assumption|].
      eapply Forall_impl; [|exact Hall]. intros a (Hl & _). lia.
    + apply Forall_app. split; [assumption|].
      constructor; [|constructor].
      split; [lia|]. split; [assumption|].
      exists lineContent. rewrite Hline. now split.
Qed.

Lemma scanLoop_scannedBelow (document : TextDocument) (count : nat) :
  forall (lineNumber : Z) (st st' : scanState),
    0 <= lineNumber ->
    scanLoop document count lineNumber st = Ret st' ->
    scannedBelow document lineNumber (fst st) ->
    scannedBelow document (lineNumber + Z.of_nat count) (fst st').
Proof.
  induction count as [|count IH]; intros lineNumber st st' Hpos Hrun Hinv.
  - injection Hrun as <-. now rewrite Z.add_0_r.
  - cbn [scanLoop] in Hrun.
    destruct (getLine document lineNumber) as [lc|] eqn:Hget; [|discriminate].
    simpl in Hrun.
    replace (lineNumber + Z.of_nat (S count))
      with ((lineNumber + 1) + Z.of_nat count) by lia.
    apply (IH (lineNumber + 1) (scanLine lineNumber lc st) st'); [lia|assumption|].
    now apply scannedBelow_step.
Qed.

Lemma scanAllBrackets_scanned (document : TextDocument) (brackets : list BracketBlock) :
  scanAllBrackets document = Ret brackets ->
  scannedBelow document (Z.of_nat (Z.to_nat (lineCount document))) brackets.
Proof.
  unfold scanAllBrackets. intros H.
  destruct (scanLoop document (Z.to_nat (lineCount document)) 0 ([], false))
    as [st|] eqn:Hrun; [|discriminate].
  simpl in H. injection H as <-.
  apply (scanLoop_scannedBelow document _ 0 ([], false) st); [lia|assumption|].
  split.
  - intros i j a b _ Hi. destruct i; discriminate.
  - constructor.
Qed.

(** ** The matcher *)

Lemma forwardLoop_search (rest stack : list BracketBlock) :
  forwardLoop rest stack = searchLoop true rest stack.
Proof.
  revert stack. induction rest as [|b rest IH]; intros stack; simpl; [reflexivity|].
  destruct (BracketBlock.isOpening b); simpl; [apply IH|].
  destruct stack as [|top stack']; [apply IH|].
  destruct (BracketBlock.colonCount top =? BracketBlock.colonCount b); [|apply IH].
  destruct stack'; [reflexivity|apply IH].
Qed.

Lemma backwardLoop_search (rest stack : list BracketBlock) :
  backwardLoop rest stack = searchLoop false rest stack.
Proof.
  revert stack. induction rest as [|b rest IH]; intros stack; simpl; [reflexivity|].
  destruct (BracketBlock.isOpening b); simpl; [|apply IH].
  destruct stack as [|top stack']; [apply IH|].
  destruct (BracketBlock.colonCount top =? BracketBlock.colonCount b); [|apply IH].
  destruct stack'; [reflexivity|apply IH].
Qed.

Lemma last_cons_nonempty {A} (x : A) (l : list A) (d : A) :
  l <> [] -> last (x :: l) d = last l d.
Proof. destruct l; [congruence|reflexivity]. Qed.

(** The bracket that the search returns is one of those it went through,
    has the other role, and has the colon count of the bottom of the
    stack. *)
Lemma searchLoop_result (pushed : bool) (rest : list BracketBlock) :
  forall (stack : list BracketBlock) (m d : BracketBlock),
    stack <> [] ->
    searchLoop pushed rest stack = Some m ->
    In m rest
    /\ BracketBlock.isOpening m = negb pushed
    /\ BracketBlock.colonCount m = BracketBlock.colonCount (last stack d).
Proof.
  induction rest as [|b rest IH]; intros stack m d Hne H; simpl in H; [discriminate|].
  destruct (Bool.eqb (BracketBlock.isOpening b) pushed) eqn:Erole.
  - destruct (IH (b :: stack) m d) as (Hin & Hrole & Hcount); [discriminate|assumption|].
    rewrite last_cons_nonempty in Hcount by assumption.
    split; [now right|]. now split.
  - destruct stack as [|top stack']; [congruence|].
    destruct (Z.eqb_spec (BracketBlock.colonCount top) (BracketBlock.colonCount b))
      as [Heq|Hneq].
    + destruct stack' as [|top' stack''].
      * injection H as <-. split; [now left|]. split.
        -- apply eqb_false_iff in Erole.
           destruct (BracketBlock.isOpening b), pushed; simpl; congruence.
        -- simpl. congruence.
      * destruct (IH (top' :: stack'') m d) as (Hin & Hrole & Hcount);
          [discriminate|assumption|].
        split; [now right|]. split; [assumption|].
        rewrite Hcount. reflexivity.
    + destruct (IH (top :: stack') m d) as (Hin & Hrole & Hcount);
        [discriminate|assumption|].
      split; [now right|]. now split.
Qed.

Lemma In_skipn_index {A} (x : A) (n : nat) (l : list A) :
  In x (skipn n l) -> exists j, (n <= j)%nat /\ nth_error l j = Some x.
Proof.
  revert l. induction n as [|n IH]; intros l H.
  - apply In_nth_error in H. destruct H as (j & Hj). exists j. split; [lia|assumption].
  - destruct l as [|y l]; [contradiction|]. simpl in H.
    destruct (IH l H) as (j & Hj & Hnth). exists (S j). split; [lia|assumption].
Qed.

Lemma In_firstn_index {A} (x : A) (n : nat) (l : list A) :
  In x (firstn n l) -> exists j, (j < n)%nat /\ nth_error l j = Some x.
Proof.
  revert l. induction n as [|n IH]; intros l H; [contradiction|].
  destruct l as [|y l]; [contradiction|]. simpl in H. destruct H as [->|H].
  - exists 0%nat. split; [lia|reflexivity].
  - destruct (IH l H) as (j & Hj & Hnth). exists (S j). split; [lia|assumption].
Qed.

(** What [findMatchingBracket] returns, by the role of the current
    bracket. *)
Lemma findMatchingBracket_result (brackets : list BracketBlock) (i : nat)
      (cur m : BracketBlock) :
  nth_error brackets i = Some cur ->
  findMatchingBracket brackets i = Ret (Some m) ->
  BracketBlock.colonCount m = BracketBlock.colonCount cur
  /\ BracketBlock.isOpening m = negb (BracketBlock.isOpening cur)
  /\ exists j, nth_error brackets j = Some m
               /\ if BracketBlock.isOpening cur then (i < j)%nat else (j < i)%nat.
Proof.
  intros Hcur. unfold findMatchingBracket. rewrite Hcur.
  destruct (BracketBlock.isOpening cur) eqn:Erole; intros H; injection H as H.
  - rewrite forwardLoop_search in H.
    destruct (searchLoop_result true _ [cur] m cur ltac:(discriminate) H)
      as (Hin & Hrole & Hcount).
    split; [exact Hcount|]. split; [exact Hrole|].
    destruct (In_skipn_index m (S i) brackets Hin) as (j & Hj & Hnth).
    exists j. split; [assumption|lia].
  - rewrite backwardLoop_search in H.
    destruct (searchLoop_result false _ [cur] m cur ltac:(discriminate) H)
      as (Hin & Hrole & Hcount).
    split; [exact Hcount|]. split; [exact Hrole|].
    apply in_rev in Hin.
    destruct (In_firstn_index _ _ _ Hin) as (j & Hj & Hnth).
    exists j. split; assumption.
Qed.

(** ** The parts of a result *)

Lemma findIndex_some {A} (pred : A -> bool) (l : list A) (i : nat) :
  findIndex pred l = Some i ->
  exists x, nth_error l i = Some x /\ pred x = true.
Proof.
  revert i. induction l as [|y l IH]; intros i H; simpl in H; [discriminate|].
  destruct (pred y) eqn:Ey.
  - injection H as <-. exists y. now split.
  - destruct (findIndex pred l) as [k|]; [|discriminate].
    injection H as <-. destruct (IH k eq_refl) as (x & Hx & Hp).
    exists x. now split.
Qed.

Lemma createBracketRange_startLine (document : TextDocument) (b : BracketBlock) (r : Range) :
  createBracketRange document b = Ret r -> startLine r = BracketBlock.line b.
Proof.
  unfold createBracketRange.
  destruct (getLine document (BracketBlock.line b)) as [lc|]; [|discriminate].
  simpl.
  destruct (BracketBlock.isOpening b).
  - destruct (exec reRangeOpening lc); intros H; injection H as <-; reflexivity.
  - destruct (exec reRangeClosing lc); intros H; injection H as <-; reflexivity.
Qed.

(** The brackets and the ranges behind a pair that [pairOfLine] returns. *)
Lemma pairOfLine_some (document : TextDocument) (lineNumber : Z) (r : BracketMatch) :
  pairOfLine document lineNumber = Ret (Some r) <->
  exists brackets i cur m,
    scanAllBrackets document = Ret brackets
    /\ findIndex (fun b => BracketBlock.line b =? lineNumber) brackets = Some i
    /\ nth_error brackets i = Some cur
    /\ findMatchingBracket brackets i = Ret (Some m)
    /\ createBracketRange document (if BracketBlock.isOpening cur then cur else m)
       = Ret (opening r)
    /\ createBracketRange document (if BracketBlock.isOpening cur then m else cur)
       = Ret (closing r)
    /\ colonCount r = BracketBlock.colonCount cur.
Proof.
  unfold pairOfLine. split.
  - destruct (scanAllBrackets document) as [brackets|]; [|discriminate].
    simpl. destruct (length brackets =? 0)%nat; [discriminate|].
    destruct (findIndex (fun b => BracketBlock.line b =? lineNumber) brackets)
      as [i|] eqn:Ei; [|discriminate].
    destruct (nth_error brackets i) as [cur|] eqn:Ecur; [|discriminate].
    destruct (findMatchingBracket brackets i) as [[m|]|] eqn:Em; try discriminate.
    simpl.
    destruct (createBracketRange document
                (if BracketBlock.isOpening cur then cur else m)) as [o|] eqn:Eo;
      [|discriminate].
    simpl.
    destruct (createBracketRange document
                (if BracketBlock.isOpening cur then m else cur)) as [c|] eqn:Ec;
      [|discriminate].
    simpl. intros H. injection H as <-.
    exists brackets, i, cur, m. simpl. now repeat split.
  - intros (brackets & i & cur & m & Hscan & Hi & Hcur & Hm & Ho & Hc & Hn).
    rewrite Hscan. simpl.
    destruct brackets as [|b0 brackets']; [destruct i; discriminate|].
    cbn [length Nat.eqb]. rewrite Hi, Hcur, Hm. simpl. rewrite Ho. simpl.
    rewrite Hc. simpl. destruct r as [o c n]. simpl in *. now subst.
Qed.

Lemma fmb_some (document : TextDocument) (position : Position) (r : BracketMatch) :
  findMatchingBrackets document position = Ret (Some r) <->
  onDelimiter document position = true
  /\ pairOfLine document (line position) = Ret (Some r).
Proof.
  destruct (onDelimiter document position) eqn:Hon.
  - rewrite (fmb_onDelimiter _ _ Hon).
    destruct (pairOfLine document (line position)) as [[x|]|]; simpl;
      split; try (intros [_ H]); try intros H; try discriminate;
      try (split; [reflexivity|]); congruence.
  - rewrite (fmb_not_onDelimiter _ _ Hon).
    split; [discriminate|intros [H _]; discriminate].
Qed.

(** The opening and the closing bracket behind a result. *)
Lemma fmb_pair (document : TextDocument) (position : Position) (r : BracketMatch) :
  findMatchingBrackets document position = Ret (Some r) ->
  exists brackets i j o c,
    scanAllBrackets document = Ret brackets
    /\ nth_error brackets i = Some o /\ nth_error brackets j = Some c
    /\ (i < j)%nat
    /\ BracketBlock.isOpening o = true /\ BracketBlock.isOpening c = false
    /\ BracketBlock.colonCount o = colonCount r
    /\ BracketBlock.colonCount c = colonCount r
    /\ createBracketRange document o = Ret (opening r)
    /\ createBracketRange document c = Ret (closing r)
    /\ ((BracketBlock.line o = line position
         /\ findMatchingBracket brackets i = Ret (Some c))
        \/ (BracketBlock.line c = line position
            /\ findMatchingBracket brackets j = Ret (Some o))).
Proof.
  intros H. apply fmb_some in H. destruct H as [_ H].
  apply pairOfLine_some in H.
  destruct H as (brackets & i & cur & m & Hscan & Hi & Hcur & Hm & Ho & Hc & Hn).
  destruct (findMatchingBracket_result brackets i cur m Hcur Hm)
    as (Hcount & Hrole & j & Hj & Hij).
  destruct (findIndex_some _ _ _ Hi) as (x & Hx & Hline).
  assert (x = cur) as -> by congruence. apply Z.eqb_eq in Hline.
  destruct (BracketBlock.isOpening cur) eqn:Erole.
  - exists brackets, i, j, cur, m. simpl in Hrole.
    repeat split; try assumption; try congruence. left. now split.
  - exists brackets, j, i, m, cur. simpl in Hrole.
    repeat split; try assumption; try congruence. right. now split.
Qed.

(** C8. In every result, the range called [opening] is on a line strictly
    before the line of the range called [closing], whichever delimiter the
    cursor was on. *)
Theorem opening_line_before_closing_line
  (document : TextDocument) (position : Position) (r : BracketMatch) :
  findMatchingBrackets document position = Ret (Some r) ->
  startLine (opening r) < startLine (closing r).
Proof.
  intros H. destruct (fmb_pair _ _ _ H)
    as (brackets & i & j & o & c & Hscan & Hi & Hj & Hij & _ & _ & _ & _ & Ho & Hc & _).
  rewrite (createBracketRange_startLine _ _ _ Ho).
  rewrite (createBracketRange_startLine _ _ _ Hc).
  destruct (scanAllBrackets_scanned _ _ Hscan) as [Hasc _].
  exact (Hasc i j o c Hij Hi Hj).
Qed.

(** The cursor on the closing delimiter of the line 4 of the nested
    document. *)
Lemma opening_line_before_closing_line_witness :
  exists r,
    findMatchingBrackets docNested {| line := 4; column := 1 |} = Ret (Some r)
    /\ startLine (opening r) < startLine (closing r).
Proof.
  eexists. split; [vm_compute; reflexivity|].
  apply (opening_line_before_closing_line docNested {| line := 4; column := 1 |}).
  vm_compute. reflexivity.
Defined.

(** C7. Behind every result there are an opening bracket and a closing
    bracket of the scanner, on the lines of the two ranges, whose colon
    counts both are the [colonCount] of the result; and the texts of these
    two lines, once trimmed, start with exactly that many colons. *)
Theorem pair_has_equal_colon_counts
  (document : TextDocument) (position : Position) (r : BracketMatch) :
  findMatchingBrackets document position = Ret (Some r) ->
  exists brackets o c openingText closingText,
    scanAllBrackets document = Ret brackets
    /\ In o brackets /\ In c brackets
    /\ BracketBlock.isOpening o = true /\ BracketBlock.isOpening c = false
    /\ BracketBlock.line o = startLine (opening r)
    /\ BracketBlock.line c = startLine (closing r)
    /\ BracketBlock.colonCount o = colonCount r
    /\ BracketBlock.colonCount c = colonCount r
    /\ getLine document (startLine (opening r)) = Ret openingText
    /\ getLine document (startLine (closing r)) = Ret closingText
    /\ colonRun openingText = colonCount r
    /\ colonRun closingText = colonCount r
    /\ 2 <= colonCount r.
Proof.
  intros H. destruct (fmb_pair _ _ _ H)
    as (brackets & i & j & o & c & Hscan & Hi & Hj & Hij
        & Hoo & Hcc & Hon & Hcn & Ho & Hc & _).
  apply createBracketRange_startLine in Ho, Hc.
  destruct (scanAllBrackets_scanned _ _ Hscan) as [_ Hall].
  rewrite Forall_forall in Hall.
  pose proof (nth_error_In _ _ Hi) as Hino.
  pose proof (nth_error_In _ _ Hj) as Hinc.
  destruct (Hall o Hino) as (_ & Htwo & so & Hso & Hro).
  destruct (Hall c Hinc) as (_ & _ & sc & Hsc & Hrc).
  exists brackets, o, c, so, sc.
  rewrite Ho, Hc.
  repeat split; try assumption; try congruence; lia.
Qed.

(** The nest of two colons inside three colons, from the inner closing
    delimiter. *)
Lemma pair_has_equal_colon_counts_witness :
  let document := createDocument (map js [":::outer"; "::inner"; "::"; ":::"]%string) in
  exists r,
    findMatchingBrackets document {| line := 2; column := 0 |} = Ret (Some r)
    /\ exists brackets o c openingText closingText,
        scanAllBrackets document = Ret brackets
        /\ In o brackets /\ In c brackets
        /\ BracketBlock.isOpening o = true /\ BracketBlock.isOpening c = false
        /\ BracketBlock.line o = startLine (opening r)
        /\ BracketBlock.line c = startLine (closing r)
        /\ BracketBlock.colonCount o = colonCount r
        /\ BracketBlock.colonCount c = colonCount r
        /\ getLine document (startLine (opening r)) = Ret openingText
        /\ getLine document (startLine (closing r)) = Ret closingText
        /\ colonRun openingText = colonCount r
        /\ colonRun closingText = colonCount r
        /\ 2 <= colonCount r.
Proof.
  intros document. eexists. split; [vm_compute; reflexivity|].
  apply (pair_has_equal_colon_counts document {| line := 2; column := 0 |}).
  vm_compute. reflexivity.
Defined.

(** ** The two directions of the search *)

Lemma searchLoop_In (pushed : bool) (rest : list BracketBlock) :
  forall (stack : list BracketBlock) (m : BracketBlock),
    searchLoop pushed rest stack = Some m -> In m rest.
Proof.
  induction rest as [|b rest IH]; intros stack m H; simpl in H; [discriminate|].
  destruct (Bool.eqb (BracketBlock.isOpening b) pushed).
  - right. eapply IH; eassumption.
  - destruct stack as [|top stack']; [right; eapply IH; eassumption|].
    destruct (BracketBlock.colonCount top =? BracketBlock.colonCount b);
      [|right; eapply IH; eassumption].
    destruct stack'; [injection H as <-; now left|right; eapply IH; eassumption].
Qed.

(** The search through [l1 ++ l2] goes through [l1] first. *)
Lemma searchLoop_app (pushed : bool) (l1 l2 : list BracketBlock) :
  forall stack,
    searchLoop pushed (l1 ++ l2) stack
    = match searchRun pushed l1 stack with
      | Some stack' => searchLoop pushed l2 stack'
      | None => searchLoop pushed l1 stack
      end.
Proof.
  induction l1 as [|b l1 IH]; intros stack; simpl; [reflexivity|].
  destruct (Bool.eqb (BracketBlock.isOpening b) pushed); [apply IH|].
  destruct stack as [|top stack']; [apply IH|].
  destruct (BracketBlock.colonCount top =? BracketBlock.colonCount b); [|apply IH].
  destruct stack'; [reflexivity|apply IH].
Qed.

Lemma balance_cons (pushed : bool) (b : BracketBlock) (l : list BracketBlock) :
  balance pushed (b :: l)
  = (if Bool.eqb (BracketBlock.isOpening b) pushed then 1 else -1) + balance pushed l.
Proof. reflexivity. Qed.

Lemma balance_app (pushed : bool) (a b : list BracketBlock) :
  balance pushed (a ++ b) = balance pushed a + balance pushed b.
Proof.
  induction a as [|x a IH]; [reflexivity|].
  rewrite <- app_comm_cons, !balance_cons, IH. lia.
Qed.

Lemma balance_rev (pushed : bool) (l : list BracketBlock) :
  balance pushed (rev l) = balance pushed l.
Proof.
  induction l as [|x l IH]; [reflexivity|].
  cbn [rev]. rewrite balance_app, IH, !balance_cons. cbn [balance]. lia.
Qed.

Lemma balance_negb (pushed : bool) (l : list BracketBlock) :
  balance (negb pushed) l = - balance pushed l.
Proof.
  induction l as [|x l IH]; [reflexivity|].
  rewrite !balance_cons, IH.
  destruct (BracketBlock.isOpening x), pushed; cbn [Bool.eqb negb]; lia.
Qed.

Section SameColonCount.
Variable pushed : bool.
Variable n : Z.

Let same (l : list BracketBlock) : Prop :=
  Forall (fun b => BracketBlock.colonCount b = n) l.

(** When all the colon counts are the same, the search that has not
    returned has a stack whose height follows the balance, and that height
    was never below 1. *)
Lemma searchRun_heights (l : list BracketBlock) :
  forall stack stack',
    same l -> same stack -> stack <> [] ->
    searchRun pushed l stack = Some stack' ->
    same stack'
    /\ Z.of_nat (length stack') = Z.of_nat (length stack) + balance pushed l
    /\ forall k, 1 <= Z.of_nat (length stack) + balance pushed (firstn k l).
Proof.
  induction l as [|b l IH]; intros stack stack' Hl Hs Hne H.
  - injection H as <-. split; [assumption|]. split; [cbn [balance]; lia|].
    intros k. rewrite firstn_nil. cbn [balance].
    destruct stack; [congruence|cbn [length]; lia].
  - apply Forall_cons_iff in Hl. destruct Hl as [Hb Hl']. cbn [searchRun] in H.
    rewrite balance_cons.
    assert (Hpos : 1 <= Z.of_nat (length stack))
      by (destruct stack; [congruence|cbn [length]; lia]).
    destruct (Bool.eqb (BracketBlock.isOpening b) pushed) eqn:Erole.
    + destruct (IH (b :: stack) stack' Hl') as (H1 & H2 & H3);
        [now constructor|discriminate|assumption|].
      cbn [length] in H2, H3.
      split; [assumption|]. split; [lia|].
      intros [|k]; [cbn [firstn balance]; lia|].
      specialize (H3 k). cbn [firstn]. rewrite balance_cons, Erole. lia.
    + destruct stack as [|top stack'']; [congruence|].
      apply Forall_cons_iff in Hs. destruct Hs as [Htop Hs''].
      rewrite Htop, Hb, Z.eqb_refl in H.
      destruct stack'' as [|top' stack3]; [discriminate|].
      destruct (IH (top' :: stack3) stack' Hl') as (H1 & H2 & H3);
        [assumption|discriminate|assumption|].
      cbn [length] in *.
      split; [assumption|]. split; [lia|].
      intros [|k]; [cbn [firstn balance]; lia|].
      specialize (H3 k). cbn [firstn]. rewrite balance_cons, Erole. lia.
Qed.

(** Conversely, heights that stay at 1 or more let the search go through
    without returning. *)
Lemma searchRun_of_heights (l : list BracketBlock) :
  forall stack,
    same l -> same stack ->
    (forall k, 1 <= Z.of_nat (length stack) + balance pushed (firstn k l)) ->
    exists stack',
      searchRun pushed l stack = Some stack'
      /\ same stack'
      /\ Z.of_nat (length stack') = Z.of_nat (length stack) + balance pushed l.
Proof.
  induction l as [|b l IH]; intros stack Hl Hs Hh.
  - exists stack. split; [reflexivity|]. split; [assumption|cbn [balance]; lia].
  - apply Forall_cons_iff in Hl. destruct Hl as [Hb Hl']. cbn [searchRun]. rewrite balance_cons.
    destruct (Bool.eqb (BracketBlock.isOpening b) pushed) eqn:Erole.
    + destruct (IH (b :: stack) Hl') as (stack' & H1 & H2 & H3).
      * now constructor.
      * intros k. specialize (Hh (S k)). cbn [firstn] in Hh.
        rewrite balance_cons, Erole in Hh. cbn [length]. lia.
      * exists stack'. split; [assumption|]. split; [assumption|].
        cbn [length] in H3. lia.
    + pose proof (Hh 0%nat) as H0. pose proof (Hh 1%nat) as H1.
      cbn [firstn] in H0, H1. rewrite balance_cons, Erole in H1.
      cbn [balance] in H0, H1.
      destruct stack as [|top stack'']; [cbn [length] in H0; lia|].
      apply Forall_cons_iff in Hs. destruct Hs as [Htop Hs''].
      rewrite Htop, Hb, Z.eqb_refl.
      destruct stack'' as [|top' stack3]; [cbn [length] in H1; lia|].
      destruct (IH (top' :: stack3) Hl' Hs'') as (stack' & H2 & H3 & H4).
      * intros k. specialize (Hh (S k)). cbn [firstn] in Hh.
        rewrite balance_cons, Erole in Hh. cbn [length] in *. lia.
      * exists stack'. split; [assumption|]. split; [assumption|].
        cbn [length] in *. lia.
Qed.
End SameColonCount.

(** A search from [cur] that returns [m] after the brackets [mid], all of
    the colon count of [cur], is undone by the search from [m] in the other
    direction: it goes back through [mid] and returns [cur]. *)
Lemma search_symmetric (pushed : bool) (cur m : BracketBlock)
      (mid post before : list BracketBlock) :
  BracketBlock.isOpening cur = pushed ->
  Forall (fun b => BracketBlock.colonCount b = BracketBlock.colonCount cur) mid ->
  ~ In m mid -> ~ In m post ->
  searchLoop pushed (mid ++ m :: post) [cur] = Some m ->
  searchLoop (negb pushed) (rev mid ++ cur :: before) [m] = Some cur.
Proof.
  intros Hrole Hmid Hnm Hnp H.
  destruct (searchLoop_result pushed _ [cur] m cur ltac:(discriminate) H)
    as (_ & Hmrole & Hmcount). simpl in Hmcount.
  rewrite searchLoop_app in H.
  destruct (searchRun pushed mid [cur]) as [stack'|] eqn:Erun;
    [|apply searchLoop_In in H; contradiction].
  destruct (searchRun_heights pushed (BracketBlock.colonCount cur) mid [cur] stack'
              Hmid ltac:(now repeat constructor) ltac:(discriminate) Erun)
    as (Hsame & Hlen & Hh).
  (* the search has returned at [m], with the stack [[top]] *)
  simpl in H.
  replace (Bool.eqb (BracketBlock.isOpening m) pushed) with false in H
    by (rewrite Hmrole; now destruct pushed).
  assert (Hone : length stack' = 1%nat).
  { destruct stack' as [|top stack'']; [apply searchLoop_In in H; contradiction|].
    destruct (BracketBlock.colonCount top =? BracketBlock.colonCount m);
      [|apply searchLoop_In in H; contradiction].
    destruct stack''; [reflexivity|apply searchLoop_In in H; contradiction]. }
  assert (Hbal : balance pushed mid = 0) by (simpl length in Hlen; lia).
  (* the other direction goes through [rev mid] without returning *)
  destruct (searchRun_of_heights (negb pushed) (BracketBlock.colonCount cur)
              (rev mid) [m]) as (back & Hback & Hbsame & Hblen).
  - apply Forall_rev. exact Hmid.
  - now repeat constructor.
  - intros k. rewrite firstn_rev, balance_rev, balance_negb.
    pose proof (firstn_skipn (length mid - k) mid) as Hsplit.
    apply (f_equal (balance pushed)) in Hsplit. rewrite balance_app in Hsplit.
    specialize (Hh (length mid - k)%nat). simpl length in *. lia.
  - rewrite searchLoop_app, Hback.
    rewrite balance_rev, balance_negb, Hbal in Hblen. simpl length in Hblen.
    destruct back as [|top back']; [simpl in Hblen; lia|].
    destruct back'; [|simpl length in Hblen; lia].
    apply Forall_cons_iff in Hbsame. destruct Hbsame as [Htop _].
    simpl. rewrite Hrole.
    replace (Bool.eqb pushed (negb pushed)) with false by now destruct pushed.
    now rewrite Htop, Z.eqb_refl.
Qed.

(** ** The same pair from both ends *)

Lemma findIndex_first {A} (pred : A -> bool) (l : list A) :
  forall (j : nat) (m : A),
    nth_error l j = Some m -> pred m = true ->
    (forall i x, (i < j)%nat -> nth_error l i = Some x -> pred x = false) ->
    findIndex pred l = Some j.
Proof.
  induction l as [|y l IH]; intros j m Hj Hm Hbefore.
  - destruct j; discriminate.
  - destruct j as [|j]; simpl.
    + injection Hj as ->. now rewrite Hm.
    + rewrite (Hbefore 0%nat y) by (lia || reflexivity).
      rewrite (IH j m Hj Hm); [reflexivity|].
      intros i x Hi Hx. apply (Hbefore (S i) x); [lia|assumption].
Qed.

Lemma findIndex_line (brackets : list BracketBlock) (j : nat) (m : BracketBlock) :
  ascending brackets ->
  nth_error brackets j = Some m ->
  findIndex (fun b => BracketBlock.line b =? BracketBlock.line m) brackets = Some j.
Proof.
  intros Hasc Hj. apply (findIndex_first _ brackets j m Hj).
  - apply Z.eqb_refl.
  - intros i x Hi Hx. pose proof (Hasc i j x m Hi Hx Hj). apply Z.eqb_neq. lia.
Qed.

(** The brackets around one bracket of an ascending list. *)
Lemma ascending_around (a b : list BracketBlock) (x : BracketBlock) :
  ascending (a ++ x :: b) ->
  Forall (fun y => BracketBlock.line y < BracketBlock.line x) a
  /\ Forall (fun y => BracketBlock.line x < BracketBlock.line y) b.
Proof.
  intros Hasc.
  assert (Hx : nth_error (a ++ x :: b) (length a) = Some x)
    by (rewrite nth_error_app2, Nat.sub_diag; [reflexivity|lia]).
  split; apply Forall_forall; intros y Hy;
    apply In_nth_error in Hy; destruct Hy as (k & Hk).
  - assert (Hlt : (k < length a)%nat)
      by (apply nth_error_Some; congruence).
    apply (Hasc k (length a) y x Hlt); [|assumption].
    now rewrite nth_error_app1.
  - apply (Hasc (length a) (length a + S k)%nat x y); [lia|assumption|].
    rewrite nth_error_app2 by lia.
    replace (length a + S k - length a)%nat with (S k) by lia. exact Hk.
Qed.

Lemma ascending_tail (a b : list BracketBlock) :
  ascending (a ++ b) -> ascending b.
Proof.
  intros Hasc i j x y Hij Hi Hj.
  apply (Hasc (length a + i)%nat (length a + j)%nat x y); [lia| |].
  - rewrite nth_error_app2 by lia.
    now replace (length a + i - length a)%nat with i by lia.
  - rewrite nth_error_app2 by lia.
    now replace (length a + j - length a)%nat with j by lia.
Qed.

Lemma split_at_two {A} (l : list A) (i j : nat) (o c : A) :
  (i < j)%nat ->
  nth_error l i = Some o -> nth_error l j = Some c ->
  exists pre mid post,
    l = pre ++ o :: mid ++ c :: post
    /\ length pre = i /\ length (pre ++ o :: mid) = j.
Proof.
  intros Hij Hi Hj.
  destruct (nth_error_split l i Hi) as (pre & l2 & -> & Hpre).
  rewrite nth_error_app2 in Hj by lia.
  destruct (j - length pre)%nat as [|d] eqn:Ed; [lia|]. simpl in Hj.
  destruct (nth_error_split l2 d Hj) as (mid & post & -> & Hmid).
  exists pre, mid, post. split; [reflexivity|]. split; [assumption|].
  rewrite length_app. simpl. lia.
Qed.

(** Between an opening and a later closing bracket that have the same
    colon count as all the brackets between them, the matcher finds the
    closing one from the opening one exactly when it finds the opening one
    from the closing one. *)
Lemma findMatchingBracket_symmetric (brackets : list BracketBlock) (i j : nat)
      (o c : BracketBlock) :
  ascending brackets ->
  (i < j)%nat ->
  nth_error brackets i = Some o -> nth_error brackets j = Some c ->
  BracketBlock.isOpening o = true -> BracketBlock.isOpening c = false ->
  BracketBlock.colonCount o = BracketBlock.colonCount c ->
  (forall b, In b brackets ->
             BracketBlock.line o < BracketBlock.line b < BracketBlock.line c ->
             BracketBlock.colonCount b = BracketBlock.colonCount o) ->
  findMatchingBracket brackets i = Ret (Some c)
  <-> findMatchingBracket brackets j = Ret (Some o).
Proof.
  intros Hasc Hij Hi Hj Ho Hc Hcount Hsame.
  destruct (split_at_two brackets i j o c Hij Hi Hj)
    as (pre & mid & post & Hl & Hpre & Hmid).
  unfold findMatchingBracket. rewrite Hi, Hj, Ho, Hc.
  rewrite forwardLoop_search, backwardLoop_search.
  assert (Hskip : skipn (S i) brackets = mid ++ c :: post).
  { rewrite Hl.
    replace (pre ++ o :: mid ++ c :: post) with ((pre ++ [o]) ++ mid ++ c :: post)
      by (rewrite <- app_assoc; reflexivity).
    apply skipn_app_len. rewrite length_app. simpl. lia. }
  assert (Hfirst : rev (firstn j brackets) = rev mid ++ o :: rev pre).
  { rewrite Hl.
    replace (pre ++ o :: mid ++ c :: post) with ((pre ++ o :: mid) ++ c :: post)
      by (rewrite <- app_assoc; reflexivity).
    rewrite firstn_app_len by (symmetry; exact Hmid).
    rewrite rev_app_distr. simpl. now rewrite <- app_assoc. }
  rewrite Hskip, Hfirst.
  (* what the order of the lines gives *)
  rewrite Hl in Hasc.
  destruct (ascending_around pre (mid ++ c :: post) o Hasc) as [Hpre_o Hafter_o].
  apply Forall_app in Hafter_o. destruct Hafter_o as [Hmid_o _].
  pose proof (ascending_tail (pre ++ [o]) (mid ++ c :: post)) as Htail.
  rewrite <- app_assoc in Htail. specialize (Htail Hasc).
  destruct (ascending_around mid post c Htail) as [Hmid_c Hpost_c].
  rewrite Forall_forall in Hpre_o, Hmid_o, Hmid_c, Hpost_c.
  assert (Hmid_same : Forall (fun b => BracketBlock.colonCount b
                                       = BracketBlock.colonCount o) mid).
  { apply Forall_forall. intros b Hb. apply Hsame.
    - rewrite Hl. apply in_or_app. right. right. apply in_or_app. now left.
    - split; [now apply Hmid_o|now apply Hmid_c]. }
  split; intros H; injection H as H; f_equal.
  - apply (search_symmetric true o c mid post (rev pre) Ho Hmid_same).
    + intros Hin. specialize (Hmid_c c Hin). lia.
    + intros Hin. specialize (Hpost_c c Hin). lia.
    + exact H.
  - rewrite <- (rev_involutive mid).
    apply (search_symmetric false c o (rev mid) (rev pre) post Hc).
    + apply Forall_rev. rewrite <- Hcount. exact Hmid_same.
    + intros Hin. apply in_rev in Hin. specialize (Hmid_o o Hin). lia.
    + intros Hin. apply in_rev in Hin. specialize (Hpre_o o Hin). lia.
    + exact H.
Qed.

(** ** Well-nested stretches *)

(** The search through [l1 ++ l2] without returning goes through [l1]
    first. *)
Lemma searchRun_app (pushed : bool) (l1 l2 : list BracketBlock) :
  forall stack,
    searchRun pushed (l1 ++ l2) stack
    = match searchRun pushed l1 stack with
      | Some stack' => searchRun pushed l2 stack'
      | None => None
      end.
Proof.
  induction l1 as [|b l1 IH]; intros stack; simpl; [reflexivity|].
  destruct (Bool.eqb (BracketBlock.isOpening b) pushed); [apply IH|].
  destruct stack as [|top stack']; [apply IH|].
  destruct (BracketBlock.colonCount top =? BracketBlock.colonCount b); [|apply IH].
  destruct stack'; [reflexivity|apply IH].
Qed.

(** The forward search goes through a well-nested stretch and leaves its
    stack as it was. *)
Lemma searchRun_wellNested_forward (mid : list BracketBlock) :
  wellNested mid ->
  forall stack, stack <> [] -> searchRun true mid stack = Some stack.
Proof.
  induction 1 as [|a inner b rest Ha Hb Hcount Hinner IHinner Hrest IHrest];
    intros stack Hne; [reflexivity|].
  cbn [searchRun]. rewrite Ha. cbn [Bool.eqb].
  rewrite searchRun_app, (IHinner (a :: stack)) by discriminate.
  cbn [searchRun]. rewrite Hb. cbn [Bool.eqb]. rewrite Hcount, Z.eqb_refl.
  destruct stack as [|top stack']; [congruence|].
  apply IHrest. discriminate.
Qed.

(** So does the backward search, which meets the stretch reversed. *)
Lemma searchRun_wellNested_backward (mid : list BracketBlock) :
  wellNested mid ->
  forall stack, stack <> [] -> searchRun false (rev mid) stack = Some stack.
Proof.
  induction 1 as [|a inner b rest Ha Hb Hcount Hinner IHinner Hrest IHrest];
    intros stack Hne; [reflexivity|].
  cbn [rev]. rewrite rev_app_distr. cbn [rev].
  rewrite !searchRun_app, (IHrest stack Hne).
  cbn [searchRun]. rewrite Hb. cbn [Bool.eqb].
  rewrite (IHinner (b :: stack)) by discriminate.
  rewrite Ha. cbn [Bool.eqb]. rewrite Hcount, Z.eqb_refl.
  destruct stack as [|top stack']; [congruence|reflexivity].
Qed.

(** The stack of a search that has not returned is not empty, is at least
    as high as the balance says, and has kept its bottom. *)
Lemma searchRun_height_bound (pushed : bool) (l : list BracketBlock) :
  forall stack stack',
    stack <> [] ->
    searchRun pushed l stack = Some stack' ->
    stack' <> []
    /\ Z.of_nat (length stack) + balance pushed l <= Z.of_nat (length stack')
    /\ forall d, last stack' d = last stack d.
Proof.
  induction l as [|b l IH]; intros stack stack' Hne H.
  - injection H as <-. split; [assumption|]. split; [cbn [balance]; lia|reflexivity].
  - cbn [searchRun] in H. rewrite balance_cons.
    destruct (Bool.eqb (BracketBlock.isOpening b) pushed).
    + destruct (IH (b :: stack) stack' ltac:(discriminate) H) as (H1 & H2 & H3).
      split; [assumption|]. split; [cbn [length] in H2; lia|].
      intros d. rewrite H3. now apply last_cons_nonempty.
    + destruct stack as [|top stack'']; [congruence|].
      destruct (BracketBlock.colonCount top =? BracketBlock.colonCount b).
      * destruct stack'' as [|top' stack3]; [discriminate|].
        destruct (IH (top' :: stack3) stack' ltac:(discriminate) H) as (H1 & H2 & H3).
        split; [assumption|]. split; [cbn [length] in *; lia|].
        intros d. rewrite H3. reflexivity.
      * destruct (IH (top :: stack'') stack' ltac:(discriminate) H) as (H1 & H2 & H3).
        split; [assumption|]. split; [cbn [length] in *; lia|assumption].
Qed.

(** A search that returns the bracket [m], met after [mid] and nowhere
    else, has gone through [mid] and come back to the bottom of its
    stack. *)
Lemma searchLoop_returns_after (pushed : bool) (cur m : BracketBlock)
      (mid post : list BracketBlock) :
  ~ In m mid -> ~ In m post ->
  searchLoop pushed (mid ++ m :: post) [cur] = Some m ->
  searchRun pushed mid [cur] = Some [cur].
Proof.
  intros Hnm Hnp H.
  destruct (searchLoop_result pushed _ [cur] m cur ltac:(discriminate) H)
    as (_ & Hmrole & _).
  rewrite searchLoop_app in H.
  destruct (searchRun pushed mid [cur]) as [stack'|] eqn:Erun;
    [|apply searchLoop_In in H; contradiction].
  destruct (searchRun_height_bound pushed mid [cur] stack' ltac:(discriminate) Erun)
    as (_ & _ & Hbottom).
  simpl in H.
  replace (Bool.eqb (BracketBlock.isOpening m) pushed) with false in H
    by (rewrite Hmrole; now destruct pushed).
  destruct stack' as [|top stack'']; [apply searchLoop_In in H; contradiction|].
  destruct (BracketBlock.colonCount top =? BracketBlock.colonCount m);
    [|apply searchLoop_In in H; contradiction].
  destruct stack''; [|apply searchLoop_In in H; contradiction].
  specialize (Hbottom cur). simpl in Hbottom. now rewrite Hbottom.
Qed.

(** A forward search that comes back to the bottom of its stack, and in
    which every closing bracket has popped, has met a stretch that closes
    the openings it had pending. *)
Lemma searchRun_strict (o : BracketBlock) (l : list BracketBlock) :
  forall pending,
    Forall (fun b => BracketBlock.isOpening b = true) pending ->
    searchRun true l (pending ++ [o]) = Some [o] ->
    Z.of_nat (length pending) + balance true l = 0 ->
    closesStack pending l.
Proof.
  induction l as [|b l IH]; intros pending Hpending H Hbal.
  - destruct pending as [|t p]; [constructor|].
    cbn [balance length] in Hbal. lia.
  - cbn [searchRun] in H. rewrite balance_cons in Hbal.
    destruct (BracketBlock.isOpening b) eqn:Erole; cbn [Bool.eqb] in H, Hbal.
    + assert (Hnext : closesStack (b :: pending) l).
      { apply IH; [now constructor|exact H|cbn [length]; lia]. }
      destruct Hnext as (inner & c & rest & -> & Hinner & Hc & Hcount & Hrest).
      destruct pending as [|t p].
      * cbn [closesStack] in *. now constructor.
      * cbn [closesStack] in Hrest |- *.
        destruct Hrest as (inner' & c' & rest' & -> & Hinner' & Hc' & Hcount' & Hrest').
        exists (b :: inner ++ c :: inner'), c', rest'.
        split; [cbn [app]; now rewrite <- app_assoc|].
        split; [now constructor|]. now repeat split.
    + destruct pending as [|t p]; cbn [app] in H.
      * destruct (BracketBlock.colonCount o =? BracketBlock.colonCount b);
          [discriminate|].
        destruct (searchRun_height_bound true l [o] [o] ltac:(discriminate) H)
          as (_ & Hbound & _).
        cbn [length] in Hbal, Hbound. lia.
      * destruct (Z.eqb_spec (BracketBlock.colonCount t) (BracketBlock.colonCount b))
          as [Hcount|Hcount].
        -- assert (Hrun : searchRun true l (p ++ [o]) = Some [o]).
           { destruct (p ++ [o]) as [|x s] eqn:E; [discriminate|exact H]. }
           apply Forall_cons_iff in Hpending. destruct Hpending as [_ Hp].
           exists [], b, l. split; [reflexivity|]. split; [constructor|].
           split; [assumption|]. split; [assumption|].
           apply IH; [assumption|assumption|cbn [length] in Hbal; lia].
        -- destruct (searchRun_height_bound true l (t :: p ++ [o]) [o]
                       ltac:(discriminate) H) as (_ & Hbound & _).
           cbn [length] in Hbal, Hbound. rewrite length_app in Hbound.
           cbn [length] in Hbound. lia.
Qed.

(** A stretch that both searches go through, each coming back to the
    bracket it started from, is well nested. *)
Lemma searchRun_both_wellNested (o c : BracketBlock) (mid : list BracketBlock) :
  searchRun true mid [o] = Some [o] ->
  searchRun false (rev mid) [c] = Some [c] ->
  wellNested mid.
Proof.
  intros Hfwd Hbwd.
  destruct (searchRun_height_bound true mid [o] [o] ltac:(discriminate) Hfwd)
    as (_ & Hf & _).
  destruct (searchRun_height_bound false (rev mid) [c] [c] ltac:(discriminate) Hbwd)
    as (_ & Hb & _).
  rewrite balance_rev in Hb. pose proof (balance_negb true mid) as Hneg.
  cbn [negb] in Hneg. cbn [length] in Hf, Hb.
  apply (searchRun_strict o mid [] (Forall_nil _) Hfwd). cbn [length]. lia.
Qed.

Lemma filter_Forall_true {A} (f : A -> bool) (l : list A) :
  Forall (fun x => f x = true) l -> filter f l = l.
Proof.
  induction 1 as [|x l Hx Hl IH]; [reflexivity|]. simpl. now rewrite Hx, IH.
Qed.

Lemma filter_Forall_false {A} (f : A -> bool) (l : list A) :
  Forall (fun x => f x = false) l -> filter f l = [].
Proof.
  induction 1 as [|x l Hx Hl IH]; [reflexivity|]. simpl. now rewrite Hx.
Qed.

(** The brackets between the two delimiters of a result are those that the
    scanner has pushed between the two brackets of the result. *)
Lemma between_split (r : BracketMatch) (pre mid post : list BracketBlock)
      (o c : BracketBlock) :
  ascending (pre ++ o :: mid ++ c :: post) ->
  BracketBlock.line o = startLine (opening r) ->
  BracketBlock.line c = startLine (closing r) ->
  between r (pre ++ o :: mid ++ c :: post) = mid.
Proof.
  intros Hasc Hlo Hlc.
  destruct (ascending_around pre (mid ++ c :: post) o Hasc) as [Hpre_o Hafter_o].
  apply Forall_app in Hafter_o. destruct Hafter_o as [Hmid_o Hrest_o].
  apply Forall_cons_iff in Hrest_o. destruct Hrest_o as [Hoc _].
  pose proof (ascending_tail (pre ++ [o]) (mid ++ c :: post)) as Htail.
  rewrite <- app_assoc in Htail. specialize (Htail Hasc).
  destruct (ascending_around mid post c Htail) as [Hmid_c Hpost_c].
  rewrite Forall_forall in Hpre_o, Hmid_o, Hmid_c, Hpost_c.
  unfold between. rewrite filter_app. cbn [filter]. rewrite filter_app. cbn [filter].
  rewrite <- Hlo, <- Hlc.
  rewrite (filter_Forall_false _ pre), (filter_Forall_true _ mid),
    (filter_Forall_false _ post).
  - rewrite Z.ltb_irrefl. cbn [andb]. rewrite Z.ltb_irrefl, andb_false_r.
    now rewrite app_nil_r.
  - apply Forall_forall. intros x Hx. specialize (Hpost_c x Hx).
    apply andb_false_iff. right. apply Z.ltb_ge. lia.
  - apply Forall_forall. intros x Hx.
    specialize (Hmid_o x Hx). specialize (Hmid_c x Hx).
    apply andb_true_iff. split; apply Z.ltb_lt; lia.
  - apply Forall_forall. intros x Hx. specialize (Hpre_o x Hx).
    apply andb_false_iff. left. apply Z.ltb_ge. lia.
Qed.

(** Between an opening bracket and a later closing bracket, the matcher
    finds each one from the other exactly when they have the same colon
    count and the brackets between them are well nested. *)
Lemma findMatchingBracket_both_ends (brackets : list BracketBlock) (i j : nat)
      (o c : BracketBlock) (r : BracketMatch) :
  ascending brackets ->
  (i < j)%nat ->
  nth_error brackets i = Some o -> nth_error brackets j = Some c ->
  BracketBlock.isOpening o = true -> BracketBlock.isOpening c = false ->
  BracketBlock.line o = startLine (opening r) ->
  BracketBlock.line c = startLine (closing r) ->
  (findMatchingBracket brackets i = Ret (Some c)
   /\ findMatchingBracket brackets j = Ret (Some o))
  <-> (BracketBlock.colonCount o = BracketBlock.colonCount c
       /\ wellNested (between r brackets)).
Proof.
  intros Hasc Hij Hi Hj Ho Hc Hlo Hlc.
  destruct (split_at_two brackets i j o c Hij Hi Hj)
    as (pre & mid & post & Hl & Hpre & Hmid).
  unfold findMatchingBracket. rewrite Hi, Hj, Ho, Hc.
  rewrite forwardLoop_search, backwardLoop_search.
  assert (Hskip : skipn (S i) brackets = mid ++ c :: post).
  { rewrite Hl.
    replace (pre ++ o :: mid ++ c :: post) with ((pre ++ [o]) ++ mid ++ c :: post)
      by (rewrite <- app_assoc; reflexivity).
    apply skipn_app_len. rewrite length_app. simpl. lia. }
  assert (Hfirst : rev (firstn j brackets) = rev mid ++ o :: rev pre).
  { rewrite Hl.
    replace (pre ++ o :: mid ++ c :: post) with ((pre ++ o :: mid) ++ c :: post)
      by (rewrite <- app_assoc; reflexivity).
    rewrite firstn_app_len by (symmetry; exact Hmid).
    rewrite rev_app_distr. simpl. now rewrite <- app_assoc. }
  rewrite Hskip, Hfirst.
  rewrite Hl in Hasc |- *. rewrite (between_split r pre mid post o c Hasc Hlo Hlc).
  destruct (ascending_around pre (mid ++ c :: post) o Hasc) as [Hpre_o Hafter_o].
  apply Forall_app in Hafter_o. destruct Hafter_o as [Hmid_o _].
  pose proof (ascending_tail (pre ++ [o]) (mid ++ c :: post)) as Htail.
  rewrite <- app_assoc in Htail. specialize (Htail Hasc).
  destruct (ascending_around mid post c Htail) as [Hmid_c Hpost_c].
  rewrite Forall_forall in Hpre_o, Hmid_o, Hmid_c, Hpost_c.
  split.
  - intros [Hfwd Hbwd]. injection Hfwd as Hfwd. injection Hbwd as Hbwd.
    destruct (searchLoop_result true _ [o] c o ltac:(discriminate) Hfwd)
      as (_ & _ & Hcount).
    split; [symmetry; exact Hcount|].
    apply (searchRun_both_wellNested o c mid).
    + apply (searchLoop_returns_after true o c mid post); [| |exact Hfwd].
      * intros Hin. specialize (Hmid_c c Hin). lia.
      * intros Hin. specialize (Hpost_c c Hin). lia.
    + apply (searchLoop_returns_after false c o (rev mid) (rev pre)); [| |exact Hbwd].
      * intros Hin. apply in_rev in Hin. specialize (Hmid_o o Hin). lia.
      * intros Hin. apply in_rev in Hin. specialize (Hpre_o o Hin). lia.
  - intros [Hcount Hnested]. split; do 2 f_equal.
    + rewrite searchLoop_app,
        (searchRun_wellNested_forward mid Hnested [o]) by discriminate.
      simpl. now rewrite Hc, Hcount, Z.eqb_refl.
    + rewrite searchLoop_app,
        (searchRun_wellNested_backward mid Hnested [c]) by discriminate.
      simpl. now rewrite Ho, Hcount, Z.eqb_refl.
Qed.

(** In an ascending list, the line tells the bracket. *)
Lemma ascending_line_index (brackets : list BracketBlock) (i j : nat)
      (a b : BracketBlock) :
  ascending brackets ->
  nth_error brackets i = Some a -> nth_error brackets j = Some b ->
  BracketBlock.line a = BracketBlock.line b ->
  i = j.
Proof.
  intros Hasc Hi Hj Hline.
  destruct (Nat.lt_trichotomy i j) as [Hlt | [Heq | Hgt]]; [|assumption|].
  - pose proof (Hasc i j a b Hlt Hi Hj). lia.
  - pose proof (Hasc j i b a Hgt Hj Hi). lia.
Qed.

(** A stretch between the two delimiters of a result in which every
    bracket has the colon count of the result is well nested. *)
Lemma same_colon_count_between_wellNested
  (document : TextDocument) (p : Position) (r : BracketMatch)
  (brackets : list BracketBlock) :
  findMatchingBrackets document p = Ret (Some r) ->
  scanAllBrackets document = Ret brackets ->
  (forall b, In b brackets ->
             startLine (opening r) < BracketBlock.line b < startLine (closing r) ->
             BracketBlock.colonCount b = colonCount r) ->
  wellNested (between r brackets).
Proof.
  intros Hp Hscan Hsame.
  destruct (fmb_pair _ _ _ Hp)
    as (brackets' & i & j & o & c & Hscan' & Hi & Hj & Hij
        & Hoo & Hcc & Hon_count & Hcn & Ho & Hc & Hdir).
  assert (brackets' = brackets) as -> by congruence.
  destruct (scanAllBrackets_scanned _ _ Hscan) as [Hasc _].
  pose proof (createBracketRange_startLine _ _ _ Ho) as Hlo.
  pose proof (createBracketRange_startLine _ _ _ Hc) as Hlc.
  assert (Hsym : findMatchingBracket brackets i = Ret (Some c)
                 <-> findMatchingBracket brackets j = Ret (Some o)).
  { apply findMatchingBracket_symmetric; try assumption; [congruence|].
    intros b Hb Hlines. rewrite Hon_count. apply Hsame; [assumption|].
    rewrite Hlo, Hlc. exact Hlines. }
  assert (Hends : findMatchingBracket brackets i = Ret (Some c)
                  /\ findMatchingBracket brackets j = Ret (Some o)).
  { destruct Hdir as [[_ H] | [_ H]]; split; try assumption; now apply Hsym. }
  exact (proj2 (proj1 (findMatchingBracket_both_ends brackets i j o c r Hasc Hij
                         Hi Hj Hoo Hcc (eq_sym Hlo) (eq_sym Hlc)) Hends)).
Qed.

(** C1, as the code has it. Let a query return a pair, and let the cursor
    of a second query be on the opening delimiter or on the closing
    delimiter of that pair. The second query returns the same
    [BracketMatch] exactly when its cursor is on the line of the first one,
    or the brackets of the scanner on the lines strictly between the two
    delimiters are well nested: each of them is paired, inside that
    stretch, with a bracket of the other role and of its own colon count,
    and the pairs are properly nested. So the queries from the two ends of
    a pair agree when, and only when, the stretch between them is well
    nested, whatever the colon counts inside it. *)
Theorem same_pair_from_both_ends
  (document : TextDocument) (p q : Position) (r : BracketMatch)
  (brackets : list BracketBlock) :
  findMatchingBrackets document p = Ret (Some r) ->
  scanAllBrackets document = Ret brackets ->
  line q = startLine (opening r) \/ line q = startLine (closing r) ->
  onDelimiter document q = true ->
  findMatchingBrackets document q = Ret (Some r)
  <-> (line q = line p \/ wellNested (between r brackets)).
Proof.
  intros Hp Hscan Hq Hon.
  destruct (fmb_pair _ _ _ Hp)
    as (brackets' & i & j & o & c & Hscan' & Hi & Hj & Hij
        & Hoo & Hcc & Hon_count & Hcn & Ho & Hc & Hdir).
  assert (brackets' = brackets) as -> by congruence.
  destruct (scanAllBrackets_scanned _ _ Hscan) as [Hasc _].
  pose proof (createBracketRange_startLine _ _ _ Ho) as Hlo.
  pose proof (createBracketRange_startLine _ _ _ Hc) as Hlc.
  pose proof (Hasc i j o c Hij Hi Hj) as Hlines.
  pose proof (findMatchingBracket_both_ends brackets i j o c r Hasc Hij Hi Hj
                Hoo Hcc (eq_sym Hlo) (eq_sym Hlc)) as Hboth.
  split.
  - intros Hqr.
    destruct (Z.eq_dec (line q) (line p)) as [Hsame | Hother]; [now left|right].
    apply fmb_some in Hqr. destruct Hqr as [_ Hqr]. apply pairOfLine_some in Hqr.
    destruct Hqr as (brackets' & k & cur & m & Hscan'' & Hk & Hcur & Hm & Hro & Hrc & _).
    assert (brackets' = brackets) as -> by congruence.
    destruct (findIndex_some _ _ _ Hk) as (x & Hx & Hline).
    assert (x = cur) as -> by congruence. apply Z.eqb_eq in Hline.
    destruct (findMatchingBracket_result brackets k cur m Hcur Hm)
      as (_ & _ & k' & Hk' & _).
    assert (Hends : findMatchingBracket brackets i = Ret (Some c)
                    /\ findMatchingBracket brackets j = Ret (Some o)).
    { destruct Hdir as [[Hpl Hfwd] | [Hpl Hbwd]].
      - (* the first cursor is on the opening line, the second on the
           closing one *)
        split; [exact Hfwd|].
        assert (Hqc : BracketBlock.line cur = BracketBlock.line c)
          by (destruct Hq as [Hq | Hq]; lia).
        pose proof (ascending_line_index brackets k j cur c Hasc Hcur Hj Hqc) as Hkj.
        subst k. assert (cur = c) by congruence. subst cur.
        rewrite Hcc in Hro. apply createBracketRange_startLine in Hro.
        assert (Hmo : BracketBlock.line m = BracketBlock.line o) by lia.
        pose proof (ascending_line_index brackets k' i m o Hasc Hk' Hi Hmo) as Hki.
        subst k'. assert (m = o) by congruence. subst m. exact Hm.
      - split; [|exact Hbwd].
        assert (Hqo : BracketBlock.line cur = BracketBlock.line o)
          by (destruct Hq as [Hq | Hq]; lia).
        pose proof (ascending_line_index brackets k i cur o Hasc Hcur Hi Hqo) as Hki.
        subst k. assert (cur = o) by congruence. subst cur.
        rewrite Hoo in Hrc. apply createBracketRange_startLine in Hrc.
        assert (Hmc : BracketBlock.line m = BracketBlock.line c) by lia.
        pose proof (ascending_line_index brackets k' j m c Hasc Hk' Hj Hmc) as Hkj.
        subst k'. assert (m = c) by congruence. subst m. exact Hm. }
    exact (proj2 (proj1 Hboth Hends)).
  - intros [Hsame | Hnested].
    + apply fmb_some. split; [assumption|]. rewrite Hsame.
      apply fmb_some in Hp. now destruct Hp.
    + assert (Hcount : BracketBlock.colonCount o = BracketBlock.colonCount c)
        by congruence.
      destruct (proj2 Hboth (conj Hcount Hnested)) as [Hfwd Hbwd].
      apply fmb_some. split; [assumption|]. apply pairOfLine_some.
      destruct Hq as [Hq | Hq]; rewrite Hq.
      * exists brackets, i, o, c. rewrite Hlo, Hoo.
        repeat split; try assumption; [|congruence].
        now apply findIndex_line.
      * exists brackets, j, c, o. rewrite Hlc, Hcc.
        repeat split; try assumption; [|congruence].
        now apply findIndex_line.
Qed.

(** A pair of two colons nested inside a pair of three colons: the outer
    pair, found from its opening delimiter, is found again from its closing
    delimiter, the stretch between the two being the inner pair. *)
Lemma same_pair_from_both_ends_witness :
  let document := createDocument (map js [":::outer"; "::inner"; "::"; ":::"]%string) in
  let p := {| line := 0; column := 0 |} in
  let q := {| line := 3; column := 3 |} in
  exists r brackets,
    findMatchingBrackets document p = Ret (Some r)
    /\ scanAllBrackets document = Ret brackets
    /\ line q = startLine (closing r)
    /\ onDelimiter document q = true
    /\ line q <> line p
    /\ wellNested (between r brackets)
    /\ findMatchingBrackets document q = Ret (Some r).
Proof.
  intros document p q.
  set (r := {| opening := {| startLine := 0; startColumn := 0;
                            endLine := 0; endColumn := 8 |};
               closing := {| startLine := 3; startColumn := 0;
                             endLine := 3; endColumn := 3 |};
               colonCount := 3 |}).
  set (a := BracketBlock.mk 1 2 true (Some (js "inner"))).
  set (b := BracketBlock.mk 2 2 false None).
  set (brackets := [BracketBlock.mk 0 3 true (Some (js "outer")); a; b;
                    BracketBlock.mk 3 3 false None]).
  exists r, brackets.
  assert (Hp : findMatchingBrackets document p = Ret (Some r))
    by (vm_compute; reflexivity).
  assert (Hscan : scanAllBrackets document = Ret brackets)
    by (vm_compute; reflexivity).
  assert (Hnested : wellNested (between r brackets)).
  { change (between r brackets) with (a :: [] ++ b :: []).
    apply wellNested_pair; try reflexivity; constructor. }
  split; [exact Hp|]. split; [exact Hscan|]. split; [reflexivity|].
  split; [reflexivity|]. split; [discriminate|]. split; [exact Hnested|].
  exact (proj2 (same_pair_from_both_ends document p q r brackets Hp Hscan
                  (or_intror eq_refl) eq_refl)
               (or_intror Hnested)).
Defined.

(** C1, as the specification states it, fails on the document
    [::component / ::: / Content / ::]: from the opening delimiter the
    matcher skips the closing delimiter of three colons and returns the pair
    of the lines 0 and 3; from the closing delimiter of the line 3, on which
    the cursor is, it pushes the three colons and returns nothing. *)
Lemma same_pair_from_both_ends_counterexample :
  exists r,
    findMatchingBrackets docStrayClosing {| line := 0; column := 0 |} = Ret (Some r)
    /\ startLine (opening r) = 0 /\ startLine (closing r) = 3
    /\ onDelimiter docStrayClosing {| line := 0; column := 0 |} = true
    /\ onDelimiter docStrayClosing {| line := 3; column := 0 |} = true
    /\ findMatchingBrackets docStrayClosing {| line := 3; column := 0 |} = Ret None
    /\ findMatchingBrackets docStrayClosing {| line := 3; column := 0 |}
       <> findMatchingBrackets docStrayClosing {| line := 0; column := 0 |}.
Proof.
  eexists. split; [vm_compute; reflexivity|].
  repeat split; try reflexivity. vm_compute. discriminate.
Qed.

(** ** The range builder on the closing lines of the scanner *)

Lemma searchFrom_skip (r : regex) (s : jsstring) (k : nat) (x : matchResult) :
  matchAt r s k = Some x ->
  forall (fuel start : nat),
    (start <= k <= start + fuel)%nat ->
    (forall i, (start <= i < k)%nat -> matchAt r s i = None) ->
    searchFrom r s start fuel = Some x.
Proof.
  intros Hk. induction fuel as [|fuel IH]; intros start Hr Hnone.
  - assert (start = k) as -> by lia. simpl. now rewrite Hk.
  - destruct (Nat.eq_dec start k) as [->|Hne].
    + now apply searchFrom_first.
    + simpl. rewrite (Hnone start) by lia.
      apply IH; [lia|]. intros i Hi. apply Hnone. lia.
Qed.

Lemma searchFrom_none (r : regex) (s : jsstring) :
  forall (fuel start : nat),
    (forall i, (start <= i <= start + fuel)%nat -> matchAt r s i = None) ->
    searchFrom r s start fuel = None.
Proof.
  induction fuel as [|fuel IH]; intros start Hnone; simpl.
  - now rewrite (Hnone start) by lia.
  - rewrite (Hnone start) by lia.
    apply IH. intros i Hi. apply Hnone. lia.
Qed.

Lemma isPrefix_short (pat s : jsstring) :
  (length s < length pat)%nat -> isPrefix pat s = false.
Proof.
  revert s. induction pat as [|p pat IH]; intros s H; simpl in H; [lia|].
  destruct s as [|c s]; [reflexivity|]. simpl in *.
  rewrite IH by lia. apply andb_false_r.
Qed.

Lemma lastIndexOfFrom_short (pat s : jsstring) :
  forall (i best : Z),
    (length s < length pat)%nat -> lastIndexOfFrom s pat i best = best.
Proof.
  induction s as [|c s IH]; intros i best H; cbn [lastIndexOfFrom];
    rewrite (isPrefix_short pat _ H); [reflexivity|].
  apply IH. simpl in H. lia.
Qed.

(** The last occurrence of a pattern in a text that ends with it. *)
Lemma lastIndexOfFrom_suffix (pat a : jsstring) :
  pat <> [] ->
  forall (i best : Z), lastIndexOfFrom (a ++ pat) pat i best = i + len a.
Proof.
  intros Hpat. induction a as [|x a IH]; intros i best.
  - simpl app. unfold len. simpl length. rewrite Z.add_0_r.
    destruct pat as [|p pat']; [congruence|].
    cbn [lastIndexOfFrom].
    pose proof (isPrefix_app (p :: pat') []) as Hp. rewrite app_nil_r in Hp.
    rewrite Hp. apply lastIndexOfFrom_short. simpl. lia.
  - simpl app. cbn [lastIndexOfFrom]. rewrite IH.
    unfold len. simpl length. lia.
Qed.

Section ClosingLine.
Variables (before : jsstring) (n : nat) (after : jsstring).
Hypothesis Hbefore : Forall (fun x => isWhiteSpace x = true) before.
Hypothesis Hafter : Forall (fun x => isWhiteSpace x = true) after.
Hypothesis Hn : (2 <= n)%nat.

Let s : jsstring := before ++ repeat 58%N n ++ after.

Lemma closing_length : length s = (length before + n + length after)%nat.
Proof. unfold s. rewrite !length_app, repeat_length. apply Nat.add_assoc. Qed.

Lemma closing_colons_at : 
  takeWhile isColon (skipn (length before) s) = repeat 58%N n.
Proof.
  unfold s. rewrite skipn_app_exact.
  apply takeWhile_app_stop; [apply Forall_colon_repeat|].
  destruct after as [|x t]; [exact I|].
  apply space_not_colon. now apply Forall_cons_iff in Hafter.
Qed.

(** Before the colons and after them, no colon run starts. *)
Lemma closing_no_colon_at (i : nat) :
  (i < length before \/ length before + n <= i)%nat ->
  takeWhile isColon (skipn i s) = [].
Proof.
  intros [Hi | Hi].
  - unfold s. rewrite skipn_app.
    destruct (skipn i before) as [|x t] eqn:Esk.
    + apply (f_equal (@length _)) in Esk. rewrite length_skipn in Esk.
      simpl in Esk. lia.
    + assert (Hx : isWhiteSpace x = true).
      { assert (Hin : In x (skipn i before)) by (rewrite Esk; now left).
        apply In_skipn in Hin. rewrite Forall_forall in Hbefore. now apply Hbefore. }
      simpl. now rewrite (space_not_colon x Hx).
  - unfold s. rewrite app_assoc.
    replace i with (length (before ++ repeat 58%N n) + (i - (length before + n)))%nat
      by (rewrite length_app, repeat_length; lia).
    rewrite skipn_app_plus.
    destruct (skipn (i - (length before + n)) after) as [|x t] eqn:Esk;
      [reflexivity|].
    assert (Hx : isWhiteSpace x = true).
    { assert (Hin : In x (skipn (i - (length before + n)) after))
        by (rewrite Esk; now left).
      apply In_skipn in Hin. rewrite Forall_forall in Hafter. now apply Hafter. }
    simpl. now rewrite (space_not_colon x Hx).
Qed.

Lemma closing_colons_inside (d : nat) :
  (d <= n)%nat ->
  (length (takeWhile isColon (skipn (length before + d) s)) <= n - d)%nat.
Proof.
  intros Hd. unfold s. rewrite skipn_app_plus.
  replace (repeat 58%N n) with (repeat 58%N d ++ repeat 58%N (n - d))
    by (rewrite <- repeat_app; f_equal; lia).
  rewrite <- app_assoc.
  rewrite skipn_app_len by now rewrite repeat_length.
  rewrite takeWhile_app_stop.
  - now rewrite repeat_length.
  - apply Forall_colon_repeat.
  - destruct after as [|x t]; [exact I|].
    apply space_not_colon. now apply Forall_cons_iff in Hafter.
Qed.

Lemma matchAt_reRangeClosing_outside (i : nat) :
  (i < length before \/ length before + n <= i)%nat ->
  matchAt reRangeClosing s i = None.
Proof.
  intros Hi. unfold matchAt, reRangeClosing. rewrite run_Seq, run_Grp.
  apply run_Rep_none. intros j Hj.
  rewrite (closing_no_colon_at i Hi) in Hj. simpl in Hj. lia.
Qed.

(** With nothing after the colons, the pattern matches the colon run. *)
Lemma exec_reRangeClosing_at_end :
  after = [] ->
  exec reRangeClosing s
  = Some (MatchResult s (length before) (length before + n)
            [(1, (length before, length before + n))]%nat).
Proof.
  intros Hnil. unfold exec.
  apply (searchFrom_skip reRangeClosing s (length before)).
  - unfold matchAt, reRangeClosing. rewrite run_Seq, run_Grp.
    apply run_Rep_greedy; rewrite closing_colons_at, repeat_length; [exact Hn|].
    rewrite run_Eol, closing_length, Hnil. simpl length.
    rewrite Nat.add_0_r, Nat.eqb_refl. reflexivity.
  - rewrite closing_length. lia.
  - intros i Hi. apply matchAt_reRangeClosing_outside. lia.
Qed.

(** With white space after the colons, the pattern matches nowhere. *)
Lemma exec_reRangeClosing_trailing :
  after <> [] -> exec reRangeClosing s = None.
Proof.
  intros Hne. unfold exec. apply searchFrom_none. intros i _.
  destruct (Nat.lt_ge_cases i (length before)) as [Hlo|Hlo];
    [apply matchAt_reRangeClosing_outside; now left|].
  destruct (Nat.lt_ge_cases i (length before + n)) as [Hhi|Hhi];
    [|apply matchAt_reRangeClosing_outside; now right].
  unfold matchAt, reRangeClosing. rewrite run_Seq, run_Grp.
  apply run_Rep_none. intros j Hj. rewrite run_Eol.
  pose proof (closing_colons_inside (i - length before) ltac:(lia)) as Hrun.
  replace (length before + (i - length before))%nat with i in Hrun by lia.
  assert (Hlen : (i + j < length s)%nat).
  { rewrite closing_length. destruct after; [congruence|simpl; lia]. }
  destruct (Nat.eqb_spec (i + j) (length s)); [lia|reflexivity].
Qed.

(** The range of the closing bracket of a line that ends with the colon
    run is the colon run. *)
Lemma createBracketRange_closing_at_end
      (document : TextDocument) (lineNumber count : Z) :
  after = [] ->
  getLine document lineNumber = Ret s ->
  createBracketRange document (BracketBlock.mk lineNumber count false None)
  = Ret {| startLine := lineNumber; startColumn := len before;
           endLine := lineNumber; endColumn := len before + Z.of_nat n |}.
Proof.
  intros Hnil Hget. unfold createBracketRange.
  cbn [BracketBlock.line BracketBlock.isOpening].
  rewrite Hget. cbn [bind].
  rewrite (exec_reRangeClosing_at_end Hnil).
  unfold whole. cbn [input index lastIndex].
  assert (Hs : s = before ++ repeat 58%N n)
    by (unfold s; now rewrite Hnil, app_nil_r).
  assert (Hwhole : substring s (length before) (length before + n) = repeat 58%N n).
  { unfold substring. replace (length before + n - length before)%nat with n by lia.
    rewrite Hs, skipn_app_exact.
    apply firstn_all2. now rewrite repeat_length. }
  rewrite Hwhole. unfold lastIndexOf. rewrite Hs.
  rewrite lastIndexOfFrom_suffix by (destruct n; [lia|discriminate]).
  replace (len (repeat 58%N n)) with (Z.of_nat n)
    by (unfold len; now rewrite repeat_length).
  reflexivity.
Qed.

(** The range of the closing bracket of a line that has white space after
    the colon run is the whole line. *)
Lemma createBracketRange_closing_trailing
      (document : TextDocument) (lineNumber count : Z) :
  after <> [] ->
  getLine document lineNumber = Ret s ->
  createBracketRange document (BracketBlock.mk lineNumber count false None)
  = Ret {| startLine := lineNumber; startColumn := 0;
           endLine := lineNumber; endColumn := len s |}.
Proof.
  intros Hne Hget. unfold createBracketRange.
  cbn [BracketBlock.line BracketBlock.isOpening].
  rewrite Hget. cbn [bind].
  now rewrite (exec_reRangeClosing_trailing Hne).
Qed.
End ClosingLine.

(** ** The scanner on a line made of colons between white space *)

Lemma dropWhile_app_stop {A} (p : A -> bool) (a b : list A) :
  Forall (fun x => p x = true) a ->
  match b with [] => True | x :: _ => p x = false end ->
  dropWhile p (a ++ b) = b.
Proof.
  intros Ha Hb. induction Ha as [|x a Hx Ha IH]; simpl.
  - destruct b as [|y b]; simpl; [reflexivity|]. now rewrite Hb.
  - now rewrite Hx.
Qed.

Lemma rev_repeat {A} (c : A) (n : nat) : rev (repeat c n) = repeat c n.
Proof.
  induction n as [|n IH]; [reflexivity|].
  simpl. rewrite IH. symmetry. apply repeat_cons.
Qed.

Lemma trim_colons (before after : jsstring) (n : nat) :
  Forall (fun x => isWhiteSpace x = true) before ->
  Forall (fun x => isWhiteSpace x = true) after ->
  (1 <= n)%nat ->
  trim (before ++ repeat 58%N n ++ after) = repeat 58%N n.
Proof.
  intros Hb Ha Hn. unfold trim.
  rewrite (dropWhile_app_stop isWhiteSpace before);
    [|assumption|destruct n; [lia|reflexivity]].
  rewrite rev_app_distr, rev_repeat.
  rewrite (dropWhile_app_stop isWhiteSpace (rev after)).
  - apply rev_repeat.
  - now apply Forall_rev.
  - destruct n; [lia|reflexivity].
Qed.

Lemma takeWhile_none_on_colons (p : codeunit -> bool) (n j : nat) :
  p 58%N = false -> takeWhile p (skipn j (repeat 58%N n)) = [].
Proof.
  intros Hp.
  destruct (skipn j (repeat 58%N n)) as [|x t] eqn:E; [reflexivity|].
  assert (Hin : In x (repeat 58%N n))
    by (apply (In_skipn x j); rewrite E; now left).
  apply repeat_spec in Hin. subst x. simpl. now rewrite Hp.
Qed.

Lemma takeWhile_colon_repeat (n : nat) :
  takeWhile isColon (repeat 58%N n) = repeat 58%N n.
Proof.
  rewrite <- (app_nil_r (repeat 58%N n)) at 1.
  apply takeWhile_app_stop; [apply Forall_colon_repeat|exact I].
Qed.

Lemma test_reFence_colons (n : nat) : test reFence (repeat 58%N n) = false.
Proof.
  unfold test, reFence. rewrite exec_Bol. unfold matchAt.
  rewrite run_Seq, run_Bol, run_Seq. cbn [Nat.eqb].
  rewrite run_Rep_none; [reflexivity|].
  intros j Hj. rewrite run_Alt.
  rewrite run_Rep_none.
  - apply run_Rep_none. intros j2 Hj2.
    rewrite (takeWhile_none_on_colons isTilde n _ eq_refl) in Hj2. simpl in Hj2. lia.
  - intros j2 Hj2.
    rewrite (takeWhile_none_on_colons isBacktick n _ eq_refl) in Hj2. simpl in Hj2. lia.
Qed.

Lemma exec_reScanOpening_colons (n : nat) : exec reScanOpening (repeat 58%N n) = None.
Proof.
  unfold reScanOpening. rewrite exec_Bol. unfold matchAt.
  rewrite run_Seq, run_Bol, run_Seq, run_Grp. cbn [Nat.eqb].
  apply run_Rep_none. intros j Hj. rewrite run_Grp.
  apply run_Rep_none. intros j2 Hj2.
  rewrite (takeWhile_none_on_colons isWordOrHyphen n _ eq_refl) in Hj2.
  simpl in Hj2. lia.
Qed.

Lemma exec_reScanClosing_colons (n : nat) :
  (2 <= n)%nat ->
  exec reScanClosing (repeat 58%N n)
  = Some (MatchResult (repeat 58%N n) 0 n [(1, (0, n))]%nat).
Proof.
  intros Hn. unfold reScanClosing. apply exec_first. unfold matchAt.
  rewrite run_Seq, run_Bol, run_Seq, run_Grp. cbn [Nat.eqb].
  apply run_Rep_greedy; simpl skipn;
    rewrite takeWhile_colon_repeat, repeat_length; [exact Hn|].
  rewrite run_Eol, repeat_length. simpl Nat.add. now rewrite Nat.eqb_refl.
Qed.

(** Outside a code block, a line of [n >= 2] colons between white space
    gives the scanner a closing bracket of [n] colons. *)
Lemma scanLine_closing_line
      (lineNumber : Z) (before after : jsstring) (n : nat)
      (brackets : list BracketBlock) :
  Forall (fun x => isWhiteSpace x = true) before ->
  Forall (fun x => isWhiteSpace x = true) after ->
  (2 <= n)%nat ->
  scanLine lineNumber (before ++ repeat 58%N n ++ after) (brackets, false)
  = (brackets ++ [BracketBlock.mk lineNumber (Z.of_nat n) false None], false).
Proof.
  intros Hb Ha Hn. unfold scanLine.
  rewrite (trim_colons before after n Hb Ha) by lia.
  rewrite test_reFence_colons, exec_reScanOpening_colons.
  rewrite (exec_reScanClosing_colons n Hn).
  unfold group. cbn [caps lookup Nat.eqb input].
  unfold substring. simpl skipn. rewrite Nat.sub_0_r.
  rewrite firstn_all2 by now rewrite repeat_length.
  unfold len. now rewrite repeat_length.
Qed.

(** On every such line with white space after the colons, the scanner
    gives a closing bracket and the range builder gives it the whole
    line. *)
Lemma closing_line_with_trailing_space
      (document : TextDocument) (lineNumber : Z)
      (before after : jsstring) (n : nat) (brackets : list BracketBlock) :
  Forall (fun x => isWhiteSpace x = true) before ->
  Forall (fun x => isWhiteSpace x = true) after ->
  (2 <= n)%nat ->
  after <> [] ->
  getLine document lineNumber = Ret (before ++ repeat 58%N n ++ after) ->
  exists b,
    scanLine lineNumber (before ++ repeat 58%N n ++ after) (brackets, false)
    = (brackets ++ [b], false)
    /\ createBracketRange document b
       = Ret {| startLine := lineNumber; startColumn := 0;
                endLine := lineNumber;
                endColumn := len (before ++ repeat 58%N n ++ after) |}.
Proof.
  intros Hb Ha Hn Hne Hget.
  exists (BracketBlock.mk lineNumber (Z.of_nat n) false None). split.
  - now apply scanLine_closing_line.
  - now apply createBracketRange_closing_trailing.
Qed.

(* ================================================================== *)
(** * Further properties of the code *)

(** ** More on lists *)

Lemma takeWhile_dropWhile {A} (p : A -> bool) (l : list A) :
  takeWhile p l ++ dropWhile p l = l.
Proof.
  induction l as [|x l IH]; simpl; [reflexivity|].
  destruct (p x); simpl; [now rewrite IH|reflexivity].
Qed.

Lemma skipn_takeWhile {A} (p : A -> bool) (l : list A) :
  skipn (length (takeWhile p l)) l = dropWhile p l.
Proof.
  induction l as [|x l IH]; simpl; [reflexivity|].
  destruct (p x); simpl; [exact IH|reflexivity].
Qed.

Lemma dropWhile_head {A} (p : A -> bool) (l : list A) :
  match dropWhile p l with [] => True | x :: _ => p x = false end.
Proof.
  induction l as [|x l IH]; simpl; [exact I|].
  destruct (p x) eqn:E; [exact IH|exact E].
Qed.

Lemma takeWhile_all {A} (p : A -> bool) (l : list A) :
  length (takeWhile p l) = length l -> Forall (fun x => p x = true) l.
Proof.
  induction l as [|x l IH]; simpl; intros H; [constructor|].
  destruct (p x) eqn:E; simpl in H; [|discriminate].
  constructor; [assumption|]. apply IH. lia.
Qed.

Lemma colons_are_repeat (l : jsstring) :
  Forall (fun x => isColon x = true) l -> l = repeat 58%N (length l).
Proof.
  induction 1 as [|x l Hx Hl IH]; simpl; [reflexivity|].
  rewrite <- IH. f_equal. now apply isColon_eq.
Qed.

Lemma takeWhile_head_false {A} (p : A -> bool) (l : list A) :
  match l with [] => True | x :: _ => p x = false end ->
  takeWhile p l = [].
Proof. destruct l as [|x l]; [reflexivity|]. simpl. now intros ->. Qed.

(** In a text cut after its leading [p]-run, a position inside the run
    starts with a character of [p]. *)
Lemma takeWhile_inside_run {A} (p q : A -> bool) (l : list A) (j : nat) :
  (forall x, p x = true -> q x = false) ->
  (j < length (takeWhile p l))%nat ->
  takeWhile q (skipn j l) = [].
Proof.
  intros Hpq Hj.
  destruct (skipn_takeWhile_head p l j Hj) as (x & t & -> & Hx).
  simpl. now rewrite (Hpq x Hx).
Qed.

(** ** The classifier on a line of colons between white space *)

Section ClosingCursor.
Variables (before : jsstring) (n : nat) (after : jsstring).
Hypothesis Hbefore : Forall (fun x => isWhiteSpace x = true) before.
Hypothesis Hafter : Forall (fun x => isWhiteSpace x = true) after.
Hypothesis Hn : (2 <= n)%nat.

Let s : jsstring := before ++ repeat 58%N n ++ after.

Lemma cursor_closing_space : takeWhile isWhiteSpace s = before.
Proof.
  apply takeWhile_app_stop; [exact Hbefore|].
  destruct n; [lia|reflexivity].
Qed.

Lemma cursor_closing_after_colons (d : nat) :
  (d <= n)%nat ->
  skipn (length before + d) s = repeat 58%N (n - d) ++ after.
Proof.
  intros Hd. unfold s. rewrite skipn_app_plus.
  replace (repeat 58%N n) with (repeat 58%N d ++ repeat 58%N (n - d))
    by (rewrite <- repeat_app; f_equal; lia).
  rewrite <- app_assoc. apply skipn_app_len. now rewrite repeat_length.
Qed.

Lemma cursor_closing_length : length s = (length before + n + length after)%nat.
Proof. unfold s. rewrite !length_app, repeat_length. apply Nat.add_assoc. Qed.

Lemma cursor_closing_colon_run :
  takeWhile isColon (skipn (length before) s) = repeat 58%N n.
Proof.
  unfold s. rewrite skipn_app_exact.
  apply takeWhile_app_stop; [apply Forall_colon_repeat|].
  destruct after as [|x t]; [exact I|].
  apply space_not_colon. now apply Forall_cons_iff in Hafter.
Qed.

(** The opening pattern of the classifier does not match such a line. *)
Lemma exec_reCursorOpening_closing_line : exec reCursorOpening s = None.
Proof.
  unfold reCursorOpening. rewrite exec_Bol. unfold matchAt.
  rewrite run_Seq, run_Bol, run_Seq. cbn [Nat.eqb].
  apply run_Rep_none. simpl skipn. rewrite cursor_closing_space.
  intros j Hj. simpl Nat.add. rewrite run_Seq, run_Grp.
  apply run_Rep_none. intros j2 Hj2.
  assert (j = length before /\ (j2 <= n)%nat) as [-> Hj2n].
  { destruct (Nat.eq_dec j (length before)) as [->|Hne].
    - split; [reflexivity|].
      rewrite cursor_closing_colon_run, repeat_length in Hj2. lia.
    - exfalso.
      rewrite (takeWhile_inside_run isWhiteSpace isColon s j space_not_colon) in Hj2.
      + simpl in Hj2. lia.
      + rewrite cursor_closing_space. lia. }
  rewrite run_Grp. apply run_Rep_none. intros j3 Hj3.
  rewrite (cursor_closing_after_colons j2 Hj2n) in Hj3.
  rewrite takeWhile_head_false in Hj3; [simpl in Hj3; lia|].
  destruct (n - j2)%nat; simpl; [|reflexivity].
  destruct after as [|x t]; [exact I|].
  apply Forall_cons_iff in Hafter. destruct Hafter as [Hx _].
  destruct (isWordOrHyphen x) eqn:E; [|reflexivity].
  now rewrite (word_not_space x E) in Hx.
Qed.

Lemma exec_reCursorClosing_shape :
  exec reCursorClosing s
  = Some (MatchResult s 0 (length s)
            [(1, (length before, length before + n))]%nat).
Proof.
  unfold reCursorClosing. apply exec_first. unfold matchAt.
  rewrite run_Seq, run_Bol, run_Seq. cbn [Nat.eqb].
  apply run_Rep_greedy; [lia|].
  simpl skipn. rewrite cursor_closing_space. simpl Nat.add.
  rewrite run_Seq, run_Grp.
  apply run_Rep_greedy;
    rewrite cursor_closing_colon_run, repeat_length; [exact Hn|].
  rewrite run_Seq.
  assert (Hrest : takeWhile isWhiteSpace (skipn (length before + n) s) = after).
  { rewrite (cursor_closing_after_colons n (le_n n)), Nat.sub_diag. simpl.
    rewrite <- (app_nil_r after) at 1.
    apply takeWhile_app_stop; [exact Hafter|exact I]. }
  apply run_Rep_greedy; rewrite Hrest; [lia|].
  rewrite run_Eol, cursor_closing_length, Nat.eqb_refl. reflexivity.
Qed.

(** What the classifier answers on such a line. *)
Lemma detect_closing_line (column : Z) :
  detectBracketAtPosition s column
  = if (len before <=? column) && (column <=? len before + Z.of_nat n)
    then Some (Z.of_nat n) else None.
Proof.
  unfold detectBracketAtPosition.
  rewrite exec_reCursorOpening_closing_line, exec_reCursorClosing_shape.
  unfold group, whole. cbn [caps lookup Nat.eqb input index lastIndex].
  assert (Hg : substring s (length before) (length before + n) = repeat 58%N n).
  { unfold substring. replace (length before + n - length before)%nat with n by lia.
    unfold s. rewrite skipn_app_exact.
    apply firstn_app_len. now rewrite repeat_length. }
  assert (Hw : substring s 0 (length s) = s).
  { unfold substring. simpl skipn. rewrite Nat.sub_0_r. now apply firstn_all2. }
  rewrite Hg, Hw.
  replace (len (repeat 58%N n)) with (Z.of_nat n)
    by (unfold len; now rewrite repeat_length).
  assert (Hi : indexOf s (repeat 58%N n) = len before).
  { destruct n as [|n'] eqn:En; [lia|].
    apply (indexOf_skip before (repeat 58%N (S n')) after 58%N (repeat 58%N n')).
    - reflexivity.
    - now apply Forall_space_not_colon. }
  rewrite Hi. change (Z.of_nat 0) with 0. rewrite Z.add_0_l, Z.geb_leb.
  reflexivity.
Qed.
End ClosingCursor.

(** X1. On a line made of white space, [n >= 2] colons and white space, the
    classifier answers the colon count exactly for the columns from the
    index of the first colon to the index just after the last colon, both
    included, and nothing for any other column. *)
Theorem detect_closing_span
  (before : jsstring) (n : nat) (after : jsstring) (column : Z) :
  Forall (fun x => isWhiteSpace x = true) before ->
  Forall (fun x => isWhiteSpace x = true) after ->
  (2 <= n)%nat ->
  let lineContent := before ++ repeat 58%N n ++ after in
  (len before <= column <= len before + Z.of_nat n ->
   detectBracketAtPosition lineContent column = Some (Z.of_nat n))
  /\ (column < len before \/ len before + Z.of_nat n < column ->
      detectBracketAtPosition lineContent column = None).
Proof.
  intros Hb Ha Hn lineContent. unfold lineContent.
  rewrite (detect_closing_line before n after Hb Ha Hn column).
  split; intros H.
  - destruct (Z.leb_spec (len before) column); [|lia].
    destruct (Z.leb_spec column (len before + Z.of_nat n)); [|lia].
    reflexivity.
  - destruct (Z.leb_spec (len before) column); [|reflexivity].
    destruct (Z.leb_spec column (len before + Z.of_nat n)); [lia|].
    reflexivity.
Qed.

(** The line [  :::  ], just after the colons and one column further. *)
Lemma detect_closing_span_witness :
  Forall (fun x => isWhiteSpace x = true) (js "  ")
  /\ (2 <= 3)%nat
  /\ detectBracketAtPosition (js "  :::  ") 5 = Some 3
  /\ detectBracketAtPosition (js "  :::  ") 6 = None.
Proof.
  assert (Hws : Forall (fun x => isWhiteSpace x = true) (js "  "))
    by (repeat constructor).
  split; [exact Hws|]. split; [lia|].
  destruct (detect_closing_span (js "  ") 3 (js "  ") 5 Hws Hws
              ltac:(lia)) as [Hin _].
  destruct (detect_closing_span (js "  ") 3 (js "  ") 6 Hws Hws
              ltac:(lia)) as [_ Hout].
  split.
  - apply Hin. vm_compute. split; discriminate.
  - apply Hout. right. vm_compute. reflexivity.
Defined.

(** ** The lines that the patterns of the classifier match *)

Lemma run_Rep_zero (s : jsstring) (A : Type) cls pos c
      (k : nat -> captures -> option A) :
  takeWhile cls (skipn pos s) = [] ->
  run s A (Rep cls 0) pos c k = k (pos + 0)%nat c.
Proof.
  intros H. cbn [run]. rewrite H. simpl.
  now destruct (k (pos + 0)%nat c).
Qed.

(** A line that the opening pattern of the classifier matches is white
    space, two or more colons, a name, and a rest that does not continue
    the name. *)
Lemma exec_reCursorOpening_decompose (s : jsstring) (m : matchResult) :
  exec reCursorOpening s = Some m ->
  exists ws n name rest,
    s = ws ++ repeat 58%N n ++ name ++ rest
    /\ Forall (fun x => isWhiteSpace x = true) ws
    /\ (2 <= n)%nat
    /\ name <> []
    /\ Forall (fun x => isWordOrHyphen x = true) name
    /\ match rest with [] => True | x :: _ => isWordOrHyphen x = false end.
Proof.
  unfold reCursorOpening. rewrite exec_Bol. unfold matchAt.
  rewrite run_Seq, run_Bol, run_Seq. cbn [Nat.eqb]. intros H.
  apply run_Rep_inv in H. destruct H as (j & Hj & H).
  simpl skipn in Hj. simpl Nat.add in H.
  rewrite run_Seq, run_Grp in H.
  apply run_Rep_inv in H. destruct H as (j2 & Hj2 & H).
  rewrite run_Grp in H.
  apply run_Rep_inv in H. destruct H as (j3 & Hj3 & _).
  assert (Ej : j = length (takeWhile isWhiteSpace s)).
  { destruct (Nat.eq_dec j (length (takeWhile isWhiteSpace s))); [assumption|].
    exfalso.
    rewrite (takeWhile_inside_run isWhiteSpace isColon s j space_not_colon) in Hj2
      by lia.
    simpl in Hj2. lia. }
  subst j. rewrite skipn_takeWhile in Hj2.
  set (t := dropWhile isWhiteSpace s) in *.
  assert (Ej2 : j2 = length (takeWhile isColon t)).
  { destruct (Nat.eq_dec j2 (length (takeWhile isColon t))); [assumption|].
    exfalso.
    rewrite Nat.add_comm, <- skipn_skipn, skipn_takeWhile in Hj3. fold t in Hj3.
    rewrite (takeWhile_inside_run isColon isWordOrHyphen t j2 colon_not_word) in Hj3
      by lia.
    simpl in Hj3. lia. }
  subst j2.
  rewrite Nat.add_comm, <- skipn_skipn, skipn_takeWhile in Hj3. fold t in Hj3.
  rewrite skipn_takeWhile in Hj3.
  set (u := dropWhile isColon t) in *.
  exists (takeWhile isWhiteSpace s), (length (takeWhile isColon t)),
         (takeWhile isWordOrHyphen u), (dropWhile isWordOrHyphen u).
  split.
  - transitivity (takeWhile isWhiteSpace s ++ t);
      [symmetry; apply takeWhile_dropWhile|]. f_equal.
    transitivity (takeWhile isColon t ++ u);
      [symmetry; apply takeWhile_dropWhile|]. f_equal.
    + apply colons_are_repeat, takeWhile_Forall.
    + symmetry. apply takeWhile_dropWhile.
  - split; [apply takeWhile_Forall|]. split; [lia|]. split.
    + intros E. rewrite E in Hj3. simpl in Hj3. lia.
    + split; [apply takeWhile_Forall|apply dropWhile_head].
Qed.

(** A line that the closing pattern of the classifier matches is white
    space, two or more colons, and white space. *)
Lemma exec_reCursorClosing_decompose (s : jsstring) (m : matchResult) :
  exec reCursorClosing s = Some m ->
  exists before n after,
    s = before ++ repeat 58%N n ++ after
    /\ Forall (fun x => isWhiteSpace x = true) before
    /\ Forall (fun x => isWhiteSpace x = true) after
    /\ (2 <= n)%nat.
Proof.
  unfold reCursorClosing. rewrite exec_Bol. unfold matchAt.
  rewrite run_Seq, run_Bol, run_Seq. cbn [Nat.eqb]. intros H.
  apply run_Rep_inv in H. destruct H as (j & Hj & H).
  simpl skipn in Hj. simpl Nat.add in H.
  rewrite run_Seq, run_Grp in H.
  apply run_Rep_inv in H. destruct H as (j2 & Hj2 & H).
  rewrite run_Seq in H.
  apply run_Rep_inv in H. destruct H as (j3 & Hj3 & H).
  rewrite run_Eol in H.
  destruct (Nat.eqb_spec (j + j2 + j3) (length s)) as [Hend|]; [|discriminate].
  clear H.
  assert (Ej : j = length (takeWhile isWhiteSpace s)).
  { destruct (Nat.eq_dec j (length (takeWhile isWhiteSpace s))); [assumption|].
    exfalso.
    rewrite (takeWhile_inside_run isWhiteSpace isColon s j space_not_colon) in Hj2
      by lia.
    simpl in Hj2. lia. }
  subst j. rewrite skipn_takeWhile in Hj2.
  set (t := dropWhile isWhiteSpace s) in *.
  pose proof (takeWhile_dropWhile isWhiteSpace s) as Es. fold t in Es.
  pose proof (takeWhile_dropWhile isColon t) as Et.
  assert (Ej2 : j2 = length (takeWhile isColon t)).
  { destruct (Nat.eq_dec j2 (length (takeWhile isColon t))); [assumption|].
    exfalso.
    rewrite Nat.add_comm, <- skipn_skipn, skipn_takeWhile in Hj3. fold t in Hj3.
    rewrite (takeWhile_inside_run isColon isWhiteSpace t j2 colon_not_space) in Hj3
      by lia.
    simpl in Hj3.
    apply (f_equal (@length _)) in Es, Et. rewrite length_app in Es, Et. lia. }
  subst j2.
  rewrite Nat.add_comm, <- skipn_skipn, skipn_takeWhile in Hj3. fold t in Hj3.
  rewrite skipn_takeWhile in Hj3.
  set (u := dropWhile isColon t) in *.
  exists (takeWhile isWhiteSpace s), (length (takeWhile isColon t)), u.
  split.
  - transitivity (takeWhile isWhiteSpace s ++ t); [symmetry; exact Es|]. f_equal.
    transitivity (takeWhile isColon t ++ u); [symmetry; exact Et|]. f_equal.
    apply colons_are_repeat, takeWhile_Forall.
  - split; [apply takeWhile_Forall|]. split; [|lia].
    apply takeWhile_all.
    pose proof (takeWhile_length_le isWhiteSpace u).
    apply (f_equal (@length _)) in Es, Et. rewrite length_app in Es, Et.
    fold u in Et. lia.
Qed.

(** ** The scanner and the range builder on an opening line *)

Lemma dropWhile_app {A} (p : A -> bool) (a b : list A) :
  dropWhile p (a ++ b)
  = match dropWhile p a with
    | [] => dropWhile p b
    | _ :: _ => dropWhile p a ++ b
    end.
Proof.
  induction a as [|x a IH]; simpl; [now destruct (dropWhile p b)|].
  destruct (p x); [exact IH|reflexivity].
Qed.

(** [trim] leaves alone a text that neither starts nor ends with white
    space, and removes the white space around it. *)
Lemma trim_core (ws core tail : jsstring) (c : codeunit) :
  Forall (fun x => isWhiteSpace x = true) ws ->
  Forall (fun x => isWhiteSpace x = true) tail ->
  match core with [] => isWhiteSpace c = false | x :: _ => isWhiteSpace x = false end ->
  isWhiteSpace c = false ->
  trim (ws ++ (core ++ [c]) ++ tail) = core ++ [c].
Proof.
  intros Hws Htail Hhead Hc. unfold trim.
  rewrite (dropWhile_app_stop isWhiteSpace ws);
    [|assumption|destruct core; simpl; assumption].
  rewrite rev_app_distr, rev_app_distr. simpl.
  rewrite (dropWhile_app_stop isWhiteSpace (rev tail));
    [|now apply Forall_rev|exact Hc].
  change (c :: rev core) with ([c] ++ rev core).
  rewrite rev_app_distr, rev_involutive. reflexivity.
Qed.

Lemma test_reFence_colon_first (t : jsstring) : test reFence (58%N :: t) = false.
Proof.
  unfold test, reFence. rewrite exec_Bol. unfold matchAt.
  rewrite run_Seq, run_Bol, run_Seq. cbn [Nat.eqb].
  rewrite run_Rep_zero by reflexivity. simpl Nat.add.
  rewrite run_Alt.
  rewrite run_Rep_none; [rewrite run_Rep_none; [reflexivity|]|];
    intros j Hj; simpl in Hj; lia.
Qed.

Lemma exec_scan_as_cursor (s : jsstring) :
  takeWhile isWhiteSpace s = [] ->
  exec reScanOpening s = exec reCursorOpening s.
Proof.
  intros H. unfold reScanOpening, reCursorOpening. rewrite !exec_Bol.
  unfold matchAt. rewrite !run_Seq, !run_Bol. cbn [Nat.eqb].
  rewrite (run_Seq s _ (Rep isWhiteSpace 0)).
  now rewrite run_Rep_zero by exact H.
Qed.

Section OpeningScan.
Variables (ws : jsstring) (n : nat) (name rest : jsstring).
Hypothesis Hws : Forall (fun x => isWhiteSpace x = true) ws.
Hypothesis Hn : (2 <= n)%nat.
Hypothesis Hname : name <> [].
Hypothesis Hword : Forall (fun x => isWordOrHyphen x = true) name.
Hypothesis Hrest : match rest with [] => True | x :: _ => isWordOrHyphen x = false end.

Let s : jsstring := ws ++ repeat 58%N n ++ name ++ rest.

(** The trimmed line keeps the colons and the name, and a rest that still
    does not continue the name. *)
Lemma opening_trim :
  exists rest',
    trim s = repeat 58%N n ++ name ++ rest'
    /\ match rest' with [] => True | x :: _ => isWordOrHyphen x = false end.
Proof.
  unfold trim, s.
  rewrite (dropWhile_app_stop isWhiteSpace ws);
    [|assumption|destruct n; [lia|reflexivity]].
  destruct (exists_last Hname) as (name' & c & Ename).
  assert (Hc : isWhiteSpace c = false).
  { apply word_not_space. rewrite Forall_forall in Hword. apply Hword.
    rewrite Ename. apply in_or_app. right. now left. }
  replace (repeat 58%N n ++ name ++ rest)
    with (((repeat 58%N n ++ name') ++ [c]) ++ rest)
    by (rewrite Ename, <- !app_assoc; reflexivity).
  rewrite rev_app_distr, dropWhile_app.
  assert (Hstop : dropWhile isWhiteSpace (rev ((repeat 58%N n ++ name') ++ [c]))
                  = rev ((repeat 58%N n ++ name') ++ [c])).
  { rewrite rev_app_distr. simpl. now rewrite Hc. }
  match goal with
  | |- context [match ?dw with [] => _ | _ :: _ => _ end] =>
      destruct dw as [|y d] eqn:Ed
  end.
  - exists []. split; [|exact I].
    rewrite Hstop, rev_involutive.
    rewrite Ename, <- !app_assoc, app_nil_r. reflexivity.
  - exists (rev (y :: d)). split.
    + rewrite rev_app_distr, rev_involutive.
      rewrite Ename, <- !app_assoc. reflexivity.
    + pose proof (takeWhile_dropWhile isWhiteSpace (@rev N rest)) as Hsplit.
      rewrite Ed in Hsplit. apply (f_equal (@rev _)) in Hsplit.
      rewrite rev_app_distr, rev_involutive in Hsplit.
      destruct (rev (y :: d)) as [|x r] eqn:Er; [exact I|].
      rewrite <- Hsplit in Hrest. exact Hrest.
Qed.

(** Outside a code block, the scanner pushes the opening bracket of the
    line, with its colon count and its name. *)
Lemma scanLine_opening_line (lineNumber : Z) (brackets : list BracketBlock) :
  scanLine lineNumber s (brackets, false)
  = (brackets ++ [BracketBlock.mk lineNumber (Z.of_nat n) true (Some name)], false).
Proof.
  destruct opening_trim as (rest' & Etrim & Hrest').
  unfold scanLine. rewrite Etrim.
  assert (Efence : test reFence (repeat 58%N n ++ name ++ rest') = false)
    by (destruct n; [lia|apply test_reFence_colon_first]).
  rewrite Efence.
  rewrite exec_scan_as_cursor by (destruct n; [lia|reflexivity]).
  pose proof (exec_reCursorOpening_shape [] n name rest'
                (Forall_nil _) Hn Hname Hword Hrest') as Hshape.
  cbn [app length Nat.add] in Hshape. rewrite Hshape.
  unfold group. cbn [caps lookup Nat.eqb input].
  pose proof (opening_group1 [] n name rest') as H1.
  pose proof (opening_group2 [] n name rest') as H2.
  cbn [length Nat.add app] in H1, H2. rewrite H1, H2.
  unfold len. rewrite repeat_length. reflexivity. exact Hn. exact Hn.
Qed.

Lemma opening_range_match :
  exec reRangeOpening s
  = Some (MatchResult s (length ws) (length ws + n + length name)
            [(2, (length ws + n, length ws + n + length name));
             (1, (length ws, length ws + n))]%nat).
Proof.
  unfold exec, s.
  apply (searchFrom_skip reRangeOpening _ (length ws)).
  - unfold matchAt, reRangeOpening. rewrite run_Seq, run_Grp.
    apply run_Rep_greedy;
      rewrite (opening_skip_ws ws n name rest),
              (opening_takeWhile_colon ws n name rest Hname Hword), repeat_length;
      [exact Hn|].
    rewrite run_Grp.
    apply run_Rep_greedy;
      rewrite (opening_skip_colons ws n name rest),
              (opening_takeWhile_word name rest Hword Hrest).
    + destruct name; [congruence|simpl; lia].
    + reflexivity.
  - rewrite !length_app. lia.
  - intros i Hi. unfold matchAt, reRangeOpening. rewrite run_Seq, run_Grp.
    apply run_Rep_none. intros j Hj.
    rewrite (takeWhile_inside_run isWhiteSpace isColon _ i space_not_colon) in Hj.
    + simpl in Hj. lia.
    + rewrite (opening_takeWhile_space ws n name rest Hws Hn). lia.
Qed.

(** The range of the opening bracket of the line goes from the first
    colon to the end of the name. *)
Lemma createBracketRange_opening_line
      (document : TextDocument) (lineNumber count : Z) (tag : option jsstring) :
  getLine document lineNumber = Ret s ->
  createBracketRange document (BracketBlock.mk lineNumber count true tag)
  = Ret {| startLine := lineNumber; startColumn := len ws;
           endLine := lineNumber;
           endColumn := len ws + Z.of_nat n + len name |}.
Proof.
  intros Hget. unfold createBracketRange.
  cbn [BracketBlock.line BracketBlock.isOpening]. rewrite Hget. cbn [bind].
  rewrite opening_range_match. unfold whole. cbn [input index lastIndex].
  assert (Hwhole : substring s (length ws) (length ws + n + length name)
                   = repeat 58%N n ++ name).
  { unfold substring, s. rewrite (opening_skip_ws ws n name rest).
    replace (length ws + n + length name - length ws)%nat
      with (length (repeat 58%N n ++ name))
      by (rewrite length_app, repeat_length; unfold jsstring, codeunit; lia).
    rewrite app_assoc. apply firstn_app_exact. }
  rewrite Hwhole.
  assert (Hidx : indexOf s (repeat 58%N n ++ name) = len ws).
  { unfold s.
    replace (ws ++ repeat 58%N n ++ name ++ rest)
      with (ws ++ (repeat 58%N n ++ name) ++ rest)
      by (now rewrite <- app_assoc).
    apply (indexOf_skip ws (repeat 58%N n ++ name) rest 58%N
             (repeat 58%N (n - 1) ++ name)).
    - replace n with (S (n - 1)) at 1 by lia. reflexivity.
    - now apply Forall_space_not_colon. }
  rewrite Hidx.
  replace (len (repeat 58%N n ++ name)) with (Z.of_nat n + len name)
    by (unfold len; rewrite length_app, repeat_length;
        unfold jsstring, codeunit; lia).
  now rewrite Z.add_assoc.
Qed.
End OpeningScan.

(** ** The classifier and the scanner on the same line *)

(** A line on which the classifier answers is a line for which the scanner,
    outside a code block, pushes a bracket of the same colon count. *)
Lemma detect_some_token (s : jsstring) (column k : Z) :
  detectBracketAtPosition s column = Some k ->
  forall (lineNumber : Z) (brackets : list BracketBlock),
  exists b,
    scanLine lineNumber s (brackets, false) = (brackets ++ [b], false)
    /\ BracketBlock.line b = lineNumber
    /\ BracketBlock.colonCount b = k.
Proof.
  intros H lineNumber brackets.
  destruct (exec reCursorOpening s) as [mo|] eqn:Eo.
  - destruct (exec_reCursorOpening_decompose s mo Eo)
      as (ws & n & name & rest & -> & Hws & Hn & Hname & Hword & Hrest).
    rewrite (detect_opening_line ws n name rest Hws Hn Hname Hword Hrest) in H.
    destruct ((len ws <=? column) && (column <=? len ws + Z.of_nat n + len name));
      [|discriminate].
    injection H as <-.
    exists (BracketBlock.mk lineNumber (Z.of_nat n) true (Some name)).
    split; [now apply scanLine_opening_line|now split].
  - destruct (exec reCursorClosing s) as [mc|] eqn:Ec.
    + destruct (exec_reCursorClosing_decompose s mc Ec)
        as (before & n & after & -> & Hb & Ha & Hn).
      rewrite (detect_closing_line before n after Hb Ha Hn) in H.
      destruct ((len before <=? column) && (column <=? len before + Z.of_nat n));
        [|discriminate].
      injection H as <-.
      exists (BracketBlock.mk lineNumber (Z.of_nat n) false None).
      split; [now apply scanLine_closing_line|now split].
    + unfold detectBracketAtPosition in H. rewrite Eo, Ec in H. discriminate.
Qed.

Lemma detect_some_colonRun (s : jsstring) (column k : Z) :
  detectBracketAtPosition s column = Some k -> k = colonRun s /\ 2 <= k.
Proof.
  intros H.
  destruct (detect_some_token s column k H 0 []) as (b & Hscan & _ & Hk).
  destruct (scanLine_brackets 0 s ([], false)) as [Hsame | (b' & Hb' & _ & Hrun & Htwo)].
  - rewrite Hscan in Hsame. discriminate.
  - rewrite Hscan in Hb'. simpl in Hb'. injection Hb' as <-.
    rewrite <- Hk. now split.
Qed.

(** X2. When the classifier answers a colon count for some column of a
    line, that count is the number of colons the trimmed line starts with,
    it is at least 2, and the scanner, outside a code block, pushes exactly
    one bracket for that line, with that colon count. *)
Theorem classifier_agrees_with_scanner
  (lineContent : jsstring) (column k : Z)
  (lineNumber : Z) (brackets : list BracketBlock) :
  detectBracketAtPosition lineContent column = Some k ->
  k = colonRun lineContent
  /\ 2 <= k
  /\ exists b,
       scanLine lineNumber lineContent (brackets, false) = (brackets ++ [b], false)
       /\ BracketBlock.line b = lineNumber
       /\ BracketBlock.colonCount b = k.
Proof.
  intros H. destruct (detect_some_colonRun _ _ _ H) as [Hrun Htwo].
  split; [exact Hrun|]. split; [exact Htwo|].
  exact (detect_some_token _ _ _ H lineNumber brackets).
Qed.

Lemma classifier_agrees_with_scanner_witness :
  detectBracketAtPosition (js "  :::alert ") 4 = Some 3
  /\ 3 = colonRun (js "  :::alert ")
  /\ 2 <= 3
  /\ exists b,
       scanLine 7 (js "  :::alert ") ([], false) = ([] ++ [b], false)
       /\ BracketBlock.line b = 7
       /\ BracketBlock.colonCount b = 3.
Proof.
  split; [reflexivity|].
  apply (classifier_agrees_with_scanner (js "  :::alert ") 4 3 7 []).
  reflexivity.
Defined.

(** X3. On a line whose trimmed text does not start with two colons, the
    classifier answers nothing at any column, and [findMatchingBrackets]
    returns [null] for every cursor of that line. *)
Theorem no_delimiter_no_match
  (document : TextDocument) (position : Position) (lineContent : jsstring) :
  getLine document (line position) = Ret lineContent ->
  colonRun lineContent < 2 ->
  detectBracketAtPosition lineContent (column position) = None
  /\ findMatchingBrackets document position = Ret None.
Proof.
  intros Hget Hrun.
  assert (Hnone : detectBracketAtPosition lineContent (column position) = None).
  { destruct (detectBracketAtPosition lineContent (column position)) as [k|] eqn:E;
      [|reflexivity].
    destruct (detect_some_colonRun _ _ _ E). lia. }
  split; [exact Hnone|].
  apply fmb_not_onDelimiter. unfold onDelimiter. now rewrite Hget, Hnone.
Qed.

(** The line [Some content: here] of a document. *)
Lemma no_delimiter_no_match_witness :
  let document := createDocument (map js ["::card"; "Some content: here"; "::"]%string) in
  getLine document 1 = Ret (js "Some content: here")
  /\ colonRun (js "Some content: here") < 2
  /\ detectBracketAtPosition (js "Some content: here") 12 = None
  /\ findMatchingBrackets document {| line := 1; column := 12 |} = Ret None.
Proof.
  intros document.
  assert (Hget : getLine document (line {| line := 1; column := 12 |})
                 = Ret (js "Some content: here")) by reflexivity.
  assert (Hrun : colonRun (js "Some content: here") < 2) by reflexivity.
  split; [exact Hget|]. split; [exact Hrun|].
  exact (no_delimiter_no_match document {| line := 1; column := 12 |} _ Hget Hrun).
Defined.

(** X4. Outside a code block, a line made of white space, [n >= 2] colons,
    a name, and a rest that does not continue the name gives the scanner
    one opening bracket, with the colon count [n] and the name as
    [tagName]; and the range builder gives that bracket the range from the
    first colon to the end of the name, which leaves the indentation
    out. *)
Theorem opening_line_token_and_range
  (document : TextDocument) (lineNumber : Z) (brackets : list BracketBlock)
  (ws : jsstring) (n : nat) (name rest : jsstring) :
  Forall (fun x => isWhiteSpace x = true) ws ->
  (2 <= n)%nat ->
  name <> [] ->
  Forall (fun x => isWordOrHyphen x = true) name ->
  match rest with [] => True | x :: _ => isWordOrHyphen x = false end ->
  let lineContent := ws ++ repeat 58%N n ++ name ++ rest in
  let b := BracketBlock.mk lineNumber (Z.of_nat n) true (Some name) in
  getLine document lineNumber = Ret lineContent ->
  scanLine lineNumber lineContent (brackets, false) = (brackets ++ [b], false)
  /\ createBracketRange document b
     = Ret {| startLine := lineNumber; startColumn := len ws;
              endLine := lineNumber;
              endColumn := len ws + Z.of_nat n + len name |}.
Proof.
  intros Hws Hn Hname Hword Hrest lineContent b Hget. split.
  - now apply scanLine_opening_line.
  - now apply (createBracketRange_opening_line ws n name rest).
Qed.

(** The line [  ::card{#x}  ] of a document. *)
Lemma opening_line_token_and_range_witness :
  let document := createDocument (map js ["  ::card{#x}  "; "text"; "  ::"]%string) in
  let b := BracketBlock.mk 0 2 true (Some (js "card")) in
  Forall (fun x => isWhiteSpace x = true) (js "  ")
  /\ (2 <= 2)%nat
  /\ js "card" <> []
  /\ Forall (fun x => isWordOrHyphen x = true) (js "card")
  /\ isWordOrHyphen 123%N = false
  /\ getLine document 0 = Ret (js "  " ++ repeat 58%N 2 ++ js "card" ++ js "{#x}  ")
  /\ scanLine 0 (js "  ::card{#x}  ") ([], false) = ([] ++ [b], false)
  /\ createBracketRange document b
     = Ret {| startLine := 0; startColumn := 2; endLine := 0; endColumn := 8 |}.
Proof.
  intros document b.
  assert (Hws : Forall (fun x => isWhiteSpace x = true) (js "  "))
    by (repeat constructor).
  assert (Hword : Forall (fun x => isWordOrHyphen x = true) (js "card"))
    by (repeat constructor).
  assert (Hname : js "card" <> []) by discriminate.
  assert (Hget : getLine document 0
                 = Ret (js "  " ++ repeat 58%N 2 ++ js "card" ++ js "{#x}  "))
    by reflexivity.
  split; [exact Hws|]. split; [lia|]. split; [exact Hname|].
  split; [exact Hword|]. split; [reflexivity|]. split; [exact Hget|].
  exact (opening_line_token_and_range document 0 [] (js "  ") 2 (js "card")
           (js "{#x}  ") Hws (le_n 2) Hname Hword eq_refl Hget).
Defined.

(** X5. Outside a code block, a line made of white space and [n >= 2]
    colons at its end gives the scanner one closing bracket of [n] colons,
    and the range builder gives that bracket the range of the colons. *)
Theorem closing_line_token_and_range
  (document : TextDocument) (lineNumber : Z) (brackets : list BracketBlock)
  (before : jsstring) (n : nat) :
  Forall (fun x => isWhiteSpace x = true) before ->
  (2 <= n)%nat ->
  let lineContent := before ++ repeat 58%N n in
  let b := BracketBlock.mk lineNumber (Z.of_nat n) false None in
  getLine document lineNumber = Ret lineContent ->
  scanLine lineNumber lineContent (brackets, false) = (brackets ++ [b], false)
  /\ createBracketRange document b
     = Ret {| startLine := lineNumber; startColumn := len before;
              endLine := lineNumber; endColumn := len before + Z.of_nat n |}.
Proof.
  intros Hb Hn lineContent b Hget. unfold lineContent in *.
  rewrite <- (app_nil_r (repeat 58%N n)) in *. split.
  - now apply scanLine_closing_line.
  - now apply (createBracketRange_closing_at_end before n []).
Qed.

(** The line [    :::] of a document. *)
Lemma closing_line_token_and_range_witness :
  let document := createDocument (map js [":::a"; "    :::"]%string) in
  let b := BracketBlock.mk 1 3 false None in
  Forall (fun x => isWhiteSpace x = true) (js "    ")
  /\ (2 <= 3)%nat
  /\ getLine document 1 = Ret (js "    " ++ repeat 58%N 3)
  /\ scanLine 1 (js "    :::") ([], false) = ([] ++ [b], false)
  /\ createBracketRange document b
     = Ret {| startLine := 1; startColumn := 4; endLine := 1; endColumn := 7 |}.
Proof.
  intros document b.
  assert (Hws : Forall (fun x => isWhiteSpace x = true) (js "    "))
    by (repeat constructor).
  assert (Hget : getLine document 1 = Ret (js "    " ++ repeat 58%N 3))
    by reflexivity.
  split; [exact Hws|]. split; [lia|]. split; [exact Hget|].
  exact (closing_line_token_and_range document 1 [] (js "    ") 3
           Hws ltac:(lia) Hget).
Defined.

(** ** What the scanner keeps *)

(** X6. The brackets of a scan are in strictly increasing order of their
    lines, which are lines of the document; each has at least two colons,
    and its colon count is the number of colons that its line starts with
    once trimmed. *)
Theorem scanner_brackets_invariant
  (document : TextDocument) (brackets : list BracketBlock) :
  scanAllBrackets document = Ret brackets ->
  ascending brackets
  /\ forall b, In b brackets ->
       0 <= BracketBlock.line b < lineCount document
       /\ 2 <= BracketBlock.colonCount b
       /\ exists lineContent,
            getLine document (BracketBlock.line b) = Ret lineContent
            /\ BracketBlock.colonCount b = colonRun lineContent.
Proof.
  intros H. destruct (scanAllBrackets_scanned _ _ H) as [Hasc Hall].
  split; [exact Hasc|]. rewrite Forall_forall in Hall.
  intros b Hb. destruct (Hall b Hb) as (Hline & Htwo & Hrun).
  split; [lia|]. now split.
Qed.

Lemma scanner_brackets_invariant_witness :
  exists brackets,
    scanAllBrackets docNested = Ret brackets
    /\ ascending brackets
    /\ forall b, In b brackets ->
         0 <= BracketBlock.line b < lineCount docNested
         /\ 2 <= BracketBlock.colonCount b
         /\ exists lineContent,
              getLine docNested (BracketBlock.line b) = Ret lineContent
              /\ BracketBlock.colonCount b = colonRun lineContent.
Proof.
  eexists. split; [vm_compute; reflexivity|].
  apply (scanner_brackets_invariant docNested). vm_compute. reflexivity.
Defined.

Lemma scanLine_flag (lineNumber : Z) (lineContent : jsstring) (st : scanState) :
  snd (scanLine lineNumber lineContent st) = xorb (snd st) (isFenceLine lineContent).
Proof.
  destruct st as [brackets inside]. unfold scanLine, isFenceLine.
  destruct (test reFence (trim lineContent)).
  - simpl. now destruct inside.
  - destruct inside; simpl; [reflexivity|].
    destruct (exec reScanOpening (trim lineContent)); [reflexivity|].
    now destruct (exec reScanClosing (trim lineContent)).
Qed.

Lemma scanLine_skips (lineNumber : Z) (lineContent : jsstring) (st : scanState) :
  snd st = true \/ isFenceLine lineContent = true ->
  fst (scanLine lineNumber lineContent st) = fst st.
Proof.
  destruct st as [brackets inside]. unfold scanLine, isFenceLine. simpl.
  intros [-> | ->]; [|reflexivity].
  now destruct (test reFence (trim lineContent)).
Qed.

(** The brackets pushed so far come from lines outside the code blocks,
    and the flag of the scanner says whether the next line is inside
    one. *)
Lemma scanLoop_fences (document : TextDocument) (count : nat) :
  forall (k : nat) (st st' : scanState),
    scanLoop document count (Z.of_nat k) st = Ret st' ->
    snd st = insideFence document k ->
    Forall (fun b => exists j, BracketBlock.line b = Z.of_nat j
                               /\ insideFence document j = false
                               /\ insideFence document (S j) = false) (fst st) ->
    Forall (fun b => exists j, BracketBlock.line b = Z.of_nat j
                               /\ insideFence document j = false
                               /\ insideFence document (S j) = false) (fst st').
Proof.
  induction count as [|count IH]; intros k st st' Hrun Hflag Hall.
  - injection Hrun as <-. exact Hall.
  - cbn [scanLoop] in Hrun.
    destruct (getLine document (Z.of_nat k)) as [lc|] eqn:Hget; [|discriminate].
    simpl in Hrun.
    replace (Z.of_nat k + 1) with (Z.of_nat (S k)) in Hrun by lia.
    apply (IH (S k) _ _ Hrun).
    + rewrite scanLine_flag, Hflag. cbn [insideFence]. now rewrite Hget.
    + destruct (scanLine_brackets (Z.of_nat k) lc st)
        as [-> | (b & Hpush & Hline & _)]; [exact Hall|].
      rewrite Hpush. apply Forall_app. split; [exact Hall|].
      constructor; [|constructor].
      exists k. split; [exact Hline|].
      assert (Hout : snd st = false /\ isFenceLine lc = false).
      { destruct (snd st) eqn:Es.
        - rewrite scanLine_skips in Hpush by (now left).
          apply (f_equal (@length _)) in Hpush. rewrite length_app in Hpush.
          simpl in Hpush. lia.
        - destruct (isFenceLine lc) eqn:Ef; [|now split].
          rewrite scanLine_skips in Hpush by (now right).
          apply (f_equal (@length _)) in Hpush. rewrite length_app in Hpush.
          simpl in Hpush. lia. }
      destruct Hout as [Hs Hf]. rewrite Hflag in Hs.
      split; [exact Hs|]. cbn [insideFence]. now rewrite Hget, Hs, Hf.
Qed.

Lemma scanAllBrackets_fences (document : TextDocument) (brackets : list BracketBlock) :
  scanAllBrackets document = Ret brackets ->
  forall b, In b brackets ->
    exists j, BracketBlock.line b = Z.of_nat j
              /\ insideFence document j = false
              /\ insideFence document (S j) = false.
Proof.
  unfold scanAllBrackets. intros H.
  destruct (scanLoop document (Z.to_nat (lineCount document)) 0 ([], false))
    as [st|] eqn:Hrun; [|discriminate].
  simpl in H. injection H as <-.
  apply Forall_forall.
  apply (scanLoop_fences document _ 0%nat ([], false) st Hrun); [reflexivity|].
  constructor.
Qed.

(** X7. Every bracket of a scan comes from a line that is outside the code
    blocks and is not itself a fence marker: the number of fence markers
    above the line is even, and so is the number up to and including the
    line. Consequently a cursor on a line inside a code block gets
    [null]. *)
Theorem fenced_lines_give_no_bracket
  (document : TextDocument) (brackets : list BracketBlock) (position : Position) :
  scanAllBrackets document = Ret brackets ->
  (forall b, In b brackets ->
     insideFence document (Z.to_nat (BracketBlock.line b)) = false
     /\ insideFence document (S (Z.to_nat (BracketBlock.line b))) = false)
  /\ (0 <= line position ->
      insideFence document (Z.to_nat (line position)) = true ->
      findMatchingBrackets document position = Ret None).
Proof.
  intros Hscan. split.
  - intros b Hb.
    destruct (scanAllBrackets_fences _ _ Hscan b Hb) as (j & -> & H1 & H2).
    now rewrite Nat2Z.id.
  - intros Hpos Hin.
    destruct (onDelimiter document position) eqn:Hon;
      [|now apply fmb_not_onDelimiter].
    rewrite (fmb_onDelimiter _ _ Hon). unfold pairOfLine. rewrite Hscan. simpl.
    destruct (length brackets =? 0)%nat; [reflexivity|].
    destruct (findIndex (fun b => BracketBlock.line b =? line position) brackets)
      as [i|] eqn:Ei; [|reflexivity].
    exfalso. destruct (findIndex_some _ _ _ Ei) as (b & Hb & Hline).
    apply Z.eqb_eq in Hline. apply nth_error_In in Hb.
    destruct (scanAllBrackets_fences _ _ Hscan b Hb) as (j & Hj & H1 & _).
    rewrite <- Hline, Hj, Nat2Z.id in Hin. congruence.
Qed.

(** The fenced document: the delimiter of the line 2 is inside the code
    block. *)
Lemma fenced_lines_give_no_bracket_witness :
  exists brackets,
    scanAllBrackets docFenced = Ret brackets
    /\ (forall b, In b brackets ->
          insideFence docFenced (Z.to_nat (BracketBlock.line b)) = false
          /\ insideFence docFenced (S (Z.to_nat (BracketBlock.line b))) = false)
    /\ onDelimiter docFenced {| line := 2; column := 0 |} = true
    /\ insideFence docFenced 2 = true
    /\ findMatchingBrackets docFenced {| line := 2; column := 0 |} = Ret None.
Proof.
  eexists.
  assert (Hscan : scanAllBrackets docFenced
                  = Ret [BracketBlock.mk 0 2 true (Some (js "component"));
                         BracketBlock.mk 5 2 false None])
    by (vm_compute; reflexivity).
  destruct (fenced_lines_give_no_bracket docFenced _ {| line := 2; column := 0 |} Hscan)
    as [Hall Hnone].
  split; [exact Hscan|]. split; [exact Hall|].
  split; [reflexivity|]. split; [reflexivity|].
  apply Hnone; [simpl; lia|reflexivity].
Defined.

(** ** Documents without lines, and accessors that do not throw *)

(** X8. A document whose [lineCount] is zero or negative has no bracket,
    whatever its accessor does, and every query on it returns [null]. *)
Theorem empty_document_no_match (document : TextDocument) (position : Position) :
  lineCount document <= 0 ->
  scanAllBrackets document = Ret []
  /\ findMatchingBrackets document position = Ret None.
Proof.
  intros Hcount.
  assert (Hscan : scanAllBrackets document = Ret []).
  { unfold scanAllBrackets.
    replace (Z.to_nat (lineCount document)) with 0%nat by lia. reflexivity. }
  split; [exact Hscan|].
  destruct (onDelimiter document position) eqn:Hon;
    [|now apply fmb_not_onDelimiter].
  rewrite (fmb_onDelimiter _ _ Hon). unfold pairOfLine. now rewrite Hscan.
Qed.

Lemma empty_document_no_match_witness :
  let document := {| getLine := fun _ => Ret (js "::"); lineCount := 0 |} in
  lineCount document <= 0
  /\ onDelimiter document {| line := 0; column := 1 |} = true
  /\ scanAllBrackets document = Ret []
  /\ findMatchingBrackets document {| line := 0; column := 1 |} = Ret None.
Proof.
  intros document.
  assert (H : lineCount document <= 0) by (simpl; lia).
  split; [exact H|]. split; [reflexivity|].
  exact (empty_document_no_match document {| line := 0; column := 1 |} H).
Defined.

Lemma scanLoop_returns (document : TextDocument) (count : nat) :
  forall (lineNumber : Z) (st : scanState),
    (forall i, lineNumber <= i < lineNumber + Z.of_nat count ->
               getLine document i <> Throw) ->
    exists st', scanLoop document count lineNumber st = Ret st'.
Proof.
  induction count as [|count IH]; intros lineNumber st Hok.
  - now exists st.
  - cbn [scanLoop].
    destruct (getLine document lineNumber) as [lc|] eqn:Hget.
    + simpl. apply IH. intros i Hi. apply Hok. lia.
    + exfalso. apply (Hok lineNumber); [lia|assumption].
Qed.

(** X9. The accessor is the only source of faults: when it does not throw
    for the line of the cursor nor for any line of the document, the body
    of [findMatchingBrackets] does not throw, and the [catch] clause is not
    reached. *)
Theorem body_throws_only_by_accessor
  (document : TextDocument) (position : Position) :
  getLine document (line position) <> Throw ->
  (forall i, 0 <= i < lineCount document -> getLine document i <> Throw) ->
  findMatchingBracketsBody document position <> Throw
  /\ findMatchingBrackets document position
     = findMatchingBracketsBody document position.
Proof.
  intros Hcur Hall.
  assert (Hbody : findMatchingBracketsBody document position <> Throw).
  { rewrite body_gate.
    destruct (getLine document (line position)) as [lc|]; [|congruence].
    simpl. destruct (detectBracketAtPosition lc (column position));
      [|discriminate].
    unfold pairOfLine.
    destruct (scanAllBrackets document) as [brackets|] eqn:Hscan.
    - simpl. destruct (length brackets =? 0)%nat; [discriminate|].
      destruct (findIndex (fun b => BracketBlock.line b =? line position) brackets)
        as [i|] eqn:Ei; [|discriminate].
      destruct (findIndex_some _ _ _ Ei) as (cur & Hi & _). rewrite Hi.
      unfold findMatchingBracket. rewrite Hi.
      destruct (scanAllBrackets_scanned _ _ Hscan) as [_ Hsc].
      rewrite Forall_forall in Hsc.
      assert (Hrange : forall b, In b brackets ->
                exists r, createBracketRange document b = Ret r).
      { intros b Hb. destruct (Hsc b Hb) as (_ & _ & lc' & Hget & _).
        unfold createBracketRange. rewrite Hget. simpl.
        destruct (BracketBlock.isOpening b).
        - destruct (exec reRangeOpening lc'); eexists; reflexivity.
        - destruct (exec reRangeClosing lc'); eexists; reflexivity. }
      pose proof (nth_error_In _ _ Hi) as Hcurin.
      assert (Hpair : forall m, In m brackets ->
                (o <- createBracketRange document
                        (if BracketBlock.isOpening cur then cur else m) ;;
                 c <- createBracketRange document
                        (if BracketBlock.isOpening cur then m else cur) ;;
                 Ret (Some {| opening := o; closing := c;
                              colonCount := BracketBlock.colonCount cur |}))
                <> Throw).
      { intros m Hm.
        destruct (Hrange cur Hcurin) as (rc & Hrc).
        destruct (Hrange m Hm) as (rm & Hrm).
        destruct (BracketBlock.isOpening cur); rewrite ?Hrc, ?Hrm; simpl;
          rewrite ?Hrc, ?Hrm; discriminate. }
      destruct (BracketBlock.isOpening cur) eqn:Erole; cbn [bind].
      + destruct (forwardLoop (skipn (S i) brackets) [cur]) as [m|] eqn:Em;
          [|discriminate].
        apply (Hpair m).
        rewrite forwardLoop_search in Em. apply searchLoop_In in Em.
        now apply In_skipn in Em.
      + destruct (backwardLoop (rev (firstn i brackets)) [cur]) as [m|] eqn:Em;
          [|discriminate].
        apply (Hpair m).
        rewrite backwardLoop_search in Em. apply searchLoop_In in Em.
        apply in_rev in Em. now apply In_firstn in Em.
    - exfalso. unfold scanAllBrackets in Hscan.
      destruct (scanLoop_returns document (Z.to_nat (lineCount document)) 0
                  ([], false)) as (st & Hst).
      + intros i Hi. apply Hall. lia.
      + rewrite Hst in Hscan. discriminate. }
  split; [exact Hbody|].
  unfold findMatchingBrackets.
  destruct (findMatchingBracketsBody document position); [reflexivity|congruence].
Qed.

Lemma body_throws_only_by_accessor_witness :
  getLine docNested 1 <> Throw
  /\ (forall i, 0 <= i < lineCount docNested -> getLine docNested i <> Throw)
  /\ findMatchingBracketsBody docNested {| line := 1; column := 0 |} <> Throw
  /\ findMatchingBrackets docNested {| line := 1; column := 0 |}
     = findMatchingBracketsBody docNested {| line := 1; column := 0 |}.
Proof.
  assert (H1 : getLine docNested (line {| line := 1; column := 0 |}) <> Throw)
    by discriminate.
  assert (H2 : forall i, 0 <= i < lineCount docNested -> getLine docNested i <> Throw)
    by (intros i _; discriminate).
  split; [exact H1|]. split; [exact H2|].
  exact (body_throws_only_by_accessor docNested {| line := 1; column := 0 |} H1 H2).
Defined.

(** ** More on the matcher *)

(** X10. When no bracket on the side that the matcher searches (after an
    opening bracket, before a closing one) has both the other role and the
    colon count of the current bracket, the matcher returns [null]: it
    pairs no bracket of another colon count and none of the same role. *)
Theorem no_partner_no_match
  (brackets : list BracketBlock) (i : nat) (cur : BracketBlock) :
  nth_error brackets i = Some cur ->
  (forall j m,
     nth_error brackets j = Some m ->
     (if BracketBlock.isOpening cur then (i < j)%nat else (j < i)%nat) ->
     BracketBlock.isOpening m = negb (BracketBlock.isOpening cur) ->
     BracketBlock.colonCount m <> BracketBlock.colonCount cur) ->
  findMatchingBracket brackets i = Ret None.
Proof.
  intros Hcur Hno.
  destruct (findMatchingBracket brackets i) as [[m|]|] eqn:E.
  - exfalso.
    destruct (findMatchingBracket_result brackets i cur m Hcur E)
      as (Hcount & Hrole & j & Hj & Hside).
    exact (Hno j m Hj Hside Hrole Hcount).
  - reflexivity.
  - unfold findMatchingBracket in E. rewrite Hcur in E.
    destruct (BracketBlock.isOpening cur); discriminate.
Qed.

(** An opening of two colons followed by closings of three colons only. *)
Lemma no_partner_no_match_witness :
  let brackets := [BracketBlock.mk 0 2 true (Some (js "a"));
                   BracketBlock.mk 1 3 false None;
                   BracketBlock.mk 2 2 true (Some (js "b"));
                   BracketBlock.mk 3 3 false None] in
  findMatchingBracket brackets 0 = Ret None.
Proof.
  intros brackets.
  apply (no_partner_no_match brackets 0 (BracketBlock.mk 0 2 true (Some (js "a")))).
  - reflexivity.
  - intros j m Hj Hside Hrole.
    destruct j as [|[|[|[|j]]]]; simpl in Hj; try (destruct j; discriminate);
      injection Hj as <-; simpl in *; try discriminate; lia.
Defined.

(** X11. Between an opening bracket and the closing bracket that the
    matcher returns for it, when all the brackets have the colon count of
    the pair, there are as many openings as closings, and no beginning of
    that stretch has more closings than openings. *)
Theorem between_a_pair_is_balanced
  (pre mid post : list BracketBlock) (o c : BracketBlock) :
  ascending (pre ++ o :: mid ++ c :: post) ->
  BracketBlock.isOpening o = true ->
  Forall (fun b => BracketBlock.colonCount b = BracketBlock.colonCount o) mid ->
  findMatchingBracket (pre ++ o :: mid ++ c :: post) (length pre) = Ret (Some c) ->
  balance true mid = 0
  /\ forall k, 0 <= balance true (firstn k mid).
Proof.
  intros Hasc Ho Hmid H.
  assert (Hnth : nth_error (pre ++ o :: mid ++ c :: post) (length pre) = Some o)
    by (rewrite nth_error_app2, Nat.sub_diag; [reflexivity|lia]).
  unfold findMatchingBracket in H. rewrite Hnth, Ho in H.
  assert (Hskip : skipn (S (length pre)) (pre ++ o :: mid ++ c :: post)
                  = mid ++ c :: post).
  { replace (pre ++ o :: mid ++ c :: post) with ((pre ++ [o]) ++ mid ++ c :: post)
      by (rewrite <- app_assoc; reflexivity).
    apply skipn_app_len. rewrite length_app. simpl. lia. }
  rewrite Hskip in H. injection H as H. rewrite forwardLoop_search in H.
  pose proof (ascending_tail (pre ++ [o]) (mid ++ c :: post)) as Htail.
  rewrite <- app_assoc in Htail. specialize (Htail Hasc).
  destruct (ascending_around mid post c Htail) as [Hmid_c Hpost_c].
  rewrite Forall_forall in Hmid_c, Hpost_c.
  rewrite searchLoop_app in H.
  destruct (searchRun true mid [o]) as [stack'|] eqn:Erun.
  - destruct (searchRun_heights true (BracketBlock.colonCount o) mid [o] stack'
                Hmid ltac:(now repeat constructor) ltac:(discriminate) Erun)
      as (_ & Hlen & Hh).
    assert (Hone : length stack' = 1%nat).
    { destruct (searchLoop_result true _ [o] c o ltac:(discriminate)
                  ltac:(rewrite searchLoop_app, Erun; exact H)) as (_ & Hrole & _).
      simpl in H. rewrite Hrole in H. simpl in H.
      destruct stack' as [|top stack'']; [apply searchLoop_In in H|].
      - specialize (Hpost_c c H). lia.
      - destruct (BracketBlock.colonCount top =? BracketBlock.colonCount c);
          [|apply searchLoop_In in H; specialize (Hpost_c c H); lia].
        destruct stack''; [reflexivity|].
        apply searchLoop_In in H. specialize (Hpost_c c H). lia. }
    simpl length in Hlen. split; [lia|].
    intros k. specialize (Hh k). simpl length in Hh. lia.
  - apply searchLoop_In in H. specialize (Hmid_c c H). lia.
Qed.

(** The outer pair of the nested document. *)
Lemma between_a_pair_is_balanced_witness :
  let o := BracketBlock.mk 0 2 true (Some (js "outer")) in
  let mid := [BracketBlock.mk 1 2 true (Some (js "inner"));
              BracketBlock.mk 3 2 false None] in
  let c := BracketBlock.mk 4 2 false None in
  scanAllBrackets docNested = Ret ([] ++ o :: mid ++ c :: [])
  /\ balance true mid = 0
  /\ forall k, 0 <= balance true (firstn k mid).
Proof.
  intros o mid c. split; [vm_compute; reflexivity|].
  apply (between_a_pair_is_balanced [] mid [] o c).
  - intros i j a b Hij Hi Hj.
    destruct i as [|[|[|[|i]]]]; simpl in Hi; try (destruct i; discriminate);
      injection Hi as <-;
      destruct j as [|[|[|[|j]]]]; simpl in Hj; try (destruct j; discriminate);
      injection Hj as <-; simpl; lia.
  - reflexivity.
  - repeat constructor.
  - vm_compute. reflexivity.
Defined.

(** The search goes through brackets of another colon count and comes back
    to its starting stack when every end of that stretch pops at least as
    much as it pushes. *)
Lemma searchRun_other_count (pushed : bool) (o : BracketBlock) (k : Z) :
  k <> BracketBlock.colonCount o ->
  forall (mid pushedStack : list BracketBlock),
    Forall (fun b => BracketBlock.colonCount b = k) mid ->
    Forall (fun b => BracketBlock.colonCount b = k) pushedStack ->
    (forall j, balance pushed (skipn j mid) <= 0) ->
    Z.of_nat (length pushedStack) + balance pushed mid <= 0 ->
    searchRun pushed mid (pushedStack ++ [o]) = Some [o].
Proof.
  intros Hk. induction mid as [|b mid IH]; intros P Hmid HP Hsuf Hbal.
  - cbn [balance] in Hbal. destruct P; [reflexivity|simpl length in Hbal; lia].
  - apply Forall_cons_iff in Hmid. destruct Hmid as [Hb Hmid].
    rewrite balance_cons in Hbal. cbn [searchRun].
    assert (Hsuf' : forall j, balance pushed (skipn j mid) <= 0)
      by (intros j; exact (Hsuf (S j))).
    destruct (Bool.eqb (BracketBlock.isOpening b) pushed) eqn:Erole.
    + apply (IH (b :: P)); try assumption; [now constructor|].
      simpl length. lia.
    + destruct P as [|top P']; cbn [app].
      * destruct (Z.eqb_spec (BracketBlock.colonCount o) (BracketBlock.colonCount b));
          [congruence|].
        apply (IH []); try assumption.
        specialize (Hsuf 1%nat). simpl in Hsuf. simpl length. lia.
      * apply Forall_cons_iff in HP. destruct HP as [Htop HP'].
        rewrite Htop, Hb, Z.eqb_refl.
        destruct (P' ++ [o]) as [|x l] eqn:E; [destruct P'; discriminate|].
        rewrite <- E. apply IH; try assumption.
        simpl length in Hbal. lia.
Qed.

Lemma search_through_other_count (pushed : bool) (o c : BracketBlock) (k : Z)
      (mid post : list BracketBlock) :
  BracketBlock.isOpening c = negb pushed ->
  BracketBlock.colonCount c = BracketBlock.colonCount o ->
  k <> BracketBlock.colonCount o ->
  Forall (fun b => BracketBlock.colonCount b = k) mid ->
  (forall j, balance pushed (skipn j mid) <= 0) ->
  searchLoop pushed (mid ++ c :: post) [o] = Some c.
Proof.
  intros Hrole Hcount Hk Hmid Hsuf.
  rewrite searchLoop_app.
  assert (Hrun : searchRun pushed mid [o] = Some [o]).
  { apply (searchRun_other_count pushed o k Hk mid [] Hmid (Forall_nil _) Hsuf).
    specialize (Hsuf 0%nat). simpl in Hsuf. simpl length. lia. }
  rewrite Hrun. simpl. rewrite Hrole.
  replace (Bool.eqb (negb pushed) pushed) with false by now destruct pushed.
  now rewrite Hcount, Z.eqb_refl.
Qed.

(** X12. Brackets of another colon count nested inside a pair do not
    disturb it. Between an opening bracket [o] and a closing bracket [c] of
    its colon count, let all the brackets have one other colon count. From
    [o] the matcher returns [c] when every end of the stretch has at least
    as many closings as openings; from [c] it returns [o] when every
    beginning of the stretch has at least as many openings as closings. *)
Theorem other_colon_count_inside_a_pair
  (pre mid post : list BracketBlock) (o c : BracketBlock) (k : Z) :
  BracketBlock.isOpening o = true ->
  BracketBlock.isOpening c = false ->
  BracketBlock.colonCount c = BracketBlock.colonCount o ->
  k <> BracketBlock.colonCount o ->
  Forall (fun b => BracketBlock.colonCount b = k) mid ->
  let brackets := pre ++ o :: mid ++ c :: post in
  ((forall j, balance true (skipn j mid) <= 0) ->
   findMatchingBracket brackets (length pre) = Ret (Some c))
  /\ ((forall j, 0 <= balance true (firstn j mid)) ->
      findMatchingBracket brackets (length pre + 1 + length mid) = Ret (Some o)).
Proof.
  intros Ho Hc Hcount Hk Hmid brackets. unfold brackets. split; intros Hbal.
  - assert (Hnth : nth_error (pre ++ o :: mid ++ c :: post) (length pre) = Some o)
      by (rewrite nth_error_app2, Nat.sub_diag; [reflexivity|lia]).
    unfold findMatchingBracket. rewrite Hnth, Ho. f_equal.
    rewrite forwardLoop_search.
    replace (skipn (S (length pre)) (pre ++ o :: mid ++ c :: post))
      with (mid ++ c :: post).
    2:{ replace (pre ++ o :: mid ++ c :: post)
          with ((pre ++ [o]) ++ mid ++ c :: post)
          by (rewrite <- app_assoc; reflexivity).
        symmetry. apply skipn_app_len. rewrite length_app. simpl. lia. }
    now apply (search_through_other_count true o c k mid post).
  - assert (Hsplit : pre ++ o :: mid ++ c :: post = (pre ++ o :: mid) ++ c :: post)
      by (rewrite <- app_assoc; reflexivity).
    assert (Hlen : length (pre ++ o :: mid) = (length pre + 1 + length mid)%nat)
      by (rewrite length_app; simpl; lia).
    assert (Hnth : nth_error (pre ++ o :: mid ++ c :: post)
                     (length pre + 1 + length mid) = Some c).
    { rewrite Hsplit, <- Hlen, nth_error_app2, Nat.sub_diag; [reflexivity|lia]. }
    unfold findMatchingBracket. rewrite Hnth, Hc. f_equal.
    rewrite backwardLoop_search.
    rewrite Hsplit, <- Hlen, firstn_app_exact.
    rewrite rev_app_distr. simpl. rewrite <- app_assoc. simpl.
    apply (search_through_other_count false c o k (rev mid) (rev pre)).
    + now rewrite Ho.
    + now rewrite Hcount.
    + now rewrite Hcount.
    + now apply Forall_rev.
    + intros j. rewrite skipn_rev, balance_rev.
      change false with (negb true). rewrite balance_negb.
      specialize (Hbal (length mid - j)%nat). lia.
Qed.

(** A pair of two colons inside a pair of three colons. *)
Lemma other_colon_count_inside_a_pair_witness :
  let o := BracketBlock.mk 0 3 true (Some (js "outer")) in
  let mid := [BracketBlock.mk 1 2 true (Some (js "inner"));
              BracketBlock.mk 3 2 false None] in
  let c := BracketBlock.mk 4 3 false None in
  scanAllBrackets
    (createDocument (map js [":::outer"; "::inner"; "Content"; "::"; ":::"]%string))
  = Ret ([] ++ o :: mid ++ c :: [])
  /\ findMatchingBracket ([] ++ o :: mid ++ c :: []) (length (@nil BracketBlock))
     = Ret (Some c)
  /\ findMatchingBracket ([] ++ o :: mid ++ c :: [])
       (length (@nil BracketBlock) + 1 + length mid) = Ret (Some o).
Proof.
  intros o mid c. split; [vm_compute; reflexivity|].
  destruct (other_colon_count_inside_a_pair [] mid [] o c 2
              eq_refl eq_refl eq_refl ltac:(discriminate)
              ltac:(repeat constructor)) as [Hfwd Hbwd].
  split.
  - apply Hfwd. intros [|[|[|j]]]; vm_compute; discriminate.
  - apply Hbwd. intros [|[|[|j]]]; vm_compute; discriminate.
Defined.

(** ** The ranges lie in their lines *)

(** The matcher of regular expressions only hands positions of the text to
    its continuation, at or after the position it starts from. *)
Lemma run_bounds (s : jsstring) (A : Type) (r : regex) :
  forall pos c (k : nat -> captures -> option A) x,
    (pos <= length s)%nat ->
    run s A r pos c k = Some x ->
    exists e c', (pos <= e <= length s)%nat /\ k e c' = Some x.
Proof.
  induction r as [| |cls min|r1 IH1 r2 IH2|r1 IH1 r2 IH2|i r IH];
    intros pos c k x Hpos H.
  - rewrite run_Bol in H. destruct (pos =? 0)%nat; [|discriminate].
    exists pos, c. split; [lia|assumption].
  - rewrite run_Eol in H. destruct (pos =? length s)%nat; [|discriminate].
    exists pos, c. split; [lia|assumption].
  - apply run_Rep_inv in H. destruct H as (j & Hj & H).
    pose proof (takeWhile_length_le cls (skipn pos s)) as Hle.
    rewrite length_skipn in Hle.
    exists (pos + j)%nat, c. split; [lia|assumption].
  - rewrite run_Seq in H.
    destruct (IH1 _ _ _ _ Hpos H) as (e1 & c1 & He1 & H1).
    destruct (IH2 _ _ _ _ (proj2 He1) H1) as (e2 & c2 & He2 & H2).
    exists e2, c2. split; [lia|assumption].
  - rewrite run_Alt in H.
    destruct (run s A r1 pos c k) as [y|] eqn:E1.
    + injection H as <-. exact (IH1 _ _ _ _ Hpos E1).
    + exact (IH2 _ _ _ _ Hpos H).
  - rewrite run_Grp in H.
    destruct (IH _ _ _ _ Hpos H) as (e & c' & He & Hk).
    exists e, ((i, (pos, e)) :: c'). split; assumption.
Qed.

Lemma searchFrom_inv (r : regex) (s : jsstring) (fuel : nat) :
  forall (start : nat) (m : matchResult),
    searchFrom r s start fuel = Some m ->
    exists i, (start <= i <= start + fuel)%nat /\ matchAt r s i = Some m.
Proof.
  induction fuel as [|fuel IH]; intros start m H; simpl in H.
  - destruct (matchAt r s start) eqn:E; [|discriminate].
    injection H as <-. exists start. split; [lia|assumption].
  - destruct (matchAt r s start) eqn:E.
    + injection H as <-. exists start. split; [lia|assumption].
    + destruct (IH _ _ H) as (i & Hi & Hm). exists i. split; [lia|assumption].
Qed.

(** A match of a pattern is a stretch of the text it was looked for in. *)
Lemma exec_bounds (r : regex) (s : jsstring) (m : matchResult) :
  exec r s = Some m ->
  input m = s /\ (index m <= lastIndex m <= length s)%nat.
Proof.
  unfold exec. intros H.
  destruct (searchFrom_inv _ _ _ _ _ H) as (i & Hi & Hm).
  unfold matchAt in Hm.
  assert (Hle : (i <= length s)%nat) by lia.
  destruct (run_bounds s matchResult r i [] _ m Hle Hm) as (e & c & He & Hk).
  injection Hk as <-. simpl. split; [reflexivity|lia].
Qed.

Lemma isPrefix_length (pat t : jsstring) :
  isPrefix pat t = true -> (length pat <= length t)%nat.
Proof.
  revert t. induction pat as [|p pat IH]; intros t H; simpl; [lia|].
  destruct t as [|c t]; [discriminate|]. simpl in H.
  apply andb_true_iff in H. destruct H as [_ H]. apply IH in H. simpl. lia.
Qed.

Lemma isPrefix_firstn (n : nat) (t : jsstring) : isPrefix (firstn n t) t = true.
Proof.
  revert t. induction n as [|n IH]; intros t; [reflexivity|].
  destruct t as [|c t]; [reflexivity|]. simpl. now rewrite N.eqb_refl, IH.
Qed.

(** When the pattern occurs in the text, [indexOf] gives a position at
    which it occurs. *)
Lemma indexOfFrom_found (pat : jsstring) :
  forall (s : jsstring) (k : nat) (i : Z),
    (k <= length s)%nat ->
    isPrefix pat (skipn k s) = true ->
    exists r, (r <= k)%nat
              /\ indexOfFrom s pat i = i + Z.of_nat r
              /\ isPrefix pat (skipn r s) = true.
Proof.
  induction s as [|c s IH]; intros k i Hk Hocc.
  - assert (k = 0)%nat as -> by (simpl in Hk; lia). simpl in Hocc.
    exists 0%nat. simpl. rewrite Hocc. split; [lia|]. split; [lia|reflexivity].
  - cbn [indexOfFrom]. destruct (isPrefix pat (c :: s)) eqn:E.
    + exists 0%nat. split; [lia|]. split; [lia|exact E].
    + destruct k as [|k]; [simpl in Hocc; congruence|].
      simpl in Hk, Hocc.
      destruct (IH k (i + 1) ltac:(lia) Hocc) as (r & Hr & Hidx & Hp).
      exists (S r). split; [lia|]. split; [lia|exact Hp].
Qed.

Lemma lastIndexOfFrom_cases (pat : jsstring) :
  forall (s : jsstring) (i best : Z),
    lastIndexOfFrom s pat i best = best
    \/ exists r, (r <= length s)%nat
                 /\ lastIndexOfFrom s pat i best = i + Z.of_nat r
                 /\ isPrefix pat (skipn r s) = true.
Proof.
  induction s as [|c s IH]; intros i best; cbn [lastIndexOfFrom].
  - destruct (isPrefix pat []) eqn:E; [|now left].
    right. exists 0%nat. split; [simpl; lia|]. split; [lia|exact E].
  - destruct (IH (i + 1) (if isPrefix pat (c :: s) then i else best))
      as [Hsame | (r & Hr & Hidx & Hp)].
    + rewrite Hsame. destruct (isPrefix pat (c :: s)) eqn:E; [|now left].
      right. exists 0%nat. split; [simpl; lia|]. split; [lia|exact E].
    + right. exists (S r). split; [simpl; lia|]. split; [lia|exact Hp].
Qed.

(** When the pattern occurs in the text, [lastIndexOf] gives a position at
    which it occurs. *)
Lemma lastIndexOfFrom_found (pat : jsstring) :
  forall (s : jsstring) (k : nat) (i best : Z),
    (k <= length s)%nat ->
    isPrefix pat (skipn k s) = true ->
    exists r, (r <= length s)%nat
              /\ lastIndexOfFrom s pat i best = i + Z.of_nat r
              /\ isPrefix pat (skipn r s) = true.
Proof.
  induction s as [|c s IH]; intros k i best Hk Hocc.
  - assert (k = 0)%nat as -> by (simpl in Hk; lia). simpl in Hocc.
    exists 0%nat. cbn [lastIndexOfFrom]. rewrite Hocc.
    split; [simpl; lia|]. split; [lia|exact Hocc].
  - cbn [lastIndexOfFrom]. destruct k as [|k].
    + simpl in Hocc. rewrite Hocc.
      destruct (lastIndexOfFrom_cases pat s (i + 1) i)
        as [Hsame | (r & Hr & Hidx & Hp)].
      * exists 0%nat. split; [simpl; lia|]. split; [lia|exact Hocc].
      * exists (S r). split; [simpl; lia|]. split; [lia|exact Hp].
    + simpl in Hk, Hocc.
      destruct (IH k (i + 1) (if isPrefix pat (c :: s) then i else best)
                  ltac:(lia) Hocc) as (r & Hr & Hidx & Hp).
      exists (S r). split; [simpl; lia|]. split; [lia|exact Hp].
Qed.

(** The stretch of a match occurs in the text at the index of the match. *)
Lemma whole_occurs (r : regex) (s : jsstring) (m : matchResult) :
  exec r s = Some m ->
  (index m <= length s)%nat /\ isPrefix (whole m) (skipn (index m) s) = true.
Proof.
  intros H. destruct (exec_bounds r s m H) as [Hin Hb].
  split; [lia|]. unfold whole, substring. rewrite Hin. apply isPrefix_firstn.
Qed.

(** The range of a bracket is on the line of the bracket and inside its
    text. *)
Lemma createBracketRange_bounds (document : TextDocument) (b : BracketBlock)
      (lineContent : jsstring) (r : Range) :
  getLine document (BracketBlock.line b) = Ret lineContent ->
  createBracketRange document b = Ret r ->
  startLine r = BracketBlock.line b /\ endLine r = BracketBlock.line b
  /\ 0 <= startColumn r <= endColumn r /\ endColumn r <= len lineContent.
Proof.
  intros Hget. unfold createBracketRange. rewrite Hget. cbn [bind].
  destruct (BracketBlock.isOpening b).
  - destruct (exec reRangeOpening lineContent) as [m|] eqn:E;
      intros H; injection H as <-; cbn.
    + destruct (whole_occurs _ _ _ E) as [Hi Hocc].
      destruct (indexOfFrom_found (whole m) lineContent (index m) 0 Hi Hocc)
        as (k & Hk & Hidx & Hp).
      unfold indexOf. rewrite Hidx. apply isPrefix_length in Hp.
      rewrite length_skipn in Hp. unfold len. repeat split; lia.
    + unfold len. repeat split; lia.
  - destruct (exec reRangeClosing lineContent) as [m|] eqn:E;
      intros H; injection H as <-; cbn.
    + destruct (whole_occurs _ _ _ E) as [Hi Hocc].
      destruct (lastIndexOfFrom_found (whole m) lineContent (index m) 0 (-1) Hi Hocc)
        as (k & Hk & Hidx & Hp).
      unfold lastIndexOf. rewrite Hidx. apply isPrefix_length in Hp.
      rewrite length_skipn in Hp. unfold len. repeat split; lia.
    + unfold len. repeat split; lia.
Qed.

(** X13. Both ranges of a result are on one line each, a line of the
    document, and their columns lie in the text of that line: 0 <=
    startColumn <= endColumn <= length of the line. *)
Theorem result_ranges_lie_in_their_lines
  (document : TextDocument) (position : Position) (r : BracketMatch) :
  findMatchingBrackets document position = Ret (Some r) ->
  exists openingText closingText,
    getLine document (startLine (opening r)) = Ret openingText
    /\ getLine document (startLine (closing r)) = Ret closingText
    /\ endLine (opening r) = startLine (opening r)
    /\ endLine (closing r) = startLine (closing r)
    /\ 0 <= startLine (opening r) < lineCount document
    /\ 0 <= startLine (closing r) < lineCount document
    /\ 0 <= startColumn (opening r) <= endColumn (opening r)
    /\ endColumn (opening r) <= len openingText
    /\ 0 <= startColumn (closing r) <= endColumn (closing r)
    /\ endColumn (closing r) <= len closingText.
Proof.
  intros H. destruct (fmb_pair _ _ _ H)
    as (brackets & i & j & o & c & Hscan & Hi & Hj & _ & _ & _ & _ & _ & Ho & Hc & _).
  destruct (scanAllBrackets_scanned _ _ Hscan) as [_ Hall].
  rewrite Forall_forall in Hall.
  destruct (Hall o (nth_error_In _ _ Hi)) as (Hlo & _ & so & Hso & _).
  destruct (Hall c (nth_error_In _ _ Hj)) as (Hlc & _ & sc & Hsc & _).
  destruct (createBracketRange_bounds _ _ _ _ Hso Ho) as (Ho1 & Ho2 & Ho3 & Ho4).
  destruct (createBracketRange_bounds _ _ _ _ Hsc Hc) as (Hc1 & Hc2 & Hc3 & Hc4).
  exists so, sc. rewrite Ho1, Hc1, Ho2, Hc2.
  repeat split; try assumption; lia.
Qed.

(** The indented pair of the test suite. *)
Lemma result_ranges_lie_in_their_lines_witness :
  let document := createDocument (map js ["  ::component"; "Content"; "  ::"]%string) in
  exists r,
    findMatchingBrackets document {| line := 0; column := 2 |} = Ret (Some r)
    /\ exists openingText closingText,
        getLine document (startLine (opening r)) = Ret openingText
        /\ getLine document (startLine (closing r)) = Ret closingText
        /\ endLine (opening r) = startLine (opening r)
        /\ endLine (closing r) = startLine (closing r)
        /\ 0 <= startLine (opening r) < lineCount document
        /\ 0 <= startLine (closing r) < lineCount document
        /\ 0 <= startColumn (opening r) <= endColumn (opening r)
        /\ endColumn (opening r) <= len openingText
        /\ 0 <= startColumn (closing r) <= endColumn (closing r)
        /\ endColumn (closing r) <= len closingText.
Proof.
  intros document. eexists. split; [vm_compute; reflexivity|].
  apply (result_ranges_lie_in_their_lines document {| line := 0; column := 2 |}).
  vm_compute. reflexivity.
Defined.

(** ** A block, from end to end *)

Lemma getLine_createDocument (lines : list jsstring) (k : nat) (l : jsstring) :
  nth_error lines k = Some l ->
  getLine (createDocument lines) (Z.of_nat k) = Ret l.
Proof.
  intros H. simpl. destruct (Z.ltb_spec (Z.of_nat k) 0) as [Hneg|_]; [lia|].
  rewrite Nat2Z.id. f_equal. now apply nth_error_nth.
Qed.

Lemma scanLoop_createDocument (rest : list jsstring) :
  forall (pre : list jsstring) (st : scanState),
    scanLoop (createDocument (pre ++ rest)) (length rest)
             (Z.of_nat (length pre)) st
    = Ret (scanLines (Z.of_nat (length pre)) rest st).
Proof.
  induction rest as [|l rest IH]; intros pre st; [reflexivity|].
  cbn [length scanLoop scanLines].
  rewrite (getLine_createDocument (pre ++ l :: rest) (length pre) l)
    by (rewrite nth_error_app2, Nat.sub_diag; [reflexivity|lia]).
  cbn [bind].
  replace (pre ++ l :: rest) with ((pre ++ [l]) ++ rest)
    by (rewrite <- app_assoc; reflexivity).
  replace (Z.of_nat (length pre) + 1) with (Z.of_nat (length (pre ++ [l])))
    by (rewrite length_app; simpl; lia).
  apply IH.
Qed.

(** The scan of a document of the test suite is the scan of its lines, and
    does not throw. *)
Lemma scanAllBrackets_createDocument (lines : list jsstring) :
  scanAllBrackets (createDocument lines)
  = Ret (fst (scanLines 0 lines ([], false))).
Proof.
  unfold scanAllBrackets. cbn [lineCount createDocument]. rewrite Nat2Z.id.
  pose proof (scanLoop_createDocument lines [] ([], false)) as H.
  simpl app in H. simpl length in H. change (Z.of_nat 0) with 0 in H.
  cbn [createDocument] in H. rewrite H. reflexivity.
Qed.

Lemma scanLines_app (a b : list jsstring) :
  forall (k : Z) (st : scanState),
    scanLines k (a ++ b) st
    = scanLines (k + Z.of_nat (length a)) b (scanLines k a st).
Proof.
  induction a as [|l a IH]; intros k st.
  - simpl. now rewrite Z.add_0_r.
  - cbn [app scanLines]. rewrite IH. f_equal. simpl length. lia.
Qed.

Lemma scanLine_plain (k : Z) (l : jsstring) (st : scanState) :
  isPlainLine l -> scanLine k l st = st.
Proof.
  intros [Hfence Hdelimiter]. destruct st as [brackets insideCodeBlock].
  unfold isFenceLine in Hfence. unfold isDelimiterLine in Hdelimiter.
  unfold scanLine. rewrite Hfence.
  destruct insideCodeBlock; [reflexivity|].
  destruct (exec reScanOpening (trim l)); [discriminate|].
  destruct (exec reScanClosing (trim l)); [discriminate|reflexivity].
Qed.

Lemma scanLines_plain (body : list jsstring) :
  Forall isPlainLine body ->
  forall (k : Z) (st : scanState), scanLines k body st = st.
Proof.
  induction 1 as [|l body Hl Hbody IH]; intros k st; [reflexivity|].
  cbn [scanLines]. rewrite (scanLine_plain k l st Hl). apply IH.
Qed.

(** X14. A block from end to end. In a document made of an opening line
    (white space, [n >= 2] colons, a name, a rest that does not continue the
    name), lines of text that are neither fence markers nor delimiters
    (their trimmed text matches none of the three patterns of the scanner),
    and a closing line of white space and [n] colons, every cursor on the
    opening delimiter and every cursor on the closing delimiter returns the
    same result: the range of the colons and the name, the range of the
    closing colons, and the colon count [n]. *)
Theorem simple_block_end_to_end
  (ws : jsstring) (n : nat) (name rest : jsstring)
  (body : list jsstring) (before : jsstring) (position : Position) :
  Forall (fun x => isWhiteSpace x = true) ws ->
  (2 <= n)%nat ->
  name <> [] ->
  Forall (fun x => isWordOrHyphen x = true) name ->
  match rest with [] => True | x :: _ => isWordOrHyphen x = false end ->
  Forall isPlainLine body ->
  Forall (fun x => isWhiteSpace x = true) before ->
  let openingLine := ws ++ repeat 58%N n ++ name ++ rest in
  let closingLine := before ++ repeat 58%N n in
  let document := createDocument (openingLine :: body ++ [closingLine]) in
  let last := 1 + Z.of_nat (length body) in
  (line position = 0
   /\ len ws <= column position <= len ws + Z.of_nat n + len name)
  \/ (line position = last
      /\ len before <= column position <= len before + Z.of_nat n) ->
  findMatchingBrackets document position
  = Ret (Some {| opening := {| startLine := 0; startColumn := len ws;
                               endLine := 0;
                               endColumn := len ws + Z.of_nat n + len name |};
                 closing := {| startLine := last; startColumn := len before;
                               endLine := last;
                               endColumn := len before + Z.of_nat n |};
                 colonCount := Z.of_nat n |}).
Proof.
  intros Hws Hn Hname Hword Hrest Hbody Hbefore
         openingLine closingLine document last Hcursor.
  set (o := BracketBlock.mk 0 (Z.of_nat n) true (Some name)).
  set (c := BracketBlock.mk last (Z.of_nat n) false None).
  assert (Hclosing : closingLine = before ++ repeat 58%N n ++ [])
    by (unfold closingLine; now rewrite app_nil_r).
  assert (Hget0 : getLine document 0 = Ret openingLine) by reflexivity.
  assert (Hgetl : getLine document last = Ret (before ++ repeat 58%N n ++ [])).
  { rewrite <- Hclosing. unfold last.
    replace (1 + Z.of_nat (length body)) with (Z.of_nat (S (length body))) by lia.
    apply getLine_createDocument. simpl.
    rewrite nth_error_app2, Nat.sub_diag; [reflexivity|lia]. }
  assert (Hso : scanLine 0 openingLine ([], false) = ([o], false))
    by exact (scanLine_opening_line ws n name rest Hws Hn Hname Hword Hrest 0 []).
  assert (Hsc : scanLine last closingLine ([o], false) = ([o; c], false)).
  { rewrite Hclosing.
    exact (scanLine_closing_line last before [] n [o] Hbefore (Forall_nil _) Hn). }
  assert (Hscan : scanAllBrackets document = Ret [o; c]).
  { unfold document. rewrite scanAllBrackets_createDocument.
    cbn [scanLines]. rewrite Hso.
    rewrite scanLines_app, (scanLines_plain body Hbody).
    cbn [scanLines]. change (0 + 1 + Z.of_nat (length body)) with last.
    now rewrite Hsc. }
  assert (Hdo : forall column,
             len ws <= column <= len ws + Z.of_nat n + len name ->
             detectBracketAtPosition openingLine column = Some (Z.of_nat n)).
  { intros column Hcol. unfold openingLine.
    rewrite (detect_opening_line ws n name rest Hws Hn Hname Hword Hrest).
    destruct (Z.leb_spec (len ws) column); [|lia].
    destruct (Z.leb_spec column (len ws + Z.of_nat n + len name));
      [reflexivity|lia]. }
  assert (Hdc : forall column,
             len before <= column <= len before + Z.of_nat n ->
             detectBracketAtPosition (before ++ repeat 58%N n ++ []) column
             = Some (Z.of_nat n)).
  { intros column Hcol.
    rewrite (detect_closing_line before n [] Hbefore (Forall_nil _) Hn).
    destruct (Z.leb_spec (len before) column); [|lia].
    destruct (Z.leb_spec column (len before + Z.of_nat n)); [reflexivity|lia]. }
  assert (Hro : createBracketRange document o
                = Ret {| startLine := 0; startColumn := len ws; endLine := 0;
                         endColumn := len ws + Z.of_nat n + len name |})
    by exact (createBracketRange_opening_line ws n name rest Hws Hn Hname Hword
                Hrest document 0 (Z.of_nat n) (Some name) Hget0).
  assert (Hrc : createBracketRange document c
                = Ret {| startLine := last; startColumn := len before;
                         endLine := last;
                         endColumn := len before + Z.of_nat n |})
    by exact (createBracketRange_closing_at_end before n [] Hbefore (Forall_nil _)
                Hn document last (Z.of_nat n) eq_refl Hgetl).
  assert (Hlast : 0 < last) by (unfold last; lia).
  apply fmb_some. destruct Hcursor as [[Hline Hcol] | [Hline Hcol]].
  - split.
    + unfold onDelimiter. rewrite Hline, Hget0. now rewrite (Hdo _ Hcol).
    + apply pairOfLine_some. exists [o; c], 0%nat, o, c. rewrite Hline.
      repeat split; try assumption; try reflexivity.
      unfold findMatchingBracket. cbn. now rewrite Z.eqb_refl.
  - split.
    + unfold onDelimiter. rewrite Hline, Hgetl. now rewrite (Hdc _ Hcol).
    + apply pairOfLine_some. exists [o; c], 1%nat, c, o. rewrite Hline.
      repeat split; try assumption; try reflexivity.
      * unfold o, c. cbn [findIndex BracketBlock.line].
        destruct (Z.eqb_spec 0 last); [lia|]. now rewrite Z.eqb_refl.
      * unfold findMatchingBracket. cbn. now rewrite Z.eqb_refl.
Qed.

(** An indented block of three colons with three lines of text, one of
    which starts with colons without being a delimiter, asked from the end
    of its name. *)
Lemma simple_block_end_to_end_witness :
  let body := map js ["first line"; ":: note"; "a :: b"]%string in
  let document := createDocument
                    (js "  :::note{x}" :: body ++ [js "  :::"]) in
  Forall isPlainLine body
  /\ findMatchingBrackets document {| line := 0; column := 9 |}
     = Ret (Some {| opening := {| startLine := 0; startColumn := 2;
                                  endLine := 0; endColumn := 9 |};
                    closing := {| startLine := 4; startColumn := 2;
                                  endLine := 4; endColumn := 5 |};
                    colonCount := 3 |}).
Proof.
  intros body document.
  assert (Hbody : Forall isPlainLine body)
    by (repeat constructor; vm_compute; reflexivity).
  split; [exact Hbody|].
  assert (Hws : Forall (fun x => isWhiteSpace x = true) (js "  "))
    by (repeat constructor).
  assert (Hword : Forall (fun x => isWordOrHyphen x = true) (js "note"))
    by (repeat constructor).
  assert (Hname : js "note" <> []) by discriminate.
  apply (simple_block_end_to_end (js "  ") 3 (js "note") (js "{x}") body (js "  ")
           {| line := 0; column := 9 |} Hws ltac:(lia) Hname Hword eq_refl Hbody Hws).
  left. split; [reflexivity|]. vm_compute. split; discriminate.
Defined.

(** ** The decorations asked of the editor *)

Lemma findMatchingBrackets_returns (document : TextDocument) (position : Position) :
  findMatchingBrackets document position <> Throw.
Proof.
  unfold findMatchingBrackets.
  destruct (findMatchingBracketsBody document position); discriminate.
Qed.

(** X15. [updateBracketDecorations] never reaches its [catch] clause
    through [findMatchingBrackets], and the decorations it asks of the
    editor are none, or exactly two with the class names of the options,
    the first for the opening delimiter and the second for the closing one.
    Both are ranges of the editor that lie in the document: on one line
    each, with 1 <= first line < second line <= line count, and with
    columns from 1 to one more than the length of the line. *)
Theorem decorations_are_ranges_of_the_model
  (opts : BracketMatcherOptions) (model : Monaco.ITextModel)
  (position : Monaco.Position) :
  updateBracketDecorations opts (Some model) position <> ClearIfAny
  /\ forall ds,
      updateBracketDecorations opts (Some model) position = Replace ds ->
      ds = []
      \/ exists d1 d2 text1 text2,
           ds = [d1; d2]
           /\ Monaco.options d1
              = {| Monaco.className := className opts;
                   Monaco.inlineClassName := inlineClassName opts;
                   Monaco.stickiness := 1 |}
           /\ Monaco.options d2 = Monaco.options d1
           /\ Monaco.getLineContent model (Monaco.startLineNumber (Monaco.range d1))
              = Ret text1
           /\ Monaco.getLineContent model (Monaco.startLineNumber (Monaco.range d2))
              = Ret text2
           /\ 1 <= Monaco.startLineNumber (Monaco.range d1)
           /\ Monaco.startLineNumber (Monaco.range d1)
              < Monaco.startLineNumber (Monaco.range d2)
           /\ Monaco.startLineNumber (Monaco.range d2) <= Monaco.getLineCount model
           /\ Monaco.endLineNumber (Monaco.range d1)
              = Monaco.startLineNumber (Monaco.range d1)
           /\ Monaco.endLineNumber (Monaco.range d2)
              = Monaco.startLineNumber (Monaco.range d2)
           /\ 1 <= Monaco.startColumn (Monaco.range d1)
              <= Monaco.endColumn (Monaco.range d1)
           /\ Monaco.endColumn (Monaco.range d1) <= len text1 + 1
           /\ 1 <= Monaco.startColumn (Monaco.range d2)
              <= Monaco.endColumn (Monaco.range d2)
           /\ Monaco.endColumn (Monaco.range d2) <= len text2 + 1.
Proof.
  unfold updateBracketDecorations.
  destruct ((maxLineCount opts >? 0)
            && (Monaco.getLineCount model >? maxLineCount opts)).
  { split; [discriminate|]. intros ds H. injection H as <-. now left. }
  destruct (findMatchingBrackets (createTextDocument model) (createPosition position))
    as [[found|]|] eqn:E.
  - split; [discriminate|]. intros ds H. injection H as <-. right.
    destruct (fmb_pair _ _ _ E)
      as (brackets & i & j & o & c & Hscan & Hi & Hj & Hij
          & _ & _ & _ & _ & Ho & Hc & _).
    destruct (scanAllBrackets_scanned _ _ Hscan) as [Hasc Hall].
    rewrite Forall_forall in Hall.
    destruct (Hall o (nth_error_In _ _ Hi)) as (Hlo & _ & so & Hso & _).
    destruct (Hall c (nth_error_In _ _ Hj)) as (Hlc & _ & sc & Hsc & _).
    destruct (createBracketRange_bounds _ _ _ _ Hso Ho) as (Ho1 & Ho2 & Ho3 & Ho4).
    destruct (createBracketRange_bounds _ _ _ _ Hsc Hc) as (Hc1 & Hc2 & Hc3 & Hc4).
    pose proof (Hasc i j o c Hij Hi Hj) as Hlt.
    cbn [lineCount createTextDocument] in Hlo, Hlc.
    cbn [getLine createTextDocument] in Hso, Hsc.
    eexists. eexists. exists so, sc. cbn.
    rewrite Ho1, Hc1, Ho2, Hc2.
    repeat split; cbn; try assumption; try reflexivity; lia.
  - split; [discriminate|]. intros ds H. injection H as <-. now left.
  - exfalso. exact (findMatchingBrackets_returns _ _ E).
Qed.

(** ** Cursors outside a document of the test suite *)

Lemma detect_empty_line (column : Z) : detectBracketAtPosition [] column = None.
Proof. reflexivity. Qed.

(** X16. In a document of the test suite, whose accessor answers the empty
    string outside the lines it has, a cursor on a line before the first
    one or after the last one gets [null]. *)
Theorem cursor_outside_document_no_match
  (lines : list jsstring) (position : Position) :
  line position < 0 \/ Z.of_nat (length lines) <= line position ->
  findMatchingBrackets (createDocument lines) position = Ret None.
Proof.
  intros Hout. apply fmb_not_onDelimiter. unfold onDelimiter.
  assert (Hget : getLine (createDocument lines) (line position) = Ret []).
  { cbn [getLine createDocument].
    destruct (Z.ltb_spec (line position) 0) as [|Hpos]; [reflexivity|].
    f_equal. apply nth_overflow. lia. }
  now rewrite Hget, detect_empty_line.
Qed.

Lemma cursor_outside_document_no_match_witness :
  (5 < 0 \/ Z.of_nat (length (map js ["::a"; "::"]%string)) <= 5)
  /\ findMatchingBrackets (createDocument (map js ["::a"; "::"]%string))
       {| line := 5; column := 0 |} = Ret None.
Proof.
  assert (H : line {| line := 5; column := 0 |} < 0
              \/ Z.of_nat (length (map js ["::a"; "::"]%string))
                 <= line {| line := 5; column := 0 |})
    by (right; simpl; lia).
  split; [exact H|].
  exact (cursor_outside_document_no_match _ _ H).
Defined.

(** A model of three lines; the editor throws for a line number that it
    does not have. *)
Lemma decorations_are_ranges_of_the_model_witness :
  let model :=
    {| Monaco.getLineContent := fun lineNumber =>
         if (1 <=? lineNumber) && (lineNumber <=? 3)
         then Ret (nth (Z.to_nat (lineNumber - 1))
                       (map js ["  ::card"; "text"; "  ::"]%string) [])
         else Throw;
       Monaco.getLineCount := 3 |} in
  let position := {| Monaco.lineNumber := 3; Monaco.column := 4 |} in
  exists ds,
    updateBracketDecorations DEFAULT_OPTIONS (Some model) position = Replace ds
    /\ map Monaco.range ds
       = [ {| Monaco.startLineNumber := 1; Monaco.startColumn := 3;
              Monaco.endLineNumber := 1; Monaco.endColumn := 9 |};
           {| Monaco.startLineNumber := 3; Monaco.startColumn := 3;
              Monaco.endLineNumber := 3; Monaco.endColumn := 5 |} ]
    /\ (ds = []
        \/ exists d1 d2 text1 text2,
             ds = [d1; d2]
             /\ Monaco.options d1
                = {| Monaco.className := className DEFAULT_OPTIONS;
                     Monaco.inlineClassName := inlineClassName DEFAULT_OPTIONS;
                     Monaco.stickiness := 1 |}
             /\ Monaco.options d2 = Monaco.options d1
             /\ Monaco.getLineContent model (Monaco.startLineNumber (Monaco.range d1))
                = Ret text1
             /\ Monaco.getLineContent model (Monaco.startLineNumber (Monaco.range d2))
                = Ret text2
             /\ 1 <= Monaco.startLineNumber (Monaco.range d1)
             /\ Monaco.startLineNumber (Monaco.range d1)
                < Monaco.startLineNumber (Monaco.range d2)
             /\ Monaco.startLineNumber (Monaco.range d2) <= Monaco.getLineCount model
             /\ Monaco.endLineNumber (Monaco.range d1)
                = Monaco.startLineNumber (Monaco.range d1)
             /\ Monaco.endLineNumber (Monaco.range d2)
                = Monaco.startLineNumber (Monaco.range d2)
             /\ 1 <= Monaco.startColumn (Monaco.range d1)
                <= Monaco.endColumn (Monaco.range d1)
             /\ Monaco.endColumn (Monaco.range d1) <= len text1 + 1
             /\ 1 <= Monaco.startColumn (Monaco.range d2)
                <= Monaco.endColumn (Monaco.range d2)
             /\ Monaco.endColumn (Monaco.range d2) <= len text2 + 1).
Proof.
  intros model position. eexists.
  split; [vm_compute; reflexivity|]. split; [reflexivity|].
  destruct (decorations_are_ranges_of_the_model DEFAULT_OPTIONS model position)
    as [_ H].
  apply H. vm_compute. reflexivity.
Defined.

(** ** The colon count of a result, and the delimiters that are scanned *)

(** X17. The colon count of a result is the colon count that the
    classifier answers for the cursor, although the code takes it from the
    bracket of the scanner. *)
Theorem result_colon_count_is_the_classifier_s
  (document : TextDocument) (position : Position) (r : BracketMatch) :
  findMatchingBrackets document position = Ret (Some r) ->
  exists lineContent,
    getLine document (line position) = Ret lineContent
    /\ detectBracketAtPosition lineContent (column position) = Some (colonCount r).
Proof.
  intros H. pose proof H as Hsome. apply fmb_some in Hsome.
  destruct Hsome as [Hon _]. unfold onDelimiter in Hon.
  destruct (getLine document (line position)) as [s|] eqn:Hget; [|discriminate].
  destruct (detectBracketAtPosition s (column position)) as [k|] eqn:Hdet;
    [|discriminate].
  exists s. split; [reflexivity|]. f_equal.
  destruct (detect_some_colonRun _ _ _ Hdet) as [Hk _].
  destruct (fmb_pair _ _ _ H)
    as (brackets & i & j & o & c & Hscan & Hi & Hj & _
        & _ & _ & Hon_count & Hcn & _ & _ & Hdir).
  destruct (scanAllBrackets_scanned _ _ Hscan) as [_ Hall].
  rewrite Forall_forall in Hall.
  destruct Hdir as [[Hline _] | [Hline _]].
  - destruct (Hall o (nth_error_In _ _ Hi)) as (_ & _ & so & Hso & Hrun).
    rewrite Hline, Hget in Hso. injection Hso as <-. congruence.
  - destruct (Hall c (nth_error_In _ _ Hj)) as (_ & _ & sc & Hsc & Hrun).
    rewrite Hline, Hget in Hsc. injection Hsc as <-. congruence.
Qed.

Lemma result_colon_count_is_the_classifier_s_witness :
  let document := createDocument (map js [":::outer"; "::inner"; "::"; ":::"]%string) in
  exists r,
    findMatchingBrackets document {| line := 3; column := 1 |} = Ret (Some r)
    /\ exists lineContent,
        getLine document 3 = Ret lineContent
        /\ detectBracketAtPosition lineContent 1 = Some (colonCount r).
Proof.
  intros document. eexists. split; [vm_compute; reflexivity|].
  apply (result_colon_count_is_the_classifier_s document {| line := 3; column := 1 |}).
  vm_compute. reflexivity.
Defined.

Lemma scanLoop_split (document : TextDocument) (a b : nat) :
  forall (lineNumber : Z) (st : scanState),
    scanLoop document (a + b) lineNumber st
    = (st1 <- scanLoop document a lineNumber st ;;
       scanLoop document b (lineNumber + Z.of_nat a) st1).
Proof.
  induction a as [|a IH]; intros lineNumber st.
  - simpl. now rewrite Z.add_0_r.
  - cbn [Nat.add scanLoop].
    destruct (getLine document lineNumber) as [lc|]; [|reflexivity].
    cbn [bind]. rewrite IH.
    now replace (lineNumber + Z.of_nat (S a)) with (lineNumber + 1 + Z.of_nat a)
      by lia.
Qed.

Lemma scanLoop_flag (document : TextDocument) (count : nat) :
  forall (k : nat) (st st' : scanState),
    scanLoop document count (Z.of_nat k) st = Ret st' ->
    snd st = insideFence document k ->
    snd st' = insideFence document (k + count).
Proof.
  induction count as [|count IH]; intros k st st' Hrun Hflag.
  - injection Hrun as <-. now rewrite Nat.add_0_r.
  - cbn [scanLoop] in Hrun.
    destruct (getLine document (Z.of_nat k)) as [lc|] eqn:Hget; [|discriminate].
    simpl in Hrun.
    replace (Z.of_nat k + 1) with (Z.of_nat (S k)) in Hrun by lia.
    replace (k + S count)%nat with (S k + count)%nat by lia.
    apply (IH (S k) _ _ Hrun).
    rewrite scanLine_flag, Hflag. cbn [insideFence]. now rewrite Hget.
Qed.

Lemma scanLoop_extends (document : TextDocument) (count : nat) :
  forall (lineNumber : Z) (st st' : scanState),
    scanLoop document count lineNumber st = Ret st' ->
    exists more, fst st' = fst st ++ more.
Proof.
  induction count as [|count IH]; intros lineNumber st st' Hrun.
  - injection Hrun as <-. exists []. now rewrite app_nil_r.
  - cbn [scanLoop] in Hrun.
    destruct (getLine document lineNumber) as [lc|]; [|discriminate].
    simpl in Hrun. destruct (IH _ _ _ Hrun) as (more & Hmore).
    destruct (scanLine_brackets lineNumber lc st) as [Hsame | (b & Hpush & _)].
    + exists more. now rewrite Hmore, Hsame.
    + exists (b :: more). rewrite Hmore, Hpush, <- app_assoc. reflexivity.
Qed.

(** X18. The scanner misses no delimiter: when the classifier answers for
    some column of a line of the document that is outside the code blocks,
    the scan has a bracket for that line, with the colon count that the
    classifier answers. *)
Theorem delimiter_outside_fences_is_scanned
  (document : TextDocument) (brackets : list BracketBlock)
  (l : nat) (lineContent : jsstring) (column k : Z) :
  scanAllBrackets document = Ret brackets ->
  Z.of_nat l < lineCount document ->
  insideFence document l = false ->
  getLine document (Z.of_nat l) = Ret lineContent ->
  detectBracketAtPosition lineContent column = Some k ->
  exists b, In b brackets
            /\ BracketBlock.line b = Z.of_nat l
            /\ BracketBlock.colonCount b = k.
Proof.
  intros Hscan Hl Hout Hget Hdet. unfold scanAllBrackets in Hscan.
  destruct (scanLoop document (Z.to_nat (lineCount document)) 0 ([], false))
    as [st|] eqn:Hrun; [|discriminate].
  simpl in Hscan. injection Hscan as <-.
  replace (Z.to_nat (lineCount document))
    with (l + S (Z.to_nat (lineCount document) - S l))%nat in Hrun by lia.
  rewrite scanLoop_split in Hrun.
  destruct (scanLoop document l 0 ([], false)) as [st1|] eqn:Hrun1; [|discriminate].
  cbn [bind] in Hrun. rewrite Z.add_0_l in Hrun.
  pose proof (scanLoop_flag document l 0%nat ([], false) st1 Hrun1 eq_refl) as Hflag.
  simpl Nat.add in Hflag. rewrite Hout in Hflag.
  cbn [scanLoop] in Hrun. rewrite Hget in Hrun. cbn [bind] in Hrun.
  destruct st1 as [brackets1 inside1]. simpl in Hflag. subst inside1.
  destruct (detect_some_token _ _ _ Hdet (Z.of_nat l) brackets1)
    as (b & Hpush & Hline & Hcount).
  rewrite Hpush in Hrun.
  destruct (scanLoop_extends _ _ _ _ _ Hrun) as (more & Hmore).
  exists b. split; [|now split].
  rewrite Hmore. simpl fst. apply in_or_app. left. apply in_or_app. right. now left.
Qed.

Lemma delimiter_outside_fences_is_scanned_witness :
  exists brackets,
    scanAllBrackets docFenced = Ret brackets
    /\ Z.of_nat 5 < lineCount docFenced
    /\ insideFence docFenced 5 = false
    /\ getLine docFenced (Z.of_nat 5) = Ret (js "::")
    /\ detectBracketAtPosition (js "::") 2 = Some 2
    /\ exists b, In b brackets
                 /\ BracketBlock.line b = Z.of_nat 5
                 /\ BracketBlock.colonCount b = 2.
Proof.
  eexists.
  assert (Hscan : scanAllBrackets docFenced
                  = Ret [BracketBlock.mk 0 2 true (Some (js "component"));
                         BracketBlock.mk 5 2 false None])
    by (vm_compute; reflexivity).
  assert (Hl : Z.of_nat 5 < lineCount docFenced) by (vm_compute; reflexivity).
  assert (Hout : insideFence docFenced 5 = false) by reflexivity.
  assert (Hget : getLine docFenced (Z.of_nat 5) = Ret (js "::")) by reflexivity.
  assert (Hdet : detectBracketAtPosition (js "::") 2 = Some 2) by reflexivity.
  split; [exact Hscan|]. split; [exact Hl|]. split; [exact Hout|].
  split; [exact Hget|]. split; [exact Hdet|].
  exact (delimiter_outside_fences_is_scanned docFenced _ 5 (js "::") 2 2
           Hscan Hl Hout Hget Hdet).
Defined.
